(** * Cyber newsletter: ranking, text helpers and page layout

    A shallow embedding of [cyber-daily-news.py].  Python strings are lists
    of Unicode code points, Python [int]s are [Z], and the quantities the
    script keeps in floating point are rationals ([Q]) for the layout and
    text measurement and reals ([R]) for the logistic recency score.

    Functions of the libraries the script calls ([str.lower],
    [SequenceMatcher.ratio], [html.unescape], the [stringWidth] of the PDF
    canvas, [simpleSplit]) are parameters of the definitions that use
    them; [list.sort] is a stable insertion sort.

    The first half of the file holds the model, function by function and
    under the names of the script; the second half holds the properties. *)

From Stdlib Require Import ZArith NArith QArith Qround Reals Lra Lia List String Ascii.
From Stdlib Require Import DecimalString Sorted Permutation.
From Stdlib Require Lqa.
From stdpp Require Import base gmap sets list.
Import ListNotations.
Local Open Scope Z_scope.

(* ================================================================== *)
(** ** Python strings *)
(* ================================================================== *)

Module Py.

(** A [str] is a sequence of code points. *)
Abbreviation str := (list N).

(** Literals are written as ASCII strings and read code point by code point. *)
Definition lit (s : string) : str := List.map N_of_ascii (list_ascii_of_string s).

Definition SPACE : N := 32.
Definition NEWLINE : N := 10.
(** U+2026 HORIZONTAL ELLIPSIS, the one-character string ["…"]. *)
Definition ELLIPSIS : N := 8230.

(** [ch.isspace()], the test behind [str.strip] and the regex class [\s]. *)
Definition isspace (c : N) : bool :=
  ((9 <=? c) && (c <=? 13) || (28 <=? c) && (c <=? 32)
   || (c =? 133) || (c =? 160) || (c =? 5760)
   || (8192 <=? c) && (c <=? 8202)
   || (c =? 8232) || (c =? 8233) || (c =? 8239) || (c =? 8287)
   || (c =? 12288))%N.

(** [s.lstrip()] *)
Fixpoint lstrip (s : str) : str :=
  match s with
  | [] => []
  | c :: t => if isspace c then lstrip t else s
  end.

(** [s.rstrip()] *)
Fixpoint rstrip (s : str) : str :=
  match s with
  | [] => []
  | c :: t =>
      match rstrip t with
      | [] => if isspace c then [] else [c]
      | r => c :: r
      end
  end.

(** [s.strip()] *)
Definition strip (s : str) : str := rstrip (lstrip s).

(** [len(s)] *)
Definition len {A} (s : list A) : Z := Z.of_nat (length s).

(** [s[:k]] for any integer [k]: a negative [k] counts from the end. *)
Definition slice_to {A} (s : list A) (k : Z) : list A :=
  if 0 <=? k then firstn (Z.to_nat k) s
  else firstn (Z.to_nat (len s + k)) s.

(** [s[k:]] for any integer [k]. *)
Definition slice_from {A} (s : list A) (k : Z) : list A :=
  if 0 <=? k then skipn (Z.to_nat k) s
  else skipn (Z.to_nat (len s + k)) s.

(** [c in s] for a one-character string [c]. *)
Definition has_char (c : N) (s : str) : bool := existsb (N.eqb c) s.

(** [s.startswith(p)] *)
Fixpoint startswith (p s : str) : bool :=
  match p, s with
  | [], _ => true
  | _ :: _, [] => false
  | a :: p', b :: s' => (a =? b)%N && startswith p' s'
  end.

(** [t in s]: substring test. *)
Fixpoint contains (t s : str) : bool :=
  startswith t s ||
  match s with
  | [] => false
  | _ :: s' => contains t s'
  end.

(** [s.rsplit(" ", 1)]: [Some (left, right)] around the last space, [None]
    when [s] has no space (Python then returns [[s]]). *)
Fixpoint rsplit1_space (s : str) : option (str * str) :=
  match s with
  | [] => None
  | c :: t =>
      match rsplit1_space t with
      | Some (l, r) => Some (c :: l, r)
      | None => if (c =? SPACE)%N then Some ([], t) else None
      end
  end.

(** [s.rsplit(" ", 1)[0]] *)
Definition rsplit1_space_head (s : str) : str :=
  match rsplit1_space s with
  | Some (l, _) => l
  | None => s
  end.

(** [s.split("\n\n")]: the pieces between the non-overlapping occurrences
    of a blank line, found left to right.  [skip] is set while the second
    newline of a separator is being passed over. *)
Fixpoint split_blank_aux (skip : bool) (s : str) : list str :=
  match s with
  | [] => [[]]
  | c :: t =>
      if skip then split_blank_aux false t
      else if (c =? NEWLINE)%N && startswith [NEWLINE] t
      then [] :: split_blank_aux true t
      else
        match split_blank_aux false t with
        | p :: ps => (c :: p) :: ps
        | [] => [[c]]
        end
  end.

Definition split_blank (s : str) : list str := split_blank_aux false s.

(** ["\n\n".join(parts)] *)
Fixpoint join_blank (parts : list str) : str :=
  match parts with
  | [] => []
  | [p] => p
  | p :: rest => p ++ [NEWLINE; NEWLINE] ++ join_blank rest
  end.

(** [str(n)] for a non-negative integer, in decimal. *)
Definition str_of_nat (n : nat) : str :=
  lit (NilEmpty.string_of_uint (Nat.to_uint n)).

End Py.

(* ================================================================== *)
(** ** Text normaliser: [shorten] *)
(* ================================================================== *)

(** [shorten(s, max_chars)] *)
Definition shorten (s : Py.str) (max_chars : Z) : Py.str :=
  let s := Py.strip s in
  if Py.len s <=? max_chars then s
  else
    let cut := Py.slice_to s (max_chars + 1) in
    let cut := if Py.has_char Py.SPACE cut then Py.rsplit1_space_head cut else cut in
    Py.rstrip cut ++ [Py.ELLIPSIS].

(* ================================================================== *)
(** ** WhatsApp text helpers: [chunk_text] and [prefix_parts] *)
(* ================================================================== *)

(** The inner loop of [chunk_text]:
    [while len(p) > max_len: chunks.append(p[:max_len]); p = p[max_len:]].
    It returns the pieces appended and the rest of [p]; [None] stands for a
    loop that has not stopped within [fuel] rounds. *)
Fixpoint hard_split (fuel : nat) (max_len : Z) (p : Py.str)
  : option (list Py.str * Py.str) :=
  match fuel with
  | O => None
  | S fuel' =>
      if max_len <? Py.len p then
        match hard_split fuel' max_len (Py.slice_from p max_len) with
        | Some (cs, r) => Some (Py.slice_to p max_len :: cs, r)
        | None => None
        end
      else Some ([], p)
  end.

(** One round of [for p in parts], on the pair [(chunks, buf)]. *)
Definition chunk_step (max_len : Z) (st : list Py.str * Py.str) (p : Py.str)
  : option (list Py.str * Py.str) :=
  let '(chunks, buf) := st in
  let p := Py.strip p in
  match p with
  | [] => Some st
  | _ :: _ =>
      let candidate :=
        Py.strip (buf ++ (match buf with [] => [] | _ => [Py.NEWLINE; Py.NEWLINE] end) ++ p) in
      if Py.len candidate <=? max_len then Some (chunks, candidate)
      else
        let chunks := match buf with [] => chunks | _ => chunks ++ [buf] end in
        match hard_split (S (length p)) max_len p with
        | Some (cs, r) => Some (chunks ++ cs, r)
        | None => None
        end
  end.

Fixpoint chunk_loop (max_len : Z) (st : list Py.str * Py.str) (parts : list Py.str)
  : option (list Py.str * Py.str) :=
  match parts with
  | [] => Some st
  | p :: rest =>
      match chunk_step max_len st p with
      | Some st' => chunk_loop max_len st' rest
      | None => None
      end
  end.

(** [chunk_text(text, max_len)] *)
Definition chunk_text (text : Py.str) (max_len : Z) : option (list Py.str) :=
  let text := Py.strip text in
  match text with
  | [] => Some [[]]
  | _ :: _ =>
      if Py.len text <=? max_len then Some [text]
      else
        match chunk_loop max_len ([], []) (Py.split_blank text) with
        | Some (chunks, buf) =>
            Some (match buf with [] => chunks | _ => chunks ++ [buf] end)
        | None => None
        end
  end.

(** The marker [f"({i}/{total})\n"]. *)
Definition part_marker (i total : nat) : Py.str :=
  Py.lit "(" ++ Py.str_of_nat i ++ Py.lit "/" ++ Py.str_of_nat total
    ++ Py.lit ")" ++ [Py.NEWLINE].

(** [prefix_parts(chunks)]; [enumerate(chunks, 1)] counts from one. *)
Definition prefix_parts (chunks : list Py.str) : list Py.str :=
  if Py.len chunks <=? 1 then chunks
  else
    let total := length chunks in
    imap (fun i c => part_marker (S i) total ++ c) chunks.

(* ================================================================== *)
(** ** Text measurement and wrapping *)
(* ================================================================== *)

(** [_URL_BREAK_CHARS = set("/?&=_-.#:")] *)
Definition URL_BREAK_CHARS : Py.str := Py.lit "/?&=_-.#:".

Definition is_url_break (c : N) : bool := Py.has_char c URL_BREAK_CHARS.

(** [for i, cc in enumerate(cur, 1): if cc in _URL_BREAK_CHARS: last_break_pos = i],
    started at index [i] with [last_break_pos = acc]. *)
Fixpoint rescan_break (i acc : Z) (cur : Py.str) : Z :=
  match cur with
  | [] => acc
  | cc :: t => rescan_break (i + 1) (if is_url_break cc then i else acc) t
  end.

(** The loop state of [wrap_url_smart]. *)
Record WrapState := mkWrap {
  w_lines : list Py.str;
  w_cur : Py.str;
  w_last_break_pos : Z
}.

Section Measured.

(** [c.stringWidth(text, font, size)] for the font and size of the call:
    the measurement function of the PDF library. *)
Variable stringWidth : Py.str -> Q.
Variable max_width : Q.

Definition fits (s : Py.str) : bool := Qle_bool (stringWidth s) max_width.

(** The body of [for ch in url]. *)
Definition wrap_step (st : WrapState) (ch : N) : WrapState :=
  let cand := w_cur st ++ [ch] in
  let last_break_pos :=
    if is_url_break ch then Py.len cand else w_last_break_pos st in
  if fits cand then mkWrap (w_lines st) cand last_break_pos
  else
    let cur := w_cur st in
    let '(lines', cur') :=
      if 0 <? last_break_pos then
        (w_lines st ++ [Py.rstrip (Py.slice_to cur last_break_pos)],
         match Py.lstrip (Py.slice_from cur last_break_pos) with
         | [] => [ch]
         | rest => rest ++ [ch]
         end)
      else
        match cur with
        | _ :: _ => (w_lines st ++ [cur], [ch])
        | [] => (w_lines st ++ [[ch]], [])
        end in
    mkWrap lines' cur' (rescan_break 1 (-1) cur').

(** [wrap_url_smart(c, url, font, size, max_width)] *)
Definition wrap_url_smart (url : Py.str) : list Py.str :=
  let url := Py.strip url in
  match url with
  | [] => []
  | _ :: _ =>
      let st := fold_left wrap_step url (mkWrap [] [] (-1)) in
      match w_cur st with
      | [] => w_lines st
      | _ :: _ => w_lines st ++ [w_cur st]
      end
  end.

(** [text[:mid].rstrip() + ell] *)
Definition ell_cand (text : Py.str) (mid : Z) : Py.str :=
  Py.rstrip (Py.slice_to text mid) ++ [Py.ELLIPSIS].

(** The binary search [while lo <= hi] of [ellipsize_line_to_width];
    [None] stands for a loop that has not stopped within [fuel] rounds. *)
Fixpoint ellipsize_loop (fuel : nat) (text : Py.str) (lo hi : Z) (best : Py.str)
  : option Py.str :=
  match fuel with
  | O => None
  | S fuel' =>
      if lo <=? hi then
        let mid := (lo + hi) / 2 in
        let cand := ell_cand text mid in
        if fits cand then ellipsize_loop fuel' text (mid + 1) hi cand
        else ellipsize_loop fuel' text lo (mid - 1) best
      else Some best
  end.

(** [ellipsize_line_to_width(c, text, font, size, max_width)] *)
Definition ellipsize_line_to_width (text : Py.str) : option Py.str :=
  if fits text then Some text
  else
    match ellipsize_loop (length text + 2) text 0 (Py.len text) [] with
    | Some [] => Some [Py.ELLIPSIS]
    | r => r
    end.

End Measured.

(* ================================================================== *)
(** ** Classifier *)
(* ================================================================== *)

Inductive Category := ZERO_DAYS | RANSOMWARE | BREACHES | PHISHING | OTHER.

(** The category strings returned by [classify]. *)
Definition category_name (c : Category) : Py.str :=
  match c with
  | ZERO_DAYS => Py.lit "ZERO-DAYS"
  | RANSOMWARE => Py.lit "RANSOMWARE"
  | BREACHES => Py.lit "BREACHES"
  | PHISHING => Py.lit "PHISHING"
  | OTHER => Py.lit "OTHER"
  end.

(** The fields of an article dict that are set before scoring;
    [published] is a time stamp in microseconds. *)
Record Item := mkItem {
  title : Py.str;
  summary : Py.str;
  source : Py.str;
  published : Z;
  link : Py.str
}.

Section Lowercase.

(** [str.lower], Python's Unicode lower-casing. *)
Variable lower : Py.str -> Py.str.

(** [(item.get("title", "") + " " + item.get("summary", "")).lower()] *)
Definition item_text (it : Item) : Py.str :=
  lower (title it ++ [Py.SPACE] ++ summary it).

(** [classify(item)] *)
Definition classify (it : Item) : Category :=
  let text := item_text it in
  if Py.contains (Py.lit "zero-day") text || Py.contains (Py.lit "zero day") text
     || Py.contains (Py.lit "0day") text || Py.contains (Py.lit "actively exploited") text
  then ZERO_DAYS
  else if Py.contains (Py.lit "ransomware") text then RANSOMWARE
  else if Py.contains (Py.lit "breach") text || Py.contains (Py.lit "data breach") text
  then BREACHES
  else if Py.contains (Py.lit "phishing") text then PHISHING
  else OTHER.

End Lowercase.

(** [str.lower] on ASCII text, for the examples. *)
Definition ascii_lower (s : Py.str) : Py.str :=
  List.map (fun c => if (65 <=? c) && (c <=? 90) then c + 32 else c)%N s.

(* ================================================================== *)
(** ** Scorer *)
(* ================================================================== *)

(** [KEYWORD_WEIGHTS], in the order of the dict. *)
Definition KEYWORD_WEIGHTS : list (Py.str * Z) :=
  [ (Py.lit "zero-day", 40); (Py.lit "zero day", 35); (Py.lit "0day", 35);
    (Py.lit "ransomware", 35);
    (Py.lit "actively exploited", 45);
    (Py.lit "in the wild", 30);
    (Py.lit "data breach", 30);
    (Py.lit "breach", 20);
    (Py.lit "apt", 35);
    (Py.lit "critical", 20);
    (Py.lit "cve", 15);
    (Py.lit "remote code execution", 35);
    (Py.lit "rce", 25);
    (Py.lit "auth bypass", 25);
    (Py.lit "privilege escalation", 20);
    (Py.lit "malware", 20);
    (Py.lit "botnet", 20);
    (Py.lit "phishing", 10);
    (Py.lit "supply chain", 30) ].

(** [SOURCE_WEIGHTS] *)
Definition SOURCE_WEIGHTS : list (Py.str * Z) :=
  [ (Py.lit "Krebs on Security", 25);
    (Py.lit "SANS NewsBites", 25);
    (Py.lit "Schneier on Security", 20);
    (Py.lit "The Hacker News", 20);
    (Py.lit "SecurityWeek", 20);
    (Py.lit "Sophos News", 18);
    (Py.lit "Unsupervised Learning", 18);
    (Py.lit "Dark Reading", 15);
    (Py.lit "Tripwire", 15);
    (Py.lit "Cybersecurity Dive", 14);
    (Py.lit "The Last Watchdog", 14);
    (Py.lit "CSO Online", 15);
    (Py.lit "WIRED Security", 12);
    (Py.lit "PCworld Security", 10);
    (Py.lit "CNET Security", 10) ].

(** [_WORD_BOUNDARY_TOKENS] *)
Definition WORD_BOUNDARY_TOKENS : list Py.str :=
  [Py.lit "apt"; Py.lit "cve"; Py.lit "rce"].

(** [d.get(k, default)] on a table with distinct keys. *)
Fixpoint dict_get (d : list (Py.str * Z)) (k : Py.str) (default : Z) : Z :=
  match d with
  | [] => default
  | (k', v) :: d' => if bool_decide (k' = k) then v else dict_get d' k default
  end.

Section Scoring.

Variable lower : Py.str -> Py.str.
(** [ch.isalnum()], the Unicode part of the regex class [\w]. *)
Variable isalnum : N -> bool.

Definition is_word (c : option N) : bool :=
  match c with
  | Some c => isalnum c || (c =? 95)%N
  | None => false
  end.

(** The regex [\b] between two neighbouring positions. *)
Definition word_boundary (prev next : option N) : bool :=
  xorb (is_word prev) (is_word next).

(** [re.search(rf"\b{re.escape(t)}\b", s)], with [prev] the character
    before [s] in the text searched. *)
Fixpoint search_word (t : Py.str) (prev : option N) (s : Py.str) : bool :=
  (Py.startswith t s
   && word_boundary prev (head s)
   && word_boundary (match last t with Some c => Some c | None => prev end)
                    (head (skipn (length t) s)))
  || match s with
     | [] => false
     | c :: s' => search_word t (Some c) s'
     end.

(** [token_present(text, token)] *)
Definition token_present (text token : Py.str) : bool :=
  let t := Py.strip (lower token) in
  if bool_decide (t ∈ WORD_BOUNDARY_TOKENS) || (Py.len t <=? 3)
  then search_word t None text
  else Py.contains t text.

Local Open Scope R_scope.

(** [recency_score(hours_old)] *)
Definition recency_score (LOOKBACK_HOURS : Z) (hours_old : R) : R :=
  let midpoint := IZR (Z.max 1 LOOKBACK_HOURS) in
  let spread := Rmax 2 (midpoint / 4) in
  30 / (1 + exp ((hours_old - midpoint) / spread)).

(** Rounding to the nearest integer, ties to the even one. *)
Definition round_half_even (x : R) : Z :=
  let f := Int_part x in
  let d := x - IZR f in
  if Rlt_dec d (1 / 2) then f
  else if Rlt_dec (1 / 2) d then (f + 1)%Z
  else if Z.even f then f else (f + 1)%Z.

(** [round(x, 1)] *)
Definition round1 (x : R) : R := IZR (round_half_even (x * 10)) / 10.

(** The keyword loop of [compute_score]. *)
Fixpoint keyword_sum (text : Py.str) (kw : list (Py.str * Z)) (acc : R) : R :=
  match kw with
  | [] => acc
  | (keyword, weight) :: kw' =>
      keyword_sum text kw' (if token_present text keyword then acc + IZR weight else acc)
  end.

(** [(now_utc() - article["published"]).total_seconds() / 3600.0], with
    both time stamps in microseconds. *)
Definition hours_old (now : Z) (it : Item) : R :=
  IZR (now - published it) / 1000000 / 3600.

(** [compute_score(article)], evaluated at time [now]. *)
Definition compute_score (MAX_KEYWORD_SCORE LOOKBACK_HOURS : Z) (now : Z) (it : Item) : R :=
  let text := lower (title it ++ [Py.SPACE] ++ summary it) in
  let keyword_score := keyword_sum text KEYWORD_WEIGHTS 0 in
  let score := Rmin keyword_score (IZR MAX_KEYWORD_SCORE) in
  let score := score + IZR (dict_get SOURCE_WEIGHTS (source it) 10) in
  let score := score + Rmax 0 (recency_score LOOKBACK_HOURS (hours_old now it)) in
  round1 score.

End Scoring.

(* ================================================================== *)
(** ** Deduplicator and ranking pipeline *)
(* ================================================================== *)

(** What the loop of [collect_and_rank] reads of one feed entry:
    [parse_entry_datetime(entry)] (in microseconds, [None] when the entry
    has no usable date), [normalize_space(entry.title)],
    [canonical_link(entry.link)] and [extract_summary(entry)]. *)
Record Entry := mkEntry {
  e_published : option Z;
  e_title : Py.str;
  e_link : Py.str;
  e_summary : Py.str
}.

(** An article dict once [article["score"]] is set.  The optional
    [article["signals"]] is a list of display labels that neither the
    ranking nor the layout cursor reads, and is left out. *)
Record Article := mkArticle {
  a_item : Item;
  score : Q
}.

(** The three accumulators of [collect_and_rank]. *)
Record RankState := mkRank {
  articles : list Article;
  seen_titles : list Py.str;
  seen_links : gset Py.str
}.

(** [articles.sort(key=lambda x: x["score"], reverse=True)]: insertion
    into a list sorted downwards, before the first element that is not
    greater, so that equal scores keep the order of arrival of a right
    fold. *)
Fixpoint insert_desc (x : Article) (l : list Article) : list Article :=
  match l with
  | [] => [x]
  | y :: t =>
      if Qle_bool (score y) (score x) then x :: l
      else y :: insert_desc x t
  end.

Fixpoint sort_desc (l : list Article) : list Article :=
  match l with
  | [] => []
  | x :: t => insert_desc x (sort_desc t)
  end.

Section Ranking.

Variable lower : Py.str -> Py.str.
(** [SequenceMatcher(None, a, b).ratio()] *)
Variable ratio : Py.str -> Py.str -> Q.
(** [html.unescape(s or "").strip()] *)
Variable safe_text : Py.str -> Py.str.
(** [compute_score] as the float it returns. *)
Variable score_of : Item -> Q.
Variables (TOP_N LOOKBACK_HOURS : Z) (DUPLICATE_THRESHOLD : Q).
(** [now_utc()], in microseconds. *)
Variable now : Z.

(** [is_duplicate_title(title, seen_titles, threshold)] *)
Definition is_duplicate_title (title : Py.str) (seen : list Py.str) (threshold : Q) : bool :=
  let t := Py.strip (lower title) in
  existsb (fun s => negb (Qle_bool (ratio t (Py.strip (lower s))) threshold)) seen.

(** [now_utc() - timedelta(hours=LOOKBACK_HOURS)] *)
Definition cutoff : Z := now - LOOKBACK_HOURS * 3600000000.

(** The entries that get past the date and title guards. *)
Definition is_candidate (e : Entry) : bool :=
  match e_published e with
  | None => false
  | Some p => negb (p <? cutoff) && negb (bool_decide (e_title e = []))
  end.

Definition make_article (src : Py.str) (e : Entry) (p : Z) : Article :=
  let it := mkItem (safe_text (e_title e)) (safe_text (e_summary e)) src p (e_link e) in
  mkArticle it (score_of it).

(** The body of [for entry in feed.entries]. *)
Definition process_entry (src : Py.str) (st : RankState) (e : Entry) : RankState :=
  match e_published e with
  | None => st
  | Some p =>
      if p <? cutoff then st
      else
        match e_title e with
        | [] => st
        | _ :: _ =>
            let lnk := e_link e in
            if negb (bool_decide (lnk = [])) && bool_decide (lnk ∈ seen_links st)
            then st
            else
              let links' :=
                if bool_decide (lnk = []) then seen_links st
                else {[ lnk ]} ∪ seen_links st in
              if is_duplicate_title (e_title e) (seen_titles st) DUPLICATE_THRESHOLD
              then mkRank (articles st) (seen_titles st) links'
              else mkRank (articles st ++ [make_article src e p])
                          (seen_titles st ++ [e_title e])
                          links'
        end
  end.

(** The body of [for source, url in RSS_FEEDS.items()]; a feed is [None]
    when [feedparser.parse] raised. *)
Definition process_feed (st : RankState) (feed : Py.str * option (list Entry)) : RankState :=
  match snd feed with
  | None => st
  | Some entries => fold_left (process_entry (fst feed)) entries st
  end.

(** The state when the two loops are over. *)
Definition collect (feeds : list (Py.str * option (list Entry))) : RankState :=
  fold_left process_feed feeds (mkRank [] [] ∅).

(** [collect_and_rank()] *)
Definition collect_and_rank (feeds : list (Py.str * option (list Entry))) : list Article :=
  Py.slice_to (sort_desc (articles (collect feeds))) TOP_N.

End Ranking.

(* ================================================================== *)
(** ** Layout engine of [build_pdf_bytes] *)
(* ================================================================== *)

Module Layout.

Local Open Scope Q_scope.

Definition inch : Q := 72.
(** [width, height = landscape(LETTER)] *)
Definition width : Q := 792.
Definition height : Q := 612.
Definition margin : Q := (55 # 100) * inch.
Definition top : Q := height - margin.
Definition bottom : Q := (65 # 100) * inch.

(** The cursor of the two-column layout: [page_num], [col_y],
    [current_col] and [last_sec]. *)
Record State := mkState {
  page_num : Z;
  col_y : list Q;
  current_col : nat;
  last_sec : option Category
}.

(** [col_y[i]] *)
Definition y_at (st : State) (i : nat) : Q := nth i (col_y st) 0.

(** [col_y[i] - need >= bottom] *)
Definition has_room (st : State) (i : nat) (need : Q) : bool :=
  Qle_bool bottom (y_at st i - need).

(** [new_page()]: the page counter moves on (the drawing calls leave the
    cursor alone). *)
Definition new_page (st : State) : State :=
  mkState (page_num st + 1)%Z (col_y st) (current_col st) (last_sec st).

(** [ensure_room(need)] *)
Definition ensure_room (need : Q) (st : State) : State :=
  if has_room st (current_col st) need then st
  else if Nat.eqb (current_col st) 0 && has_room st 1 need
  then mkState (page_num st) (col_y st) 1 (last_sec st)
  else
    let st := new_page st in
    mkState (page_num st) (<[1%nat := top]> (<[0%nat := top]> (col_y st))) 0 (last_sec st).

(** The line counts [draw_story_card] measures for one item: [len(hl)],
    [len(slines)], [has_kicker], [has_link] and [len(link_lines)] once cut
    to [MAX_URL_LINES]. *)
Record CardLines := mkCard {
  n_hl : nat;
  n_slines : nat;
  has_kicker : bool;
  has_link : bool;
  n_link_lines : nat
}.

Definition of_nat (n : nat) : Q := inject_Z (Z.of_nat n).

(** [card_h] *)
Definition card_h (c : CardLines) : Q :=
  let lh_head := (16 # 100) * inch in
  let lh_meta := (12 # 100) * inch in
  let lh_sum := (13 # 100) * inch in
  let lh_kick := (11 # 100) * inch in
  let lh_link := (11 # 100) * inch in
  (12 # 72) * inch
  + of_nat (Nat.min 2 (n_hl c)) * lh_head
  + lh_meta
  + of_nat (Nat.min 3 (n_slines c)) * lh_sum
  + (if has_kicker c then lh_kick else 0)
  + (if has_link c then of_nat (n_link_lines c) * lh_link else 0)
  + (12 # 72) * inch.

(** [col_y[current_col] = y] *)
Definition set_y (st : State) (y : Q) : State :=
  mkState (page_num st) (<[current_col st := y]> (col_y st)) (current_col st) (last_sec st).

(** [draw_section_block] returns [y_top - (h + 0.16 * inch)] with
    [h = 0.22 * inch]. *)
Definition after_section (y_top : Q) : Q :=
  y_top - ((22 # 100) * inch + (16 # 100) * inch).

(** [draw_story_card] returns [y_top - card_h - 0.16 * inch]. *)
Definition after_card (y_top : Q) (c : CardLines) : Q :=
  y_top - card_h c - (16 # 100) * inch.

(** The column switch that ends each round of the loop. *)
Definition balance (st : State) : State :=
  if negb (Qle_bool (y_at st 1 - (9 # 10) * inch) (y_at st 0))
  then mkState (page_num st) (col_y st) 1 (last_sec st)
  else if negb (Qle_bool (y_at st 0 - (9 # 10) * inch) (y_at st 1))
  then mkState (page_num st) (col_y st) 0 (last_sec st)
  else st.

Definition category_eqb (a b : Category) : bool :=
  match a, b with
  | ZERO_DAYS, ZERO_DAYS | RANSOMWARE, RANSOMWARE | BREACHES, BREACHES
  | PHISHING, PHISHING | OTHER, OTHER => true
  | _, _ => false
  end.

(** The body of [for sec, item in items[:TOP_N]]. *)
Definition place (st : State) (blk : Category * CardLines) : State :=
  let '(sec, c) := blk in
  let st :=
    if match last_sec st with Some s => category_eqb sec s | None => false end
    then st
    else
      let st := ensure_room ((60 # 100) * inch) st in
      let st := set_y st (after_section (y_at st (current_col st))) in
      mkState (page_num st) (col_y st) (current_col st) (Some sec) in
  let st := ensure_room ((175 # 100) * inch) st in
  let st := set_y st (after_card (y_at st (current_col st)) c) in
  balance st.

(** The cursor when the first page has been opened: [page_num = 1],
    [new_page()], [col_y = [top, top]], [current_col = 0]. *)
Definition start : State := new_page (mkState 1 [top; top] 0 None).

Definition sections_order : list Category :=
  [ZERO_DAYS; RANSOMWARE; BREACHES; PHISHING; OTHER].

Section Render.

Variable classify_item : Item -> Category.
(** The measurements of [draw_story_card] for an item. *)
Variable measure : Item -> CardLines.
Variable TOP_N : Z.

(** [items]: the news grouped by section, sections in [sections_order]. *)
Definition group (news : list Article) : list (Category * Article) :=
  flat_map
    (fun sec =>
       List.map (fun a => (sec, a))
         (List.filter (fun a => category_eqb (classify_item (a_item a)) sec) news))
    sections_order.

(** The cursor at the end of [build_pdf_bytes(news)]. *)
Definition render (news : list Article) : State :=
  match news with
  | [] => start
  | _ :: _ =>
      fold_left place
        (List.map (fun sa => (fst sa, measure (a_item (snd sa))))
           (Py.slice_to (group news) TOP_N))
        start
  end.

End Render.

End Layout.

(* ================================================================== *)
(** ** Vocabulary of the properties *)
(* ================================================================== *)

(** No character of [s] is a blank; every character of [s] is one. *)
Definition nonspace (s : Py.str) : Prop := Forall (fun c => Py.isspace c = false) s.
Definition allspace (s : Py.str) : Prop := Forall (fun c => Py.isspace c = true) s.

(** [t] occurs in [s] as a run of consecutive characters. *)
Definition occurs_in (t s : Py.str) : Prop :=
  exists pre post, s = pre ++ t ++ post.

(** One of the four terms of the zero-day family occurs in the text. *)
Definition zero_day_family (text : Py.str) : Prop :=
  occurs_in (Py.lit "zero-day") text \/ occurs_in (Py.lit "zero day") text
  \/ occurs_in (Py.lit "0day") text \/ occurs_in (Py.lit "actively exploited") text.

Definition breach_terms (text : Py.str) : Prop :=
  occurs_in (Py.lit "breach") text \/ occurs_in (Py.lit "data breach") text.

(** The condition of the precedence chain under which a text falls into a
    category: the test of the category passes and no earlier test does. *)
Definition chain_condition (c : Category) (text : Py.str) : Prop :=
  match c with
  | ZERO_DAYS => zero_day_family text
  | RANSOMWARE => ~ zero_day_family text /\ occurs_in (Py.lit "ransomware") text
  | BREACHES =>
      ~ zero_day_family text /\ ~ occurs_in (Py.lit "ransomware") text
      /\ breach_terms text
  | PHISHING =>
      ~ zero_day_family text /\ ~ occurs_in (Py.lit "ransomware") text
      /\ ~ breach_terms text /\ occurs_in (Py.lit "phishing") text
  | OTHER =>
      ~ zero_day_family text /\ ~ occurs_in (Py.lit "ransomware") text
      /\ ~ breach_terms text /\ ~ occurs_in (Py.lit "phishing") text
  end.

(** What the search of [ellipsize_line_to_width] returns: nothing when no
    prefix fits with its ellipsis, else the candidate of the greatest
    prefix length that fits. *)
Definition search_result (stringWidth : Py.str -> Q) (max_width : Q)
           (text r : Py.str) : Prop :=
  (r = [] /\ forall m, 0 <= m <= Py.len text ->
                       fits stringWidth max_width (ell_cand text m) = false)
  \/ (exists m, 0 <= m <= Py.len text /\ r = ell_cand text m
                /\ fits stringWidth max_width (ell_cand text m) = true
                /\ forall m', 0 <= m' <= Py.len text ->
                              fits stringWidth max_width (ell_cand text m') = true ->
                              m' <= m).

(** The entries of all feeds, each with its source, in the order in which
    the two nested loops meet them. *)
Definition entries_of (feeds : list (Py.str * option (list Entry)))
  : list (Py.str * Entry) :=
  flat_map (fun feed =>
              match snd feed with
              | None => []
              | Some entries => List.map (fun e => (fst feed, e)) entries
              end) feeds.

Section RankingVocabulary.

Variable lower : Py.str -> Py.str.
Variable ratio : Py.str -> Py.str -> Q.
Variable safe_text : Py.str -> Py.str.
Variable score_of : Item -> Q.
Variables (LOOKBACK_HOURS : Z) (DUPLICATE_THRESHOLD : Q).
Variable now : Z.

(** The loop of [collect_and_rank] over a sequence of entries with their
    sources. *)
Definition run_entries (es : list (Py.str * Entry)) (st : RankState) : RankState :=
  fold_left
    (fun st se =>
       process_entry lower ratio safe_text score_of LOOKBACK_HOURS DUPLICATE_THRESHOLD now
         (fst se) st (snd se))
    es st.

(** The state of the accumulators when the entries [done] have been
    processed. *)
Definition accumulators_ok (done : list (Py.str * Entry)) (st : RankState) : Prop :=
  Forall2 (fun a t => title (a_item a) = safe_text t) (articles st) (seen_titles st)
  /\ (forall l : Py.str,
        l ∈ seen_links st <->
        l <> [] /\ exists src e, In (src, e) done
                                 /\ is_candidate LOOKBACK_HOURS now e = true
                                 /\ e_link e = l)
  /\ (forall a, In a (articles st) ->
                link (a_item a) <> [] -> link (a_item a) ∈ seen_links st).

End RankingVocabulary.

(** Scores go down along the list. *)
Definition descending (l : list Article) : Prop :=
  StronglySorted (fun a b => (score b <= score a)%Q) l.

(** The articles of score [s]. *)
Definition with_score (s : Q) (l : list Article) : list Article :=
  List.filter (fun a => Qeq_bool (score a) s) l.

(** The characters of a text that are not blanks, in order. *)
Definition visible (s : Py.str) : Py.str :=
  List.filter (fun c => negb (Py.isspace c)) s.

(** The stripped, non-empty pieces of a list of parts. *)
Definition solid_parts (parts : list Py.str) : list Py.str :=
  List.filter (fun p => negb (bool_decide (p = []))) (List.map Py.strip parts).

(** The non-empty paragraphs of a text, as [chunk_text] reads them: the
    pieces between blank lines of the stripped text, each stripped, the
    empty ones left out. *)
Definition paragraphs (text : Py.str) : list Py.str :=
  solid_parts (Py.split_blank (Py.strip text)).

Definition chunk_ok (max_len : Z) (c : Py.str) : Prop := Py.len c <= max_len.

(** A text that [strip] leaves as it is. *)
Definition tight (s : Py.str) : Prop := Py.lstrip s = s /\ Py.rstrip s = s.

(** Paragraphs as the loop accepts them: not empty and stripped. *)
Definition solid (p : Py.str) : Prop := p <> [] /\ tight p.

(** The state of the paragraph loop when no paragraph is too long: the
    chunks are groups of whole paragraphs, the buffer is the group being
    filled. *)
Definition grouped (chunks : list Py.str) (buf : Py.str) (seen : list Py.str) : Prop :=
  exists (groups : list (list Py.str)) (g : list Py.str),
    chunks = List.map Py.join_blank groups
    /\ buf = Py.join_blank g
    /\ Forall (fun g' => g' <> []) groups
    /\ concat groups ++ g = seen
    /\ Forall solid seen.

(** What a piece of the chunker is: a whole paragraph, a slice of full
    length cut from the front of a paragraph that is too long, or the rest
    of such a paragraph. *)
Inductive PieceKind := WHOLE | SLICE | REST.

(** The pieces the chunker makes of a stripped paragraph: the paragraph
    itself when it is not longer than [max_len], else the slices cut by
    the [while] loop followed by what that loop leaves in [p]. *)
Definition cut_paragraph (max_len : Z) (p : Py.str) : list (PieceKind * Py.str) :=
  match hard_split (S (length p)) max_len p with
  | Some (cs, r) =>
      List.map (fun c => (SLICE, c)) cs
      ++ [(match cs with [] => WHOLE | _ :: _ => REST end, r)]
  | None => [(WHOLE, p)]
  end.

(** The chunk made of a run of pieces: a single piece as it is; several
    pieces joined by blank lines, the first without its leading blanks. *)
Definition chunk_of (g : list Py.str) : Py.str :=
  match g with
  | [] => []
  | [x] => x
  | x :: ps => Py.join_blank (Py.lstrip x :: ps)
  end.

(** A run of pieces that makes a chunk: it is not empty, after its first
    piece come whole paragraphs only, and a slice stands alone. *)
Definition run_shape (g : list (PieceKind * Py.str)) : Prop :=
  match g with
  | [] => False
  | (k, _) :: ps => Forall (fun q => fst q = WHOLE) ps /\ (k = SLICE -> ps = [])
  end.

(** The run that is being filled: it does not begin with a slice, and
    after its first piece come whole paragraphs only. *)
Definition open_run (g : list (PieceKind * Py.str)) : Prop :=
  match g with
  | [] => True
  | (k, _) :: ps => k <> SLICE /\ Forall (fun q => fst q = WHOLE) ps
  end.

(** A text that is not empty and does not end in a blank. *)
Definition ends_visible (x : Py.str) : Prop := x <> [] /\ Py.rstrip x = x.

(** The texts of a run that is being filled. *)
Definition run_ok (g : list Py.str) : Prop :=
  match g with
  | [] => True
  | x :: ps => ends_visible x /\ Forall solid ps
  end.

(** The state of the paragraph loop in general: the chunks are runs of
    pieces of the paragraphs seen, the buffer is the run being filled. *)
Definition pieced (max_len : Z) (chunks : list Py.str) (buf : Py.str)
           (seen : list Py.str) : Prop :=
  exists (runs : list (list (PieceKind * Py.str))) (g : list (PieceKind * Py.str)),
    chunks = List.map (fun g' => chunk_of (List.map snd g')) runs
    /\ buf = chunk_of (List.map snd g)
    /\ Forall run_shape runs
    /\ open_run g
    /\ run_ok (List.map snd g)
    /\ concat runs ++ g = flat_map (cut_paragraph max_len) seen
    /\ Forall solid seen.

(* ================================================================== *)
(** ** Data of the examples *)
(* ================================================================== *)

(** A measurement: every character is one unit wide. *)
Definition unit_width (s : Py.str) : Q := inject_Z (Py.len s).

(** A similarity: 1 for equal strings and 0 otherwise, which is the ratio
    of [difflib] on equal strings and on strings with no character in
    common. *)
Definition same_ratio (a b : Py.str) : Q := if bool_decide (a = b) then 1 else 0.

(** [ch.isalnum()] on ASCII. *)
Definition ascii_isalnum (c : N) : bool :=
  ((48 <=? c) && (c <=? 57) || (65 <=? c) && (c <=? 90) || (97 <=? c) && (c <=? 122))%N.

(** The tallest and the shortest card the script can draw with
    [MAX_URL_LINES = 2]. *)
Definition tall_card : Layout.CardLines := Layout.mkCard 2 3 true true 2.
Definition short_card : Layout.CardLines := Layout.mkCard 1 0 false false 0.

(** Seven articles of one section, as the loop meets them. *)
Definition seven_blocks : list (Category * Layout.CardLines) :=
  [ (OTHER, tall_card); (OTHER, short_card); (OTHER, tall_card); (OTHER, tall_card);
    (OTHER, tall_card); (OTHER, tall_card); (OTHER, tall_card) ].

(** Entries of one feed: the second repeats the title of the first under
    another link, the third brings a new title under the link of the
    second, the fourth is new in both. *)
Definition entry_first : Entry :=
  mkEntry (Some 0) (Py.lit "Acme breach") (Py.lit "https://example.org/1") (Py.lit "One").
Definition entry_same_title : Entry :=
  mkEntry (Some 0) (Py.lit "Acme breach") (Py.lit "https://example.org/2") (Py.lit "Two").
Definition entry_same_link : Entry :=
  mkEntry (Some 0) (Py.lit "Other news") (Py.lit "https://example.org/2") (Py.lit "Three").
Definition entry_third : Entry :=
  mkEntry (Some 0) (Py.lit "Patch day") (Py.lit "https://example.org/3") (Py.lit "Three").

Definition one_feed (entries : list Entry) : list (Py.str * option (list Entry)) :=
  [(Py.lit "Dark Reading", Some entries)].

(** Two articles that differ in their date only, an hour apart. *)
Definition fresh_item : Item :=
  mkItem (Py.lit "Zero-day in Widget X") (Py.lit "Actively exploited.")
         (Py.lit "SecurityWeek") 3600000000 (Py.lit "https://example.org/w").
Definition older_item : Item :=
  mkItem (Py.lit "Zero-day in Widget X") (Py.lit "Actively exploited.")
         (Py.lit "SecurityWeek") 0 (Py.lit "https://example.org/w").

Definition digest_with_long_paragraph : Py.str :=
  Py.lit "abcde f" ++ [Py.NEWLINE; Py.NEWLINE] ++ Py.lit "q".

Definition digest_two_paragraphs : Py.str :=
  Py.lit "abc de" ++ [Py.NEWLINE; Py.NEWLINE] ++ Py.lit "fgh".

(* ================================================================== *)
(** * The rest of the script *)
(* ================================================================== *)

(* ================================================================== *)
(** ** Utilities: [normalize_space] and [canonical_link] *)
(* ================================================================== *)

(** [re.sub(r"\s+", " ", s)]: every maximal run of blanks becomes one
    space.  [in_run] is set while a run is being passed over. *)
Fixpoint collapse_space (in_run : bool) (s : Py.str) : Py.str :=
  match s with
  | [] => []
  | c :: t =>
      if Py.isspace c
      then (if in_run then collapse_space true t else Py.SPACE :: collapse_space true t)
      else c :: collapse_space false t
  end.

(** [normalize_space(s)] *)
Definition normalize_space (s : Py.str) : Py.str :=
  Py.strip (collapse_space false s).

Definition HASH : N := 35.
Definition QMARK : N := 63.
Definition AMP : N := 38.
Definition EQUALS : N := 61.

(** What [.*$] leaves of the text [t] that follows a [#]: nothing when [t]
    has no newline, the last newline when that is the only one and ends
    [t]; no match otherwise. *)
Fixpoint to_line_end (t : Py.str) : option Py.str :=
  match t with
  | [] => Some []
  | c :: t' =>
      if (c =? Py.NEWLINE)%N
      then (match t' with [] => Some [Py.NEWLINE] | _ :: _ => None end)
      else to_line_end t'
  end.

(** [re.sub(r"#.*$", "", link)] *)
Fixpoint drop_fragment (s : Py.str) : Py.str :=
  match s with
  | [] => []
  | c :: t =>
      if (c =? HASH)%N
      then (match to_line_end t with
            | Some rest => rest
            | None => c :: drop_fragment t
            end)
      else c :: drop_fragment t
  end.

(** The length of the longest prefix of [s] whose characters pass [ok]:
    what a greedy character class with [+] takes. *)
Fixpoint span_len (ok : N -> bool) (s : Py.str) : nat :=
  match s with
  | [] => 0
  | c :: t => if ok c then S (span_len ok t) else 0
  end.

Definition is_param_start (c : N) : bool := (c =? QMARK)%N || (c =? AMP)%N.

(** The length of the match of [[?&]utm_[^=&]+=[^&]+] at the head of [s],
    if there is one. *)
Definition match_utm (s : Py.str) : option nat :=
  match s with
  | [] => None
  | c :: t =>
      if is_param_start c && Py.startswith (Py.lit "utm_") t then
        let t1 := skipn 4 t in
        let n1 := span_len (fun c => negb ((c =? EQUALS)%N || (c =? AMP)%N)) t1 in
        match n1, skipn n1 t1 with
        | S _, e :: t2 =>
            if (e =? EQUALS)%N then
              match span_len (fun c => negb (c =? AMP)%N) t2 with
              | S n2 => Some (1 + 4 + n1 + 1 + S n2)%nat
              | O => None
              end
            else None
        | _, _ => None
        end
      else None
  end.

(** The length of the match of [[?&]ref=[^&]+] at the head of [s], if there
    is one. *)
Definition match_ref (s : Py.str) : option nat :=
  match s with
  | [] => None
  | c :: t =>
      if is_param_start c && Py.startswith (Py.lit "ref=") t then
        match span_len (fun c => negb (c =? AMP)%N) (skipn 4 t) with
        | S n => Some (1 + 4 + S n)%nat
        | O => None
        end
      else None
  end.

(** [re.sub(pattern, "", s)] for a pattern whose match at a position is
    given by [m]: the matches are found left to right and do not overlap.
    [skip] counts the characters of the current match still to pass. *)
Fixpoint delete_matches (m : Py.str -> option nat) (skip : nat) (s : Py.str) : Py.str :=
  match s with
  | [] => []
  | c :: t =>
      match skip with
      | S k => delete_matches m k t
      | O =>
          match m s with
          | Some (S k) => delete_matches m k t
          | _ => c :: delete_matches m O t
          end
      end
  end.

(** [re.sub(r"\?$", "", link)]: a question mark at the very end, or before
    a newline that ends the string. *)
Fixpoint drop_bare_qmark (s : Py.str) : Py.str :=
  match s with
  | [] => []
  | c :: t =>
      if (c =? QMARK)%N
         && (match t with
             | [] => true
             | [d] => (d =? Py.NEWLINE)%N
             | _ => false
             end)
      then t
      else c :: drop_bare_qmark t
  end.

(** [canonical_link(link)] *)
Definition canonical_link (link : Py.str) : Py.str :=
  let link := Py.strip link in
  let link := drop_fragment link in
  let link := delete_matches match_utm 0 link in
  let link := delete_matches match_ref 0 link in
  drop_bare_qmark link.

(** The entry the loop of [collect_and_rank] reads from the raw fields of
    a feed entry: the parsed date, [entry.title], [entry.link] and the
    extracted summary. *)
Definition read_entry (parsed : option Z) (raw_title raw_link : Py.str)
           (extracted_summary : Py.str) : Entry :=
  mkEntry parsed (normalize_space raw_title) (canonical_link raw_link) extracted_summary.

(** A piece of a URL without blanks and without [#], [?] and [&]. *)
Definition plain_url_part (s : Py.str) : Prop :=
  Forall (fun c => Py.isspace c = false /\ c <> HASH /\ is_param_start c = false) s.

(** All characters of [s] are word characters of the regex class [\w]. *)
Definition one_word (isalnum : N -> bool) (s : Py.str) : Prop :=
  Forall (fun c => is_word isalnum (Some c) = true) s.

(* ================================================================== *)
(** ** [risk_bar] and [scoring_signals] *)
(* ================================================================== *)

(** [max(a, b)] and [min(a, b)] on floats read as rationals. *)
Definition py_max (a b : Q) : Q := if Qle_bool b a then a else b.
Definition py_min (a b : Q) : Q := if Qle_bool a b then a else b.

(** [round(x)]: the nearest integer, ties to the even one. *)
Definition round_half_even_Q (x : Q) : Z :=
  let f := Qfloor x in
  let d := (x - inject_Z f)%Q in
  if negb (Qle_bool (1 # 2) d) then f
  else if negb (Qle_bool d (1 # 2)) then f + 1
  else if Z.even f then f else f + 1.

(** U+25A0 and U+25A1, the filled and the hollow square. *)
Definition FILLED : N := 9632.
Definition HOLLOW : N := 9633.

(** The [level] of [risk_bar(score)]. *)
Definition risk_level (score : Q) : Z :=
  let level := round_half_even_Q (py_max 0 (py_min 100 score) / 25) in
  Z.max 1 (Z.min 4 level).

(** [risk_bar(score)] *)
Definition risk_bar (score : Q) : Py.str :=
  let level := risk_level score in
  repeat FILLED (Z.to_nat level) ++ repeat HOLLOW (Z.to_nat (4 - level)).

(** [card_fill_for_score(score)]: [true] stands for [BLUE_075], [false]
    for [BLUE_050]. *)
Definition card_fill_for_score (score : Q) : bool := Qle_bool 70 score.

(** The loop [for h in hits: if h not in uniq: uniq.append(h)]. *)
Definition uniq_step (uniq : list Py.str) (h : Py.str) : list Py.str :=
  if bool_decide (h ∈ uniq) then uniq else uniq ++ [h].

Section Signals.

Variable lower : Py.str -> Py.str.
Variable isalnum : N -> bool.

(** The loop [for keyword in KEYWORD_WEIGHTS] of [scoring_signals]. *)
Fixpoint keyword_hits (text : Py.str) (kw : list (Py.str * Z)) : list Py.str :=
  match kw with
  | [] => []
  | (keyword, _) :: kw' =>
      if token_present lower isalnum text keyword
      then (if bool_decide (keyword = Py.lit "zero day") then Py.lit "zero-day" else keyword)
             :: keyword_hits text kw'
      else keyword_hits text kw'
  end.

(** [scoring_signals(article)], evaluated at time [now]; the age in hours
    is a rational. *)
Definition scoring_signals (now : Z) (it : Item) : list Py.str :=
  let text := lower (title it ++ [Py.SPACE] ++ summary it) in
  let hits := keyword_hits text KEYWORD_WEIGHTS in
  let uniq := fold_left uniq_step hits [] in
  let signals := Py.slice_to uniq 4 in
  let signals :=
    if 20 <=? dict_get SOURCE_WEIGHTS (source it) 10
    then signals ++ [Py.lit "trusted source"] else signals in
  let hours_old := (inject_Z (now - published it) / 3600000000)%Q in
  if Qle_bool hours_old 6 then signals ++ [Py.lit "breaking"]
  else if Qle_bool hours_old 12 then signals ++ [Py.lit "recent"]
  else signals.

End Signals.

(** The labels a keyword of the table can contribute to the signals. *)
Definition keyword_labels : list Py.str :=
  List.map (fun kv => if bool_decide (fst kv = Py.lit "zero day")
                      then Py.lit "zero-day" else fst kv)
    KEYWORD_WEIGHTS.

(** The non-empty links of a list of articles, in order. *)
Definition accepted_links (arts : list Article) : list Py.str :=
  List.filter (fun l => negb (bool_decide (l = [])))
    (List.map (fun a => link (a_item a)) arts).

(** A feed that [feedparser.parse] could read. *)
Definition feed_parsed (feed : Py.str * option (list Entry)) : bool :=
  match snd feed with
  | Some _ => true
  | None => false
  end.

Section AcceptedVocabulary.

Variable lower : Py.str -> Py.str.
Variable ratio : Py.str -> Py.str -> Q.
Variable safe_text : Py.str -> Py.str.
Variable score_of : Item -> Q.
Variables (LOOKBACK_HOURS : Z) (DUPLICATE_THRESHOLD : Q).
Variable now : Z.

(** What holds of the accepted articles after the entries [done]. *)
Definition accepted_ok (done : list (Py.str * Entry)) (st : RankState) : Prop :=
  NoDup (accepted_links (articles st))
  /\ (forall l, l ∈ accepted_links (articles st) -> l ∈ seen_links st)
  /\ (forall pre t post,
        seen_titles st = pre ++ t :: post ->
        is_duplicate_title lower ratio t pre DUPLICATE_THRESHOLD = false)
  /\ (forall a, In a (articles st) ->
        exists src e p,
          In (src, e) done /\ e_published e = Some p
          /\ cutoff LOOKBACK_HOURS now <= p /\ e_title e <> []
          /\ a = make_article safe_text score_of src e p).

End AcceptedVocabulary.

(** The loop state of [wrap_url_smart] on a URL without break characters:
    no break position, a current line that fits unless it is empty, and
    lines that fit and are not empty. *)
Definition wrap_plain_ok (stringWidth : Py.str -> Q) (max_width : Q)
           (st : WrapState) : Prop :=
  w_last_break_pos st = -1
  /\ (w_cur st = [] \/ fits stringWidth max_width (w_cur st) = true)
  /\ Forall (fun l => fits stringWidth max_width l = true /\ l <> []) (w_lines st).

(** The cursor is well formed: two columns, and an active column that is
    one of them. *)
Definition layout_wf (st : Layout.State) : Prop :=
  length (Layout.col_y st) = 2%nat /\ (Layout.current_col st < 2)%nat.

(** Both column cursors are at or above the bottom margin. *)
Definition above_margin (st : Layout.State) : Prop :=
  layout_wf st
  /\ (Layout.bottom <= Layout.y_at st 0)%Q
  /\ (Layout.bottom <= Layout.y_at st 1)%Q.

(** A card with its gap is not taller than the room [ensure_room] is
    asked for before it is drawn. *)
Definition card_within_need (c : Layout.CardLines) : Prop :=
  (Layout.card_h c + (16 # 100) * Layout.inch <= (175 # 100) * Layout.inch)%Q.

(* ================================================================== *)
(** ** The sidebar pulse and [pdf_public_url] *)
(* ================================================================== *)

(** The position of a section in [sections_order]. *)
Definition section_rank (c : Category) : nat :=
  match c with
  | ZERO_DAYS => 0
  | RANSOMWARE => 1
  | BREACHES => 2
  | PHISHING => 3
  | OTHER => 4
  end.

(** [pulse[classify(it)] += 1] in [draw_sidebar]; the dict has the five
    sections as its keys. *)
Definition pulse_step (classify_item : Item -> Category)
           (pulse : Category -> nat) (a : Article) : Category -> nat :=
  fun k =>
    if Layout.category_eqb k (classify_item (a_item a)) then S (pulse k) else pulse k.

(** The threat pulse of the sidebar: the counter of each section after the
    loop over the items. *)
Definition threat_pulse (classify_item : Item -> Category) (items : list Article)
  : Category -> nat :=
  fold_left (pulse_step classify_item) items (fun _ => 0%nat).

Definition SLASH : N := 47.

(** [s.lstrip("/")] *)
Fixpoint lstrip_slash (s : Py.str) : Py.str :=
  match s with
  | [] => []
  | c :: t => if N.eqb c SLASH then lstrip_slash t else s
  end.

(** [s.rstrip("/")] *)
Definition rstrip_slash (s : Py.str) : Py.str := rev (lstrip_slash (rev s)).

(** [s.strip("/")] *)
Definition strip_slash (s : Py.str) : Py.str := rstrip_slash (lstrip_slash s).

(** The characters of [s] before its first slash. *)
Fixpoint until_slash (s : Py.str) : Py.str :=
  match s with
  | [] => []
  | c :: t => if N.eqb c SLASH then [] else c :: until_slash t
  end.

(** [os.path.basename(p)] on POSIX: [p[p.rfind("/") + 1:]]. *)
Definition basename (p : Py.str) : Py.str := rev (until_slash (rev p)).

(** [pdf_public_url(filename)]; [None] is the [RuntimeError].
    [PUBLIC_BASE_URL] is [None] when the variable is not set. *)
Definition pdf_public_url (PUBLIC_BASE_URL : option Py.str)
           (PUBLIC_PATH_PREFIX filename : Py.str) : option Py.str :=
  match PUBLIC_BASE_URL with
  | None | Some [] => None
  | Some base =>
      let filename := basename filename in
      match strip_slash PUBLIC_PATH_PREFIX with
      | [] => Some (rstrip_slash base ++ [SLASH] ++ filename)
      | prefix => Some (rstrip_slash base ++ [SLASH] ++ prefix ++ [SLASH] ++ filename)
      end
  end.

(** No slash in [s]. *)
Definition slash_free (s : Py.str) : Prop := Forall (fun c => c <> SLASH) s.

(* ================================================================== *)
(** * Properties *)
(* ================================================================== *)

(* ================================================================== *)
(** ** Facts about Python strings *)
(* ================================================================== *)

Lemma len_nonneg {A} (s : list A) : 0 <= Py.len s.
Proof. unfold Py.len. lia. Qed.

Lemma len_app {A} (s t : list A) : Py.len (s ++ t) = Py.len s + Py.len t.
Proof. unfold Py.len. rewrite length_app. lia. Qed.

Lemma lstrip_nonspace s : nonspace s -> Py.lstrip s = s.
Proof. intros H. destruct H as [|c t Hc Ht]; simpl; [reflexivity|now rewrite Hc]. Qed.

Lemma rstrip_nonspace s : nonspace s -> Py.rstrip s = s.
Proof.
  induction 1 as [|c t Hc Ht IH]; simpl; [reflexivity|].
  rewrite IH, Hc. now destruct t.
Qed.

Lemma strip_nonspace s : nonspace s -> Py.strip s = s.
Proof.
  intros H. unfold Py.strip. rewrite (lstrip_nonspace s H). now apply rstrip_nonspace.
Qed.

Lemma lstrip_allspace s : allspace s -> Py.lstrip s = [].
Proof. induction 1 as [|c t Hc Ht IH]; simpl; [reflexivity|now rewrite Hc]. Qed.

Lemma strip_allspace s : allspace s -> Py.strip s = [].
Proof. intros H. unfold Py.strip. now rewrite (lstrip_allspace s H). Qed.

Lemma rstrip_length s : (length (Py.rstrip s) <= length s)%nat.
Proof.
  induction s as [|c t IH]; simpl; [lia|].
  destruct (Py.rstrip t) as [|d r]; [destruct (Py.isspace c)|]; simpl in *; lia.
Qed.

Lemma lstrip_length s : (length (Py.lstrip s) <= length s)%nat.
Proof.
  induction s as [|c t IH]; simpl; [lia|].
  destruct (Py.isspace c); simpl; lia.
Qed.

Lemma strip_length s : (length (Py.strip s) <= length s)%nat.
Proof.
  unfold Py.strip. pose proof (rstrip_length (Py.lstrip s)). pose proof (lstrip_length s). lia.
Qed.

Lemma nonspace_app s t : nonspace (s ++ t) <-> nonspace s /\ nonspace t.
Proof. apply Forall_app. Qed.

Lemma nonspace_firstn n s : nonspace s -> nonspace (firstn n s).
Proof. intros H. rewrite <- (firstn_skipn n s) in H. now apply nonspace_app in H. Qed.

Lemma nonspace_skipn n s : nonspace s -> nonspace (skipn n s).
Proof. intros H. rewrite <- (firstn_skipn n s) in H. now apply nonspace_app in H. Qed.

(** A positive slice point cuts a list in two. *)
Lemma slice_to_from {A} (s : list A) (k : Z) : Py.slice_to s k ++ Py.slice_from s k = s.
Proof.
  unfold Py.slice_to, Py.slice_from. destruct (0 <=? k); apply firstn_skipn.
Qed.

Lemma nonspace_slice_to s k : nonspace s -> nonspace (Py.slice_to s k).
Proof. intros H. rewrite <- (slice_to_from s k) in H. now apply nonspace_app in H. Qed.

Lemma nonspace_slice_from s k : nonspace s -> nonspace (Py.slice_from s k).
Proof. intros H. rewrite <- (slice_to_from s k) in H. now apply nonspace_app in H. Qed.

Lemma has_char_true c s : Py.has_char c s = true <-> In c s.
Proof.
  unfold Py.has_char. rewrite existsb_exists. split.
  - intros [x [Hx He]]. apply N.eqb_eq in He. now subst.
  - intros H. exists c. split; [assumption|apply N.eqb_refl].
Qed.

Lemma has_char_false c s : Py.has_char c s = false <-> ~ In c s.
Proof.
  rewrite <- has_char_true. destruct (Py.has_char c s); split; intros; congruence.
Qed.

Lemma rsplit1_space_none s :
  Py.rsplit1_space s = None -> Py.has_char Py.SPACE s = false.
Proof.
  intros H. apply has_char_false. induction s as [|c t IH]; [now intros []|].
  simpl in H. destruct (Py.rsplit1_space t) as [[? ?]|]; [discriminate|].
  destruct (N.eqb_spec c Py.SPACE) as [->|Hd]; [discriminate|].
  intros [Hc|Hin]; [congruence|now apply IH].
Qed.

(** [rsplit] cuts at the last space. *)
Lemma rsplit1_space_some s l r :
  Py.rsplit1_space s = Some (l, r) ->
  s = l ++ [Py.SPACE] ++ r /\ Py.has_char Py.SPACE r = false.
Proof.
  revert l r. induction s as [|c t IH]; intros l r; simpl; [discriminate|].
  destruct (Py.rsplit1_space t) as [[l' r']|] eqn:E.
  - intros [= <- <-]. destruct (IH l' r' eq_refl) as [-> Hr]. now split.
  - destruct (N.eqb_spec c Py.SPACE) as [->|Hne]; [|discriminate].
    intros [= <- <-]. split; [reflexivity|now apply rsplit1_space_none].
Qed.

Lemma rsplit1_space_found s :
  Py.has_char Py.SPACE s = true -> exists l r, Py.rsplit1_space s = Some (l, r).
Proof.
  intros H. destruct (Py.rsplit1_space s) as [[l r]|] eqn:E; [now exists l, r|].
  apply rsplit1_space_none in E. congruence.
Qed.

(* ================================================================== *)
(** ** [shorten] *)
(* ================================================================== *)

Lemma slice_to_length {A} (s : list A) (k : Z) :
  0 <= k -> Py.len (Py.slice_to s k) = Z.min k (Py.len s).
Proof.
  intros Hk. unfold Py.slice_to, Py.len.
  destruct (Z.leb_spec 0 k); [|lia]. rewrite length_firstn. lia.
Qed.

(** C3, against the code: a text without a space in its first
    [max_chars + 1] characters comes back [max_chars + 2] long, and a text
    that fits but has blanks around it comes back stripped. *)
Lemma shorten_exceeds_budget :
  shorten (Py.lit "abcdef") 3 = Py.lit "abcd" ++ [Py.ELLIPSIS]
  /\ ~ (Py.len (shorten (Py.lit "abcdef") 3) <= 3 + 1)
  /\ Py.len (Py.lit " a ") <= 3
  /\ shorten (Py.lit " a ") 3 <> Py.lit " a ".
Proof.
  split; [reflexivity|]. split; [vm_compute; intros H; now apply H|].
  split; [vm_compute; discriminate|]. vm_compute. discriminate.
Qed.

(** C3, as the code has it: [shorten] works on the stripped text [s].  If
    [s] is at most [max_chars] long it is the result.  Otherwise the result
    is a kept part, right-stripped, and one ellipsis, where the kept part is
    the first [max_chars + 1] characters of [s], or what stands before
    their last space when they have one; in that second case the result is
    at most [max_chars + 1] long. *)
Theorem shorten_spec (text : Py.str) (max_chars : Z) :
  0 <= max_chars ->
  let s := Py.strip text in
  let cut := Py.slice_to s (max_chars + 1) in
  (Py.len s <= max_chars -> shorten text max_chars = s)
  /\ (max_chars < Py.len s ->
      exists kept,
        shorten text max_chars = Py.rstrip kept ++ [Py.ELLIPSIS]
        /\ Py.len cut = max_chars + 1
        /\ ((Py.has_char Py.SPACE cut = false /\ kept = cut)
            \/ (exists r, cut = kept ++ [Py.SPACE] ++ r
                          /\ Py.has_char Py.SPACE r = false)))
  /\ (Py.has_char Py.SPACE cut = true ->
      Py.len (shorten text max_chars) <= max_chars + 1).
Proof.
  intros Hm s cut.
  assert (Hcut : max_chars < Py.len s -> Py.len cut = max_chars + 1).
  { intros Hlt. unfold cut. rewrite slice_to_length by lia. lia. }
  assert (Hcut' : Py.len cut <= max_chars + 1).
  { unfold cut. rewrite slice_to_length by lia. lia. }
  unfold shorten. fold s. fold cut.
  destruct (Z.leb_spec (Py.len s) max_chars) as [Hle|Hgt].
  - repeat split; intros; try lia; try reflexivity.
  - split; [intros; lia|].
    destruct (Py.has_char Py.SPACE cut) eqn:Hsp.
    + destruct (rsplit1_space_found cut Hsp) as (l & r & Hlr).
      destruct (rsplit1_space_some cut l r Hlr) as [Hc Hr].
      assert (Hl : Py.len l <= max_chars).
      { rewrite Hc, !len_app in Hcut'. pose proof (len_nonneg r).
        unfold Py.len in *. simpl in *. lia. }
      assert (Hres : Py.len (Py.rstrip (Py.rsplit1_space_head cut) ++ [Py.ELLIPSIS])
                     <= max_chars + 1).
      { unfold Py.rsplit1_space_head. rewrite Hlr, len_app.
        pose proof (rstrip_length l). unfold Py.len in *. simpl. lia. }
      split; [|intros _; exact Hres].
      intros _. exists l. unfold Py.rsplit1_space_head. rewrite Hlr.
      split; [reflexivity|]. split; [now apply Hcut|].
      right. exists r. now split.
    + split; [|discriminate].
      intros _. exists cut. split; [reflexivity|]. split; [now apply Hcut|].
      left. now split.
Qed.

Lemma shorten_spec_witness :
  0 <= 3 /\ Py.len (shorten (Py.lit "abc def") 3) <= 3 + 1.
Proof.
  split; [lia|].
  exact (proj2 (proj2 (shorten_spec (Py.lit "abc def") 3 ltac:(lia))) eq_refl).
Defined.

(* ================================================================== *)
(** ** [prefix_parts] *)
(* ================================================================== *)

Example part_marker_12_345 :
  part_marker 12 345 = Py.lit "(12/345)" ++ [Py.NEWLINE].
Proof. reflexivity. Qed.

(** C4, against the code: with two chunks the first one is sent with the
    marker [(1/2)] in front. *)
Lemma prefix_parts_marks_first :
  prefix_parts [Py.lit "a"; Py.lit "b"]
  = [Py.lit "(1/2)" ++ [Py.NEWLINE] ++ Py.lit "a";
     Py.lit "(2/2)" ++ [Py.NEWLINE] ++ Py.lit "b"]
  /\ prefix_parts [Py.lit "a"; Py.lit "b"] !! 0%nat <> Some (Py.lit "a").
Proof. split; [reflexivity|]. vm_compute. discriminate. Qed.

(** C4, as the code has it: a list of at most one chunk is returned as it
    is; in a list of two or more chunks every chunk, the first included,
    gets the marker of its one-based position in front. *)
Theorem prefix_parts_spec (chunks : list Py.str) :
  ((length chunks <= 1)%nat -> prefix_parts chunks = chunks)
  /\ ((2 <= length chunks)%nat ->
      length (prefix_parts chunks) = length chunks
      /\ forall (i : nat) (c : Py.str),
           chunks !! i = Some c ->
           prefix_parts chunks !! i
           = Some (part_marker (S i) (length chunks) ++ c)).
Proof.
  unfold prefix_parts, Py.len. split; intros H.
  - destruct (Z.leb_spec (Z.of_nat (length chunks)) 1); [reflexivity|lia].
  - destruct (Z.leb_spec (Z.of_nat (length chunks)) 1); [lia|].
    split; [apply length_imap|].
    intros i c Hi. rewrite list_lookup_imap. rewrite Hi. reflexivity.
Qed.

Lemma prefix_parts_spec_witness :
  prefix_parts [Py.lit "x"; Py.lit "y"; Py.lit "z"] !! 1%nat
  = Some (Py.lit "(2/3)" ++ [Py.NEWLINE] ++ Py.lit "y").
Proof.
  exact (proj2 (proj2 (prefix_parts_spec [Py.lit "x"; Py.lit "y"; Py.lit "z"])
                  ltac:(simpl; lia)) 1%nat (Py.lit "y") eq_refl).
Defined.

(* ================================================================== *)
(** ** [classify] *)
(* ================================================================== *)

Lemma startswith_spec p s :
  Py.startswith p s = true <-> exists post, s = p ++ post.
Proof.
  revert s. induction p as [|a p IH]; intros s; simpl.
  - split; [intros _; now exists s|reflexivity].
  - destruct s as [|b s].
    + split; [discriminate|intros [post H]; discriminate].
    + rewrite andb_true_iff, N.eqb_eq, IH. split.
      * intros [-> [post ->]]. now exists post.
      * intros [post [= -> ->]]. split; [reflexivity|now exists post].
Qed.

Lemma contains_spec t s : Py.contains t s = true <-> occurs_in t s.
Proof.
  unfold occurs_in. induction s as [|c s IH].
  - simpl. rewrite orb_false_r, startswith_spec. split.
    + intros [post H]. now exists [], post.
    + intros (pre & post & H). destruct pre; [now exists post|discriminate].
  - cbn [Py.contains]. rewrite orb_true_iff, startswith_spec, IH. split.
    + intros [[post H]|(pre & post & H)].
      * now exists [], post.
      * exists (c :: pre), post. now rewrite H.
    + intros (pre & post & H). destruct pre as [|d pre].
      * left. now exists post.
      * right. injection H as -> ->. now exists pre, post.
Qed.

Lemma contains_false t s : Py.contains t s = false <-> ~ occurs_in t s.
Proof.
  rewrite <- contains_spec. destruct (Py.contains t s); split; intros; congruence.
Qed.

(** Turns the outcome of a decided test into the fact it stands for. *)
Ltac settle_tests :=
  repeat match goal with
    | H : true = true <-> ?P |- _ =>
        let Hp := fresh "Hyes" in
        assert (Hp : P) by (apply H; reflexivity); clear H
    | H : false = true <-> ?P |- _ =>
        let Hn := fresh "Hno" in
        assert (Hn : ~ P) by (intros Hx; apply H in Hx; discriminate); clear H
    end.

Lemma zero_day_family_dec text :
  Py.contains (Py.lit "zero-day") text || Py.contains (Py.lit "zero day") text
  || Py.contains (Py.lit "0day") text || Py.contains (Py.lit "actively exploited") text
  = true <-> zero_day_family text.
Proof.
  unfold zero_day_family. rewrite !orb_true_iff, !contains_spec. tauto.
Qed.

Lemma breach_terms_dec text :
  Py.contains (Py.lit "breach") text || Py.contains (Py.lit "data breach") text = true
  <-> breach_terms text.
Proof. unfold breach_terms. rewrite orb_true_iff, !contains_spec. tauto. Qed.

Section ClassifyFacts.

Variable lower : Py.str -> Py.str.

(** C9: the category is decided by the first test of the chain that the
    lower-cased text passes, the text being the title, a space and the
    summary; a text with "ransomware" and "breach" and no zero-day term is
    RANSOMWARE; the conditions of the five categories exclude each other
    and the category returned is the one whose condition holds, so every
    article has one category and only one. *)
Theorem classify_precedence (it : Item) :
  let text := lower (title it ++ [Py.SPACE] ++ summary it) in
  (classify lower it = ZERO_DAYS <-> zero_day_family text)
  /\ (classify lower it = RANSOMWARE <->
      ~ zero_day_family text /\ occurs_in (Py.lit "ransomware") text)
  /\ (classify lower it = BREACHES <->
      ~ zero_day_family text /\ ~ occurs_in (Py.lit "ransomware") text
      /\ breach_terms text)
  /\ (classify lower it = PHISHING <->
      ~ zero_day_family text /\ ~ occurs_in (Py.lit "ransomware") text
      /\ ~ breach_terms text /\ occurs_in (Py.lit "phishing") text)
  /\ (classify lower it = OTHER <->
      ~ zero_day_family text /\ ~ occurs_in (Py.lit "ransomware") text
      /\ ~ breach_terms text /\ ~ occurs_in (Py.lit "phishing") text)
  /\ (occurs_in (Py.lit "ransomware") text -> occurs_in (Py.lit "breach") text ->
      ~ zero_day_family text -> classify lower it = RANSOMWARE)
  /\ (exists c, (classify lower it = c /\ chain_condition c text)
                /\ forall c', chain_condition c' text -> c' = c).
Proof.
  intros text. unfold classify, item_text. fold text.
  pose proof (zero_day_family_dec text) as Hz.
  pose proof (breach_terms_dec text) as Hb.
  pose proof (contains_spec (Py.lit "ransomware") text) as Hr.
  pose proof (contains_spec (Py.lit "phishing") text) as Hp.
  destruct (Py.contains (Py.lit "zero-day") text || Py.contains (Py.lit "zero day") text
            || Py.contains (Py.lit "0day") text
            || Py.contains (Py.lit "actively exploited") text);
    destruct (Py.contains (Py.lit "ransomware") text);
    destruct (Py.contains (Py.lit "breach") text || Py.contains (Py.lit "data breach") text);
    destruct (Py.contains (Py.lit "phishing") text);
    settle_tests;
    (split; [|split; [|split; [|split; [|split; [|split]]]]]);
    try (split; intros; try discriminate; tauto);
    try (intros; first [reflexivity | tauto]);
    (eexists; split; [split; [reflexivity|simpl; tauto]|];
     intros [] Hc'; simpl in Hc'; first [reflexivity | tauto]).
Qed.

End ClassifyFacts.

Lemma classify_precedence_witness :
  classify ascii_lower
    (mkItem (Py.lit "Ransomware gang names hospital") (Py.lit "Data breach confirmed.")
            (Py.lit "Dark Reading") 0 (Py.lit "https://example.org/a"))
  = RANSOMWARE.
Proof.
  set (it := mkItem _ _ _ _ _).
  apply (proj1 (proj2 (proj2 (proj2 (proj2 (proj2 (classify_precedence ascii_lower it))))))).
  - apply contains_spec. vm_compute. reflexivity.
  - apply contains_spec. vm_compute. reflexivity.
  - intros H.
    apply (zero_day_family_dec (ascii_lower (title it ++ [Py.SPACE] ++ summary it))) in H.
    vm_compute in H. discriminate.
Defined.

(* ================================================================== *)
(** ** [wrap_url_smart] *)
(* ================================================================== *)

Section WrapFacts.

Variable stringWidth : Py.str -> Q.
Variable max_width : Q.

Local Abbreviation step := (wrap_step stringWidth max_width).

(** A round of the loop moves characters between [cur] and [lines] and
    loses none, as long as no blank is there for the strips to remove. *)
Lemma wrap_step_keeps (st : WrapState) (ch : N) :
  nonspace (w_cur st) -> Py.isspace ch = false ->
  concat (w_lines (step st ch)) ++ w_cur (step st ch)
  = concat (w_lines st) ++ w_cur st ++ [ch]
  /\ nonspace (w_cur (step st ch)).
Proof.
  intros Hcur Hch. unfold wrap_step.
  assert (Hch' : nonspace [ch]) by (repeat constructor; assumption).
  destruct (fits stringWidth max_width (w_cur st ++ [ch])); simpl.
  { split; [reflexivity|]. apply nonspace_app. now split. }
  set (k := if is_url_break ch then Py.len (w_cur st ++ [ch]) else w_last_break_pos st).
  destruct (0 <? k).
  - rewrite (rstrip_nonspace _ (nonspace_slice_to _ k Hcur)).
    pose proof (nonspace_slice_from _ k Hcur) as Hrest.
    rewrite (lstrip_nonspace _ Hrest).
    pose proof (slice_to_from (w_cur st) k) as Hcut.
    remember (Py.slice_to (w_cur st) k) as a eqn:Ea. clear Ea.
    destruct (Py.slice_from (w_cur st) k) as [|d rest]; simpl;
      rewrite concat_app; simpl; rewrite app_nil_r, <- Hcut, <- !app_assoc.
    + split; [reflexivity|assumption].
    + split; [reflexivity|]. apply (nonspace_app (d :: rest) [ch]). now split.
  - destruct (w_cur st) as [|c cur] eqn:E; simpl; rewrite concat_app; simpl.
    + split; [now rewrite !app_nil_r|constructor].
    + rewrite app_nil_r, <- app_assoc. now split.
Qed.

Lemma wrap_fold_keeps (url : Py.str) (st : WrapState) :
  nonspace (w_cur st) -> nonspace url ->
  concat (w_lines (fold_left step url st)) ++ w_cur (fold_left step url st)
  = concat (w_lines st) ++ w_cur st ++ url.
Proof.
  revert st. induction url as [|ch url IH]; intros st Hcur Hurl; simpl.
  - now rewrite app_nil_r.
  - inversion Hurl as [|? ? Hch Hrest]; subst.
    destruct (wrap_step_keeps st ch Hcur Hch) as [Heq Hns].
    rewrite (IH _ Hns Hrest), app_assoc, Heq, <- !app_assoc. reflexivity.
Qed.

(** C10: for a URL without blanks the lines, put end to end, are the URL,
    whatever the measurement function and the width; for an empty or
    all-blank URL there are no lines. *)
Theorem wrap_url_smart_lossless (url : Py.str) :
  (nonspace url -> concat (wrap_url_smart stringWidth max_width url) = url)
  /\ (allspace url -> wrap_url_smart stringWidth max_width url = []).
Proof.
  unfold wrap_url_smart. split; intros H.
  - rewrite (strip_nonspace url H). destruct url as [|c u] eqn:E; [reflexivity|].
    rewrite <- E in *.
    pose proof (wrap_fold_keeps url (mkWrap [] [] (-1)) ltac:(constructor) H) as Hk.
    simpl in Hk. destruct (w_cur (fold_left step url (mkWrap [] [] (-1)))).
    + now rewrite app_nil_r in Hk.
    + rewrite concat_app. simpl. now rewrite app_nil_r.
  - now rewrite (strip_allspace url H).
Qed.

End WrapFacts.

Lemma wrap_url_smart_lossless_witness :
  concat (wrap_url_smart unit_width 5 (Py.lit "http://a.bc/defghijk?x=1"))
  = Py.lit "http://a.bc/defghijk?x=1".
Proof.
  apply (proj1 (wrap_url_smart_lossless unit_width 5 (Py.lit "http://a.bc/defghijk?x=1"))).
  unfold nonspace. cbv [Py.lit List.map list_ascii_of_string].
  repeat (constructor; [reflexivity|]). constructor.
Defined.

Example wrap_url_smart_lines :
  wrap_url_smart unit_width 5 (Py.lit "http://a.bc/defghijk?x=1")
  = [Py.lit "http:"; Py.lit "//a."; Py.lit "bc/"; Py.lit "defgh"; Py.lit "ijk?x"; Py.lit "=1"].
Proof. vm_compute. reflexivity. Qed.

(* ================================================================== *)
(** ** [ellipsize_line_to_width] *)
(* ================================================================== *)

(** Stripping on the right commutes with taking a longer text: the
    stripped shorter text is a prefix of the stripped longer one. *)
Lemma rstrip_app_prefix (a b : Py.str) :
  exists q, Py.rstrip (a ++ b) = Py.rstrip a ++ q.
Proof.
  induction a as [|c a [q IH]]; simpl.
  - now exists (Py.rstrip b).
  - rewrite IH. destruct (Py.rstrip a) as [|d r]; simpl.
    + destruct q as [|e q]; destruct (Py.isspace c); simpl; eauto.
    + now exists q.
Qed.

Lemma slice_to_prefix {A} (s : list A) (m m' : Z) :
  0 <= m <= m' -> exists b, Py.slice_to s m' = Py.slice_to s m ++ b.
Proof.
  intros H. unfold Py.slice_to.
  destruct (Z.leb_spec 0 m); [|lia]. destruct (Z.leb_spec 0 m'); [|lia].
  exists (skipn (Z.to_nat m) (firstn (Z.to_nat m') s)).
  rewrite <- (firstn_skipn (Z.to_nat m) (firstn (Z.to_nat m') s)) at 1.
  f_equal. rewrite firstn_firstn. f_equal. lia.
Qed.

Section EllipsizeFacts.

Variable stringWidth : Py.str -> Q.
Variable max_width : Q.

(** What the search relies on: characters put in front of the ellipsis
    never make a string narrower.  A width that is a sum of glyph widths,
    none of them negative, is of this kind. *)
Hypothesis width_grows :
  forall p q : Py.str,
    (stringWidth (p ++ [Py.ELLIPSIS]) <= stringWidth (p ++ q ++ [Py.ELLIPSIS]))%Q.

Local Abbreviation fit := (fits stringWidth max_width).
Local Abbreviation found := (search_result stringWidth max_width).

Lemma fits_iff (s : Py.str) : fit s = true <-> (stringWidth s <= max_width)%Q.
Proof. apply Qle_bool_iff. Qed.

(** If a longer prefix fits with its ellipsis, so does a shorter one. *)
Lemma fits_antitone (text : Py.str) (m m' : Z) :
  0 <= m <= m' -> fit (ell_cand text m') = true -> fit (ell_cand text m) = true.
Proof.
  intros Hm. rewrite !fits_iff. unfold ell_cand.
  destruct (slice_to_prefix text m m' Hm) as [b ->].
  destruct (rstrip_app_prefix (Py.slice_to text m) b) as [q ->].
  intros H. eapply Qle_trans; [apply (width_grows _ q)|].
  now rewrite <- app_assoc in H.
Qed.

Lemma ellipsize_loop_spec (text : Py.str) (fuel : nat) :
  forall (lo hi : Z) (best : Py.str),
    0 <= lo -> hi <= Py.len text -> lo <= hi + 1 ->
    (Z.to_nat (hi - lo + 1) < fuel)%nat ->
    (forall m, 0 <= m < lo -> fit (ell_cand text m) = true) ->
    (forall m, hi < m <= Py.len text -> fit (ell_cand text m) = false) ->
    (lo = 0 /\ best = [] \/ 0 < lo /\ best = ell_cand text (lo - 1)) ->
    exists r, ellipsize_loop stringWidth max_width fuel text lo hi best = Some r
              /\ found text r.
Proof.
  induction fuel as [|fuel IH]; intros lo hi best Hlo Hhi Hlh Hfuel Hbelow Habove Hbest;
    [lia|].
  simpl. destruct (Z.leb_spec lo hi) as [Hle|Hgt].
  - set (mid := (lo + hi) / 2).
    assert (Hmid : lo <= mid <= hi) by (unfold mid; split;
      [apply Z.div_le_lower_bound|apply Z.div_le_upper_bound]; lia).
    destruct (fit (ell_cand text mid)) eqn:Hfit.
    + apply IH; [lia|lia|lia|lia| |assumption|].
      * intros m Hm. apply (fits_antitone text m mid); [lia|assumption].
      * right. split; [lia|]. f_equal. lia.
    + apply IH; [lia|lia|lia|lia|assumption| |assumption].
      intros m Hm. destruct (Z_le_gt_dec m hi) as [Hmh|Hmh]; [|apply Habove; lia].
      destruct (fit (ell_cand text m)) eqn:Hfm; [|reflexivity].
      rewrite (fits_antitone text mid m) in Hfit; [discriminate|lia|assumption].
  - exists best. split; [reflexivity|].
    destruct Hbest as [[-> ->]|[Hpos ->]].
    + left. split; [reflexivity|]. intros m Hm. apply Habove. lia.
    + right. exists (lo - 1). split; [lia|]. split; [reflexivity|].
      split; [apply Hbelow; lia|].
      intros m' Hm' Hfm. destruct (Z_le_gt_dec m' (lo - 1)) as [|Hbig]; [assumption|].
      rewrite Habove in Hfm; [discriminate|lia].
Qed.

Lemma ell_cand_zero (text : Py.str) : ell_cand text 0 = [Py.ELLIPSIS].
Proof. reflexivity. Qed.

(** C8: a text that fits comes back as it is.  For one that does not, the
    result is the bare ellipsis when the bare ellipsis does not fit, and
    otherwise the right-stripped prefix of the greatest length [m] for which
    prefix and ellipsis fit, followed by the ellipsis. *)
Theorem ellipsize_longest_fit (text : Py.str) :
  (fit text = true ->
   ellipsize_line_to_width stringWidth max_width text = Some text)
  /\ (fit text = false ->
      (~ (stringWidth [Py.ELLIPSIS] <= max_width)%Q ->
       ellipsize_line_to_width stringWidth max_width text = Some [Py.ELLIPSIS])
      /\ ((stringWidth [Py.ELLIPSIS] <= max_width)%Q ->
          exists m,
            0 <= m <= Py.len text
            /\ ellipsize_line_to_width stringWidth max_width text
               = Some (Py.rstrip (Py.slice_to text m) ++ [Py.ELLIPSIS])
            /\ (stringWidth (Py.rstrip (Py.slice_to text m) ++ [Py.ELLIPSIS])
                <= max_width)%Q
            /\ forall m',
                 0 <= m' <= Py.len text ->
                 (stringWidth (Py.rstrip (Py.slice_to text m') ++ [Py.ELLIPSIS])
                  <= max_width)%Q ->
                 m' <= m)).
Proof.
  unfold ellipsize_line_to_width. split; intros Hfit; rewrite Hfit; [reflexivity|].
  destruct (ellipsize_loop_spec text (length text + 2) 0 (Py.len text) [])
    as (r & Hr & Hres); try (unfold Py.len; lia).
  { left. now split. }
  rewrite Hr. pose proof (len_nonneg text) as Hlen.
  destruct Hres as [[-> Hnone]|(m & Hm & -> & Hfm & Hmax)].
  - split; [reflexivity|]. intros Hell. apply fits_iff in Hell.
    rewrite <- (ell_cand_zero text), Hnone in Hell; [discriminate|lia].
  - assert (Hne : exists c r, ell_cand text m = c :: r).
    { unfold ell_cand. destruct (Py.rstrip (Py.slice_to text m)); simpl; eauto. }
    destruct Hne as (c & r & Hcr). split.
    + intros Hell. exfalso. apply Hell. apply fits_iff.
      rewrite <- (ell_cand_zero text). apply (fits_antitone text 0 m); [lia|assumption].
    + intros _. exists m. split; [assumption|]. split; [rewrite Hcr; simpl; rewrite <- Hcr; reflexivity|].
      split; [now apply fits_iff|].
      intros m' Hm' Hw. apply Hmax; [assumption|now apply fits_iff].
Qed.

End EllipsizeFacts.

Lemma unit_width_grows (p q : Py.str) :
  (unit_width (p ++ [Py.ELLIPSIS]) <= unit_width (p ++ q ++ [Py.ELLIPSIS]))%Q.
Proof.
  unfold unit_width. rewrite <- Zle_Qle, !len_app. pose proof (len_nonneg q). lia.
Qed.

Lemma ellipsize_longest_fit_witness :
  fits unit_width 5 (Py.lit "ab    defghijk") = false
  /\ (unit_width [Py.ELLIPSIS] <= 5)%Q
  /\ exists m,
       ellipsize_line_to_width unit_width 5 (Py.lit "ab    defghijk")
       = Some (Py.rstrip (Py.slice_to (Py.lit "ab    defghijk") m) ++ [Py.ELLIPSIS]).
Proof.
  split; [reflexivity|]. split; [vm_compute; discriminate|].
  destruct (proj2 (proj2 (ellipsize_longest_fit unit_width 5 unit_width_grows
                            (Py.lit "ab    defghijk")) eq_refl)
              ltac:(vm_compute; discriminate)) as (m & _ & Hm & _).
  now exists m.
Defined.

Example ellipsize_strips_blanks :
  ellipsize_line_to_width unit_width 5 (Py.lit "ab    defghijk")
  = Some (Py.lit "ab" ++ [Py.ELLIPSIS]).
Proof. vm_compute. reflexivity. Qed.

(* ================================================================== *)
(** ** [ensure_room] *)
(* ================================================================== *)

Example card_h_tall : (Layout.card_h tall_card == 10752 # 100)%Q.
Proof. reflexivity. Qed.

(** C2, against the code: after seven cards of one section the engine
    stands in the second column, which has no room for an eighth card while
    the first column has; the call for the eighth card opens a new page. *)
Lemma ensure_room_leaves_first_column :
  let st := fold_left Layout.place seven_blocks Layout.start in
  let need := ((175 # 100) * Layout.inch)%Q in
  Layout.current_col st = 1%nat
  /\ Layout.last_sec st = Some OTHER
  /\ Layout.has_room st 0 need = true
  /\ Layout.has_room st 1 need = false
  /\ Layout.page_num (Layout.ensure_room need st) = Layout.page_num st + 1.
Proof. vm_compute. repeat split. Qed.

(** C2, as the code has it: a block that fits the active column stays
    there; one that does not, while the first column is active and the
    second has room, goes to the second column of the same page; in every
    other case a new page is opened, with both cursors at the top and the
    first column active.  So a new page is opened only when the active
    column has no room and the active column is the second one or the
    second one has no room either. *)
Theorem ensure_room_cases (need : Q) (st : Layout.State) :
  (Layout.has_room st (Layout.current_col st) need = true ->
   Layout.ensure_room need st = st)
  /\ (Layout.has_room st (Layout.current_col st) need = false ->
      Layout.current_col st = 0%nat -> Layout.has_room st 1 need = true ->
      Layout.ensure_room need st
      = Layout.mkState (Layout.page_num st) (Layout.col_y st) 1 (Layout.last_sec st))
  /\ (Layout.has_room st (Layout.current_col st) need = false ->
      Layout.current_col st <> 0%nat \/ Layout.has_room st 1 need = false ->
      Layout.ensure_room need st
      = Layout.mkState (Layout.page_num st + 1)
          (<[1%nat := Layout.top]> (<[0%nat := Layout.top]> (Layout.col_y st)))
          0 (Layout.last_sec st))
  /\ (Layout.page_num (Layout.ensure_room need st) <> Layout.page_num st ->
      Layout.has_room st (Layout.current_col st) need = false
      /\ (Layout.current_col st <> 0%nat \/ Layout.has_room st 1 need = false)).
Proof.
  unfold Layout.ensure_room.
  destruct (Layout.has_room st (Layout.current_col st) need) eqn:Hcur.
  - repeat split; intros; try discriminate; try reflexivity; congruence.
  - destruct (Nat.eqb_spec (Layout.current_col st) 0) as [H0|H0];
      destruct (Layout.has_room st 1 need) eqn:H1; simpl;
      repeat split; intros; try discriminate; try reflexivity;
      try congruence; try tauto; try (right; reflexivity); try (left; assumption).
    all: try (exfalso; simpl in *; intuition (congruence || lia)).
Qed.

Lemma ensure_room_cases_witness :
  Layout.ensure_room ((175 # 100) * Layout.inch) Layout.start = Layout.start.
Proof.
  exact (proj1 (ensure_room_cases ((175 # 100) * Layout.inch) Layout.start) eq_refl).
Defined.

(* ================================================================== *)
(** ** The deduplication loop of [collect_and_rank] *)
(* ================================================================== *)

Section RankingFacts.

Variable lower : Py.str -> Py.str.
Variable ratio : Py.str -> Py.str -> Q.
Variable safe_text : Py.str -> Py.str.
Variable score_of : Item -> Q.
Variables (TOP_N LOOKBACK_HOURS : Z) (DUPLICATE_THRESHOLD : Q).
Variable now : Z.

Local Abbreviation entry_step :=
  (process_entry lower ratio safe_text score_of LOOKBACK_HOURS DUPLICATE_THRESHOLD now).
Local Abbreviation candidate := (is_candidate LOOKBACK_HOURS now).
Local Abbreviation run :=
  (run_entries lower ratio safe_text score_of LOOKBACK_HOURS DUPLICATE_THRESHOLD now).
Local Abbreviation acc_ok := (accumulators_ok safe_text LOOKBACK_HOURS now).
Local Abbreviation built_from :=
  (fun (a : Article) (se : Py.str * Entry) =>
     exists p, e_published (snd se) = Some p
               /\ a = make_article safe_text score_of (fst se) (snd se) p).

Lemma collect_run (feeds : list (Py.str * option (list Entry))) :
  collect lower ratio safe_text score_of LOOKBACK_HOURS DUPLICATE_THRESHOLD now feeds
  = run (entries_of feeds) (mkRank [] [] ∅).
Proof.
  unfold collect, run_entries. generalize (mkRank [] [] ∅).
  induction feeds as [|[src [entries|]] feeds IH]; intros st; simpl; [reflexivity| |apply IH].
  rewrite fold_left_app, IH. f_equal. unfold process_feed. simpl.
  clear IH. revert st. induction entries as [|e entries IHe]; intros st; simpl;
    [reflexivity|apply IHe].
Qed.

Lemma accumulators_step (done : list (Py.str * Entry)) (st : RankState)
      (src : Py.str) (e : Entry) :
  acc_ok done st ->
  acc_ok (done ++ [(src, e)]) (entry_step src st e).
Proof.
  intros (Ht & Hl & Ha).
  assert (Hskip : candidate e = false -> acc_ok (done ++ [(src, e)]) st).
  { intros Hc. split; [assumption|]. split; [|assumption].
    intros l. rewrite Hl. split; intros [Hne (s & e' & Hin & Hce & He)];
      (split; [assumption|]); exists s, e'.
    - rewrite in_app_iff. tauto.
    - rewrite in_app_iff in Hin. destruct Hin as [Hin|[[= <- <-]|[]]]; [tauto|congruence]. }
  unfold process_entry, is_candidate in *.
  destruct (e_published e) as [p|] eqn:Hp; [|now apply Hskip].
  destruct (p <? cutoff LOOKBACK_HOURS now) eqn:Hold; [now apply Hskip|].
  destruct (e_title e) as [|c t] eqn:Htitle; [now apply Hskip|]. clear Hskip.
  assert (Hcand : candidate e = true).
  { unfold is_candidate. rewrite Hp, Hold, Htitle. reflexivity. }
  assert (Hnew : forall links' : gset (list N),
             (forall l, l ∈ links' <-> l ∈ seen_links st \/ (l <> [] /\ l = e_link e)) ->
             forall l, l ∈ links' <->
               l <> [] /\ exists s e', In (s, e') (done ++ [(src, e)])
                                       /\ candidate e' = true /\ e_link e' = l).
  { intros links' Hlinks l. rewrite Hlinks, Hl. split.
    - intros [[Hne (s & e' & Hin & Hce & He)]|[Hne ->]].
      + split; [assumption|]. exists s, e'. rewrite in_app_iff. tauto.
      + split; [assumption|]. exists src, e. rewrite in_app_iff. simpl. tauto.
    - intros [Hne (s & e' & Hin & Hce & He)]. rewrite in_app_iff in Hin.
      destruct Hin as [Hin|[[= <- <-]|[]]].
      + left. split; [assumption|]. now exists s, e'.
      + right. now split. }
  destruct (decide (e_link e = [])) as [Hemp|Hnonemp].
  - rewrite (bool_decide_eq_true_2 _ Hemp). simpl.
    assert (Hsame : forall l, l ∈ seen_links st
                              <-> l ∈ seen_links st \/ (l <> [] /\ l = e_link e)).
    { intros l. split; [tauto|]. intros [H|[Hne ->]]; [assumption|contradiction]. }
    destruct (is_duplicate_title lower ratio (c :: t) (seen_titles st) DUPLICATE_THRESHOLD).
    + split; [assumption|]. split; [now apply Hnew|assumption].
    + split; [|split; [now apply Hnew|]]; simpl.
      * apply Forall2_app; [assumption|]. constructor; [|constructor].
        simpl. now rewrite Htitle.
      * intros a Hin Hne. rewrite in_app_iff in Hin.
        destruct Hin as [Hin|[<-|[]]]; [now apply Ha|]. simpl in Hne. contradiction.
  - rewrite (bool_decide_eq_false_2 _ Hnonemp). simpl.
    destruct (decide (e_link e ∈ seen_links st)) as [Hseen|Hfresh].
    + rewrite (bool_decide_eq_true_2 _ Hseen).
      split; [assumption|]. split; [|assumption].
      apply Hnew. intros l. split; [tauto|]. intros [H|[Hne ->]]; assumption.
    + rewrite (bool_decide_eq_false_2 _ Hfresh).
      assert (Hadd : forall l, l ∈ ({[e_link e]} ∪ seen_links st : gset (list N))
                               <-> l ∈ seen_links st \/ (l <> [] /\ l = e_link e)).
      { intros l. rewrite elem_of_union, elem_of_singleton. split.
        - intros [->|H]; [right; now split|now left].
        - intros [H|[_ ->]]; [now right|now left]. }
      destruct (is_duplicate_title lower ratio (c :: t) (seen_titles st) DUPLICATE_THRESHOLD).
      * split; [assumption|]. split; [now apply Hnew|]. simpl.
        intros a Hin Hne. apply Hadd. left. now apply Ha.
      * split; [|split; [now apply Hnew|]]; simpl.
        -- apply Forall2_app; [assumption|]. constructor; [|constructor].
           simpl. now rewrite Htitle.
        -- intros a Hin Hne. apply Hadd. rewrite in_app_iff in Hin.
           destruct Hin as [Hin|[<-|[]]]; [left; now apply Ha|right; now split].
Qed.

Lemma accumulators_run (es done : list (Py.str * Entry)) (st : RankState) :
  acc_ok done st -> acc_ok (done ++ es) (run es st).
Proof.
  revert done st. induction es as [|[src e] es IH]; intros done st H; simpl.
  - now rewrite app_nil_r.
  - replace (done ++ (src, e) :: es) with ((done ++ [(src, e)]) ++ es)
      by (now rewrite <- app_assoc).
    apply IH. now apply accumulators_step.
Qed.

(** One round of the loop either leaves the articles and the seen titles
    as they are, or accepts the entry: its article and its title are
    appended. *)
Lemma entry_step_titles (src : Py.str) (st : RankState) (e : Entry) :
  (articles (entry_step src st e) = articles st
   /\ seen_titles (entry_step src st e) = seen_titles st)
  \/ (exists p,
        e_published e = Some p
        /\ articles (entry_step src st e) = articles st ++ [make_article safe_text score_of src e p]
        /\ seen_titles (entry_step src st e) = seen_titles st ++ [e_title e]).
Proof.
  unfold process_entry.
  destruct (e_published e) as [p|]; [|now left].
  destruct (p <? cutoff LOOKBACK_HOURS now); [now left|].
  destruct (e_title e) as [|c t] eqn:Ht; [now left|]. rewrite <- Ht.
  destruct (negb (bool_decide (e_link e = [])) && bool_decide (e_link e ∈ seen_links st));
    [now left|].
  destruct (is_duplicate_title lower ratio (e_title e) (seen_titles st) DUPLICATE_THRESHOLD);
    [now left|].
  right. exists p. simpl. now repeat split.
Qed.

Lemma accepted_entries_run (es : list (Py.str * Entry)) :
  forall (done accepted : list (Py.str * Entry)) (st : RankState),
    sublist accepted done ->
    seen_titles st = List.map (fun se => e_title (snd se)) accepted ->
    Forall2 built_from (articles st) accepted ->
    exists accepted',
      sublist accepted' (done ++ es)
      /\ seen_titles (run es st) = List.map (fun se => e_title (snd se)) accepted'
      /\ Forall2 built_from (articles (run es st)) accepted'.
Proof.
  induction es as [|[src e] es IH]; intros done accepted st Hsub Ht Ha.
  - exists accepted. rewrite app_nil_r. now repeat split.
  - replace (done ++ (src, e) :: es) with ((done ++ [(src, e)]) ++ es)
      by (now rewrite <- app_assoc).
    cbn [run_entries fold_left fst snd].
    destruct (entry_step_titles src st e) as [[Ea Es]|(p & Hp & Ea & Es)].
    + apply (IH _ accepted).
      * now apply sublist_inserts_r.
      * now rewrite Es.
      * now rewrite Ea.
    + apply (IH _ (accepted ++ [(src, e)])).
      * now apply sublist_app.
      * rewrite Es, Ht, List.map_app. reflexivity.
      * rewrite Ea. apply Forall2_app; [assumption|].
        constructor; [|constructor]. now exists p.
Qed.

(** C1, as the code has it: at every point of the run, that is after any
    initial part [done] of the entries, the seen titles are the normalised
    titles of the entries accepted so far, one for one and in the order of
    acceptance, and the article of an accepted entry stores [safe_text] of
    that title; the seen links are the non-empty links of all entries that
    got past the date and title guards, whether accepted or not, so they
    include the non-empty link of every accepted article. *)
Theorem dedup_accumulators (feeds : list (Py.str * option (list Entry)))
        (done rest : list (Py.str * Entry)) :
  entries_of feeds = done ++ rest ->
  let st := run done (mkRank [] [] ∅) in
  collect lower ratio safe_text score_of LOOKBACK_HOURS DUPLICATE_THRESHOLD now feeds
  = run rest st
  /\ (exists accepted : list (Py.str * Entry),
        sublist accepted done
        /\ seen_titles st = List.map (fun se => e_title (snd se)) accepted
        /\ Forall2 (fun a se =>
                      exists p, e_published (snd se) = Some p
                                /\ a = make_article safe_text score_of (fst se) (snd se) p)
             (articles st) accepted)
  /\ Forall2 (fun a t => title (a_item a) = safe_text t) (articles st) (seen_titles st)
  /\ (forall l : Py.str,
        l ∈ seen_links st <->
        l <> [] /\ exists src e, In (src, e) done /\ candidate e = true /\ e_link e = l)
  /\ (forall a, In a (articles st) ->
                link (a_item a) <> [] -> link (a_item a) ∈ seen_links st).
Proof.
  intros Hsplit st. split; [|split].
  - rewrite collect_run, Hsplit. unfold run_entries. now rewrite fold_left_app.
  - destruct (accepted_entries_run done [] [] (mkRank [] [] ∅))
      as (accepted & Hsub & Ht & Ha); [constructor|reflexivity|constructor|].
    now exists accepted.
  - apply (accumulators_run done [] (mkRank [] [] ∅)).
    split; [constructor|]. split; [|intros a []].
    intros l. split; [intros H; now apply not_elem_of_empty in H|].
    intros [_ (s & e & [] & _)].
Qed.

(** The title kept for the comparisons is the normalised title, the title
    of the article is [safe_text] of it: they differ when [html.unescape]
    changes the title, as for "R&amp;D". *)
Lemma seen_title_not_unescaped (src : Py.str) (e : Entry) :
  candidate e = true ->
  seen_titles (entry_step src (mkRank [] [] ∅) e) = [e_title e]
  /\ List.map (fun a => title (a_item a)) (articles (entry_step src (mkRank [] [] ∅) e))
     = [safe_text (e_title e)].
Proof.
  unfold is_candidate, process_entry.
  destruct (e_published e) as [p|]; [|discriminate].
  destruct (p <? cutoff LOOKBACK_HOURS now); [discriminate|].
  destruct (e_title e) as [|c t] eqn:Ht; [discriminate|]. intros _.
  replace (bool_decide (e_link e ∈ seen_links (mkRank [] [] ∅))) with false
    by (symmetry; apply bool_decide_eq_false_2; simpl; apply not_elem_of_empty).
  rewrite andb_false_r. unfold is_duplicate_title. simpl. rewrite Ht. now split.
Qed.

End RankingFacts.

(** C1, against the code: the link of an entry that the title check
    rejects is in the seen links all the same, and a later entry with that
    link and a new title is dropped although no accepted article has the
    link. *)
Lemma seen_links_hold_rejected_link :
  let st := collect ascii_lower same_ratio Py.strip (fun _ => 0%Q) 72 (93 # 100) 0
              (one_feed [entry_first; entry_same_title]) in
  List.map (fun a => link (a_item a)) (articles st) = [Py.lit "https://example.org/1"]
  /\ seen_titles st = [Py.lit "Acme breach"]
  /\ Py.lit "https://example.org/2" ∈ seen_links st
  /\ List.map (fun a => title (a_item a))
       (articles (collect ascii_lower same_ratio Py.strip (fun _ => 0%Q) 72 (93 # 100) 0
                    (one_feed [entry_first; entry_same_title; entry_same_link])))
     = [Py.lit "Acme breach"].
Proof.
  repeat split; vm_compute; reflexivity.
Qed.

Lemma dedup_accumulators_witness :
  collect ascii_lower same_ratio Py.strip (fun _ => 0%Q) 72 (93 # 100) 0
    (one_feed [entry_first; entry_same_title; entry_same_link])
  = run_entries ascii_lower same_ratio Py.strip (fun _ => 0%Q) 72 (93 # 100) 0
      [(Py.lit "Dark Reading", entry_same_link)]
      (run_entries ascii_lower same_ratio Py.strip (fun _ => 0%Q) 72 (93 # 100) 0
         [(Py.lit "Dark Reading", entry_first); (Py.lit "Dark Reading", entry_same_title)]
         (mkRank [] [] ∅)).
Proof.
  exact (proj1 (dedup_accumulators ascii_lower same_ratio Py.strip (fun _ => 0%Q)
                  72 (93 # 100) 0
                  (one_feed [entry_first; entry_same_title; entry_same_link])
                  [(Py.lit "Dark Reading", entry_first);
                   (Py.lit "Dark Reading", entry_same_title)]
                  [(Py.lit "Dark Reading", entry_same_link)] eq_refl)).
Defined.

(* ================================================================== *)
(** ** Sorting and truncation in [collect_and_rank] *)
(* ================================================================== *)

Lemma insert_desc_perm x l : Permutation (insert_desc x l) (x :: l).
Proof.
  induction l as [|y t IH]; simpl; [reflexivity|].
  destruct (Qle_bool (score y) (score x)); [reflexivity|].
  rewrite IH. apply perm_swap.
Qed.

Lemma sort_desc_perm l : Permutation (sort_desc l) l.
Proof.
  induction l as [|x t IH]; simpl; [reflexivity|].
  rewrite insert_desc_perm. now constructor.
Qed.

Lemma Qle_bool_false (a b : Q) : Qle_bool a b = false -> (b < a)%Q.
Proof.
  intros H. apply Qnot_le_lt. intros Hle. apply Qle_bool_iff in Hle. congruence.
Qed.

Lemma insert_desc_descending x l : descending l -> descending (insert_desc x l).
Proof.
  unfold descending. induction 1 as [|y t Ht IH Hy]; simpl.
  - repeat constructor.
  - destruct (Qle_bool (score y) (score x)) eqn:E.
    + apply Qle_bool_iff in E. constructor; [now constructor|].
      constructor; [assumption|].
      eapply Forall_impl; [exact Hy|]. intros b Hb. simpl in Hb.
      now apply Qle_trans with (score y).
    + apply Qle_bool_false in E. constructor; [assumption|].
      rewrite (insert_desc_perm x t). constructor; [now apply Qlt_le_weak|assumption].
Qed.

Lemma sort_desc_descending l : descending (sort_desc l).
Proof.
  induction l as [|x t IH]; simpl; [constructor|now apply insert_desc_descending].
Qed.

(** Insertion passes over greater scores only, so among the articles of
    one score the new one comes first. *)
Lemma insert_desc_with_score s x l :
  with_score s (insert_desc x l) = with_score s (x :: l).
Proof.
  unfold with_score. induction l as [|y t IH]; [reflexivity|].
  cbn [insert_desc]. destruct (Qle_bool (score y) (score x)) eqn:E; [reflexivity|].
  cbn [List.filter] in *. rewrite IH.
  destruct (Qeq_bool (score x) s) eqn:Ex; destruct (Qeq_bool (score y) s) eqn:Ey;
    try reflexivity.
  apply Qeq_bool_iff in Ex, Ey. apply Qle_bool_false in E.
  rewrite Ex, Ey in E. now apply Qlt_irrefl in E.
Qed.

Lemma sort_desc_with_score s l : with_score s (sort_desc l) = with_score s l.
Proof.
  induction l as [|x t IH]; [reflexivity|]. simpl sort_desc.
  rewrite insert_desc_with_score. unfold with_score in *. cbn [List.filter].
  now rewrite IH.
Qed.

Lemma descending_app_l (a b : list Article) : descending (a ++ b) -> descending a.
Proof.
  unfold descending. induction a as [|x a IH]; simpl; intros H; [constructor|].
  inversion H as [|? ? Hs Hf]; subst. constructor; [now apply IH|].
  apply Forall_app in Hf. tauto.
Qed.

Example sort_desc_keeps_ties_in_order :
  List.map (fun a => title (a_item a))
    (sort_desc
       [ mkArticle (mkItem (Py.lit "a") [] [] 0 []) 5;
         mkArticle (mkItem (Py.lit "b") [] [] 0 []) 7;
         mkArticle (mkItem (Py.lit "c") [] [] 0 []) 5;
         mkArticle (mkItem (Py.lit "d") [] [] 0 []) (91 # 10) ])
  = [Py.lit "d"; Py.lit "b"; Py.lit "a"; Py.lit "c"].
Proof. vm_compute. reflexivity. Qed.

Section RankedFacts.

Variable lower : Py.str -> Py.str.
Variable ratio : Py.str -> Py.str -> Q.
Variable safe_text : Py.str -> Py.str.
Variable score_of : Item -> Q.
Variables (TOP_N LOOKBACK_HOURS : Z) (DUPLICATE_THRESHOLD : Q).
Variable now : Z.

(** C6, as the code has it: the list returned is an initial part of the
    accepted articles sorted downwards by score; its scores go down; for
    every score, its articles of that score are an initial part of the
    accepted articles of that score in the order in which they were met; it
    has at most [TOP_N] articles when [TOP_N] is not negative, and all but
    the last [-TOP_N] of the sorted articles when it is. *)
Theorem ranked_list_sorted_stable (feeds : list (Py.str * option (list Entry))) :
  let met :=
    articles (collect lower ratio safe_text score_of LOOKBACK_HOURS
                DUPLICATE_THRESHOLD now feeds) in
  let ranked :=
    collect_and_rank lower ratio safe_text score_of TOP_N LOOKBACK_HOURS
      DUPLICATE_THRESHOLD now feeds in
  (exists rest, sort_desc met = ranked ++ rest /\ Permutation (ranked ++ rest) met)
  /\ descending ranked
  /\ (forall s, exists rest, with_score s met = with_score s ranked ++ rest)
  /\ (0 <= TOP_N -> Py.len ranked = Z.min TOP_N (Py.len met))
  /\ (TOP_N < 0 -> Py.len ranked = Z.max 0 (Py.len met + TOP_N)).
Proof.
  intros met ranked.
  assert (Hcut : sort_desc met = ranked ++ Py.slice_from (sort_desc met) TOP_N).
  { unfold ranked, collect_and_rank. fold met. now rewrite slice_to_from. }
  assert (Hlen : Py.len (sort_desc met) = Py.len met).
  { unfold Py.len. now rewrite (Permutation_length (sort_desc_perm met)). }
  split; [|split; [|split; [|split]]].
  - exists (Py.slice_from (sort_desc met) TOP_N). split; [assumption|].
    rewrite <- Hcut. apply sort_desc_perm.
  - apply (descending_app_l _ (Py.slice_from (sort_desc met) TOP_N)).
    rewrite <- Hcut. apply sort_desc_descending.
  - intros s. exists (with_score s (Py.slice_from (sort_desc met) TOP_N)).
    rewrite <- (sort_desc_with_score s met), Hcut at 1.
    unfold with_score. apply List.filter_app.
  - intros Hn. unfold ranked, collect_and_rank. fold met.
    rewrite slice_to_length by assumption. now rewrite Hlen.
  - intros Hn. unfold ranked, collect_and_rank. fold met.
    unfold Py.slice_to. destruct (Z.leb_spec 0 TOP_N); [lia|].
    unfold Py.len in *. rewrite length_firstn. lia.
Qed.

End RankedFacts.

(** C6, against the code: with [TOP_N = -1] and two accepted articles the
    list returned has one article, which is more than [TOP_N]. *)
Lemma negative_top_n_keeps_articles :
  let ranked := collect_and_rank ascii_lower same_ratio Py.strip (fun _ => 0%Q)
                  (-1) 72 (93 # 100) 0 (one_feed [entry_first; entry_third]) in
  List.map (fun a => title (a_item a)) ranked = [Py.lit "Acme breach"]
  /\ ~ (Py.len ranked <= -1).
Proof. split; [vm_compute; reflexivity|]. vm_compute. intros H. now apply H. Qed.

Lemma ranked_list_sorted_stable_witness :
  Py.len (collect_and_rank ascii_lower same_ratio Py.strip (fun _ => 0%Q)
            1 72 (93 # 100) 0 (one_feed [entry_first; entry_third]))
  = Z.min 1 (Py.len (articles (collect ascii_lower same_ratio Py.strip (fun _ => 0%Q)
                                 72 (93 # 100) 0 (one_feed [entry_first; entry_third])))).
Proof.
  exact (proj1 (proj2 (proj2 (proj2
           (ranked_list_sorted_stable ascii_lower same_ratio Py.strip (fun _ => 0%Q)
              1 72 (93 # 100) 0 (one_feed [entry_first; entry_third])))))
         ltac:(lia)).
Defined.

(* ================================================================== *)
(** ** [compute_score] and the age of an article *)
(* ================================================================== *)

Section ScoreFacts.

Local Open Scope R_scope.

Lemma Int_part_bounds (x : R) : IZR (Int_part x) <= x < IZR (Int_part x) + 1.
Proof. destruct (base_Int_part x). lra. Qed.

Lemma Int_part_mono (x y : R) : x <= y -> (Int_part x <= Int_part y)%Z.
Proof.
  intros H. pose proof (Int_part_bounds x). pose proof (Int_part_bounds y).
  assert (Hlt : IZR (Int_part x) < IZR (Int_part y + 1)) by (rewrite plus_IZR; lra).
  apply lt_IZR in Hlt. lia.
Qed.

Lemma round_half_even_range (x : R) :
  (Int_part x <= round_half_even x <= Int_part x + 1)%Z.
Proof.
  unfold round_half_even.
  destruct (Rlt_dec _ _); [lia|]. destruct (Rlt_dec _ _); [lia|].
  destruct (Z.even _); lia.
Qed.

Lemma round_half_even_mono (x y : R) :
  x <= y -> (round_half_even x <= round_half_even y)%Z.
Proof.
  intros H. pose proof (Int_part_mono x y H) as Hf.
  destruct (Z.eq_dec (Int_part x) (Int_part y)) as [He|Hne].
  - unfold round_half_even. rewrite <- He.
    destruct (Rlt_dec (x - IZR (Int_part x)) (1 / 2));
      destruct (Rlt_dec (y - IZR (Int_part x)) (1 / 2)); try lia; try lra.
    + destruct (Rlt_dec (1 / 2) (y - IZR (Int_part x))); [lia|].
      destruct (Z.even (Int_part x)); lia.
    + destruct (Rlt_dec (1 / 2) (x - IZR (Int_part x)));
        destruct (Rlt_dec (1 / 2) (y - IZR (Int_part x))); try lia; try lra.
      destruct (Z.even (Int_part x)); lia.
  - pose proof (round_half_even_range x). pose proof (round_half_even_range y). lia.
Qed.

Lemma round1_mono (x y : R) : x <= y -> round1 x <= round1 y.
Proof.
  intros H. unfold round1.
  assert (Hz : (round_half_even (x * 10) <= round_half_even (y * 10))%Z)
    by (apply round_half_even_mono; lra).
  apply IZR_le in Hz. lra.
Qed.

Lemma exp_mono (x y : R) : x <= y -> exp x <= exp y.
Proof.
  intros [Hlt | ->]; [left; now apply exp_increasing|right; reflexivity].
Qed.

(** The older the article, the smaller the recency term. *)
Lemma recency_score_antitone (LOOKBACK_HOURS : Z) (h1 h2 : R) :
  h1 <= h2 -> recency_score LOOKBACK_HOURS h2 <= recency_score LOOKBACK_HOURS h1.
Proof.
  intros H. unfold recency_score.
  set (midpoint := IZR (Z.max 1 LOOKBACK_HOURS)).
  set (spread := Rmax 2 (midpoint / 4)).
  assert (Hs : 0 < spread) by (unfold spread; pose proof (Rmax_l 2 (midpoint / 4)); lra).
  assert (Harg : (h1 - midpoint) / spread <= (h2 - midpoint) / spread).
  { unfold Rdiv. apply Rmult_le_compat_r; [left; now apply Rinv_0_lt_compat|lra]. }
  apply exp_mono in Harg.
  pose proof (exp_pos ((h1 - midpoint) / spread)) as H1.
  pose proof (exp_pos ((h2 - midpoint) / spread)) as H2.
  unfold Rdiv. apply Rmult_le_compat_l; [lra|].
  apply Rinv_le_contravar; lra.
Qed.

Lemma Rmax_mono_r (a x y : R) : x <= y -> Rmax a x <= Rmax a y.
Proof. intros H. unfold Rmax. destruct (Rle_dec a x); destruct (Rle_dec a y); lra. Qed.

Variable lower : Py.str -> Py.str.
Variable isalnum : N -> bool.
Variables MAX_KEYWORD_SCORE LOOKBACK_HOURS : Z.

(** C7: of two articles with the same title, summary and source, the one
    that is no younger has no greater score, clamp and rounding
    included. *)
Theorem compute_score_antitone_in_age (now1 now2 : Z) (it1 it2 : Item) :
  title it1 = title it2 -> summary it1 = summary it2 -> source it1 = source it2 ->
  hours_old now1 it1 <= hours_old now2 it2 ->
  compute_score lower isalnum MAX_KEYWORD_SCORE LOOKBACK_HOURS now2 it2
  <= compute_score lower isalnum MAX_KEYWORD_SCORE LOOKBACK_HOURS now1 it1.
Proof.
  intros Ht Hs Hsrc Hage. unfold compute_score. rewrite Ht, Hs, Hsrc.
  apply round1_mono. apply Rplus_le_compat_l. apply Rmax_mono_r.
  now apply recency_score_antitone.
Qed.

End ScoreFacts.

Lemma compute_score_antitone_in_age_witness :
  (compute_score ascii_lower ascii_isalnum 80 72 7200000000 older_item
   <= compute_score ascii_lower ascii_isalnum 80 72 7200000000 fresh_item)%R.
Proof.
  apply (compute_score_antitone_in_age ascii_lower ascii_isalnum 80 72
           7200000000 7200000000 fresh_item older_item);
    try reflexivity.
  unfold hours_old, fresh_item, older_item. cbn [published].
  rewrite !minus_IZR. lra.
Defined.

(* ================================================================== *)
(** ** [chunk_text] *)
(* ================================================================== *)

Lemma visible_app s t : visible (s ++ t) = visible s ++ visible t.
Proof. apply List.filter_app. Qed.

Lemma visible_lstrip s : visible (Py.lstrip s) = visible s.
Proof.
  unfold visible. induction s as [|c t IH]; [reflexivity|]. simpl.
  destruct (Py.isspace c) eqn:E; simpl; [assumption|now rewrite E].
Qed.

Lemma visible_rstrip s : visible (Py.rstrip s) = visible s.
Proof.
  unfold visible. induction s as [|c t IH]; [reflexivity|]. simpl.
  destruct (Py.rstrip t) as [|d r] eqn:E.
  - simpl in IH. destruct (Py.isspace c) eqn:Ec; simpl; rewrite ?Ec; simpl;
      now rewrite <- IH.
  - rewrite <- IH. reflexivity.
Qed.

Lemma visible_strip s : visible (Py.strip s) = visible s.
Proof. unfold Py.strip. now rewrite visible_rstrip, visible_lstrip. Qed.

Lemma visible_split_aux s :
  forall skip, visible (concat (Py.split_blank_aux skip s))
               = visible (if skip then tl s else s).
Proof.
  induction s as [|c t IH]; intros skip; [now destruct skip|].
  cbn [Py.split_blank_aux]. destruct skip; [apply (IH false)|].
  destruct ((c =? Py.NEWLINE)%N && Py.startswith [Py.NEWLINE] t) eqn:E.
  - apply andb_true_iff in E. destruct E as [Ec Et].
    apply N.eqb_eq in Ec. subst c. cbn [concat app]. rewrite (IH true).
    apply startswith_spec in Et. destruct Et as [post Hpost]. rewrite Hpost. reflexivity.
  - pose proof (IH false) as IHf. cbn [tl] in IHf.
    destruct (Py.split_blank_aux false t) as [|p ps]; cbn [concat app] in *.
    + unfold visible in *. simpl in *. rewrite <- IHf. now destruct (Py.isspace c).
    + unfold visible in *. simpl in *. now rewrite IHf.
Qed.

Lemma visible_split s : visible (concat (Py.split_blank s)) = visible s.
Proof. apply (visible_split_aux s false). Qed.

Lemma slice_from_length {A} (s : list A) (k : Z) :
  0 <= k -> Py.len (Py.slice_from s k) = Z.max 0 (Py.len s - k).
Proof.
  intros Hk. unfold Py.slice_from, Py.len.
  destruct (Z.leb_spec 0 k); [|lia]. rewrite length_skipn. lia.
Qed.

(** The hard split stops, cuts pieces of full length and loses nothing. *)
Lemma hard_split_spec (max_len : Z) (fuel : nat) :
  1 <= max_len ->
  forall p : Py.str,
    (length p < fuel)%nat ->
    exists cs r,
      hard_split fuel max_len p = Some (cs, r)
      /\ concat cs ++ r = p
      /\ Forall (fun c => Py.len c = max_len) cs
      /\ Py.len r <= max_len
      /\ (Py.len p <= max_len -> cs = [] /\ r = p).
Proof.
  intros Hm. induction fuel as [|fuel IH]; intros p Hf; [lia|].
  simpl. destruct (Z.ltb_spec max_len (Py.len p)) as [Hlong|Hshort].
  - destruct (IH (Py.slice_from p max_len)) as (cs & r & -> & Hcat & Hcs & Hr & _).
    { pose proof (slice_from_length p max_len ltac:(lia)). unfold Py.len in *. lia. }
    exists (Py.slice_to p max_len :: cs), r. split; [reflexivity|].
    split; [simpl; now rewrite <- app_assoc, Hcat, slice_to_from|].
    split; [|split; [assumption|lia]].
    constructor; [|assumption]. rewrite slice_to_length by lia. lia.
  - exists [], p. repeat split; try assumption; constructor.
Qed.

(** One round of the paragraph loop keeps every chunk and the buffer
    within the limit and keeps the visible characters. *)
Lemma chunk_step_spec (max_len : Z) (chunks : list Py.str) (buf p : Py.str) :
  1 <= max_len ->
  Forall (chunk_ok max_len) chunks -> Py.len buf <= max_len ->
  exists chunks' buf',
    chunk_step max_len (chunks, buf) p = Some (chunks', buf')
    /\ Forall (chunk_ok max_len) chunks' /\ Py.len buf' <= max_len
    /\ visible (concat chunks' ++ buf') = visible (concat chunks ++ buf) ++ visible p.
Proof.
  intros Hm Hchunks Hbuf. unfold chunk_step.
  pose proof (visible_strip p) as Hvp.
  destruct (Py.strip p) as [|c0 p0] eqn:Ep.
  { exists chunks, buf. simpl in Hvp. rewrite <- Hvp, app_nil_r. now repeat split. }
  rewrite <- Ep in *. clear c0 p0 Ep.
  set (sep := match buf with [] => [] | _ :: _ => [Py.NEWLINE; Py.NEWLINE] end).
  assert (Hsep : visible sep = []) by (unfold sep; now destruct buf).
  destruct (Z.leb_spec (Py.len (Py.strip (buf ++ sep ++ Py.strip p))) max_len) as [Hfit|Hbig].
  - exists chunks, (Py.strip (buf ++ sep ++ Py.strip p)).
    split; [reflexivity|]. split; [assumption|]. split; [assumption|].
    rewrite !visible_app, visible_strip, !visible_app, Hsep, Hvp. simpl.
    now rewrite app_assoc.
  - destruct (hard_split_spec max_len (S (length (Py.strip p))) Hm (Py.strip p))
      as (cs & r & -> & Hcat & Hcs & Hr & _); [lia|].
    set (chunks1 := match buf with [] => chunks | _ :: _ => chunks ++ [buf] end).
    assert (H1 : Forall (chunk_ok max_len) chunks1
                 /\ concat chunks1 = concat chunks ++ buf).
    { unfold chunks1. destruct buf as [|b buf'].
      - now rewrite app_nil_r.
      - split; [apply Forall_app; split; [assumption|now repeat constructor]|].
        rewrite concat_app. simpl. now rewrite app_nil_r. }
    destruct H1 as [Hok1 Hcat1].
    exists (chunks1 ++ cs), r. split; [reflexivity|].
    split; [|split; [assumption|]].
    + apply Forall_app. split; [assumption|].
      eapply Forall_impl; [exact Hcs|]. intros c Hc. unfold chunk_ok. simpl in Hc. lia.
    + rewrite concat_app, <- app_assoc, Hcat, Hcat1. now rewrite !visible_app, Hvp.
Qed.

Lemma chunk_loop_spec (max_len : Z) (parts : list Py.str) :
  1 <= max_len ->
  forall (chunks : list Py.str) (buf : Py.str),
    Forall (chunk_ok max_len) chunks -> Py.len buf <= max_len ->
    exists chunks' buf',
      chunk_loop max_len (chunks, buf) parts = Some (chunks', buf')
      /\ Forall (chunk_ok max_len) chunks' /\ Py.len buf' <= max_len
      /\ visible (concat chunks' ++ buf')
         = visible (concat chunks ++ buf) ++ visible (concat parts).
Proof.
  intros Hm. induction parts as [|p parts IH]; intros chunks buf Hc Hb; cbn [chunk_loop].
  - exists chunks, buf. simpl. now rewrite app_nil_r.
  - destruct (chunk_step_spec max_len chunks buf p Hm Hc Hb)
      as (chunks1 & buf1 & -> & Hc1 & Hb1 & Hv1).
    destruct (IH chunks1 buf1 Hc1 Hb1) as (chunks2 & buf2 & -> & Hc2 & Hb2 & Hv2).
    exists chunks2, buf2. split; [reflexivity|]. split; [assumption|]. split; [assumption|].
    rewrite Hv2, Hv1. cbn [concat]. now rewrite (visible_app p), <- app_assoc.
Qed.

Lemma lstrip_fixed_head s :
  Py.lstrip s = s -> s = [] \/ exists c t, s = c :: t /\ Py.isspace c = false.
Proof.
  destruct s as [|c t]; [now left|]. simpl. intros H. right. exists c, t.
  split; [reflexivity|]. destruct (Py.isspace c); [|reflexivity].
  pose proof (lstrip_length t) as Hl. rewrite H in Hl. simpl in Hl. lia.
Qed.

Lemma lstrip_idem s : Py.lstrip (Py.lstrip s) = Py.lstrip s.
Proof.
  induction s as [|c t IH]; [reflexivity|]. simpl.
  destruct (Py.isspace c) eqn:E; [assumption|]. simpl. now rewrite E.
Qed.

Lemma rstrip_idem s : Py.rstrip (Py.rstrip s) = Py.rstrip s.
Proof.
  induction s as [|c t IH]; [reflexivity|]. simpl.
  destruct (Py.rstrip t) as [|d r] eqn:E.
  - destruct (Py.isspace c) eqn:Ec; simpl; [reflexivity|now rewrite Ec].
  - cbn [Py.rstrip] in *. now rewrite IH.
Qed.

Lemma lstrip_rstrip_fixed s : Py.lstrip s = s -> Py.lstrip (Py.rstrip s) = Py.rstrip s.
Proof.
  intros H. destruct (lstrip_fixed_head s H) as [->|(c & t & -> & Hc)]; [reflexivity|].
  simpl. destruct (Py.rstrip t); rewrite ?Hc; simpl; now rewrite Hc.
Qed.

Lemma strip_tight s : tight (Py.strip s).
Proof.
  unfold tight, Py.strip. split; [|apply rstrip_idem].
  apply lstrip_rstrip_fixed, lstrip_idem.
Qed.

Lemma tight_strip s : tight s -> Py.strip s = s.
Proof. intros [Hl Hr]. unfold Py.strip. now rewrite Hl. Qed.

Lemma lstrip_app_fixed (a b : Py.str) :
  a <> [] -> Py.lstrip a = a -> Py.lstrip (a ++ b) = a ++ b.
Proof.
  intros Hne H. destruct (lstrip_fixed_head a H) as [->|(c & t & -> & Hc)]; [contradiction|].
  simpl. now rewrite Hc.
Qed.

Lemma rstrip_app_fixed (a b : Py.str) :
  b <> [] -> Py.rstrip b = b -> Py.rstrip (a ++ b) = a ++ b.
Proof.
  intros Hne H. induction a as [|c a IH]; [assumption|].
  simpl. rewrite IH. destruct (a ++ b) eqn:E; [|reflexivity].
  apply app_eq_nil in E. tauto.
Qed.

Lemma strip_between (a m b : Py.str) :
  a <> [] -> b <> [] -> tight a -> tight b -> tight (a ++ m ++ b).
Proof.
  intros Ha Hb [Hla _] [_ Hrb]. split.
  - now apply lstrip_app_fixed.
  - rewrite app_assoc. now apply rstrip_app_fixed.
Qed.

Lemma join_blank_snoc (g : list Py.str) (p : Py.str) :
  Py.join_blank (g ++ [p])
  = match g with
    | [] => p
    | _ :: _ => Py.join_blank g ++ [Py.NEWLINE; Py.NEWLINE] ++ p
    end.
Proof.
  induction g as [|q g IH]; [reflexivity|].
  cbn [app Py.join_blank]. destruct g as [|q' g']; [reflexivity|].
  cbn [app] in *. rewrite IH. now rewrite <- !app_assoc.
Qed.

Lemma join_blank_solid (g : list Py.str) :
  g <> [] -> Forall solid g -> solid (Py.join_blank g).
Proof.
  induction g as [|p g IH]; [contradiction|]. intros _ Hall.
  inversion Hall as [|? ? Hp Hg]; subst. destruct g as [|q g']; [assumption|].
  destruct (IH ltac:(discriminate) Hg) as [Hne Ht]. destruct Hp as [Hpne Hpt].
  change (Py.join_blank (p :: q :: g'))
    with (p ++ [Py.NEWLINE; Py.NEWLINE] ++ Py.join_blank (q :: g')).
  split; [destruct p; [contradiction|discriminate]|now apply strip_between].
Qed.

Lemma join_blank_nil_iff (g : list Py.str) :
  Forall solid g -> (Py.join_blank g = [] <-> g = []).
Proof.
  intros Hall. split; [|now intros ->].
  destruct g as [|p g]; [reflexivity|]. intros H.
  destruct (join_blank_solid (p :: g) ltac:(discriminate) Hall) as [Hne _]. contradiction.
Qed.

Lemma chunk_step_grouped (max_len : Z) (chunks : list Py.str) (buf p : Py.str)
      (seen : list Py.str) :
  grouped chunks buf seen ->
  Py.strip p = [] \/ Py.len (Py.strip p) <= max_len ->
  exists chunks' buf',
    chunk_step max_len (chunks, buf) p = Some (chunks', buf')
    /\ grouped chunks' buf' (seen ++ solid_parts [p]).
Proof.
  intros (groups & g & Hc & Hb & Hg & Hseen & Hsolid) Hp.
  unfold chunk_step, solid_parts. cbn [List.map List.filter].
  pose proof (strip_tight p) as Htight.
  destruct (Py.strip p) as [|c0 p0] eqn:Ep.
  { exists chunks, buf. split; [reflexivity|]. exists groups, g.
    rewrite bool_decide_eq_true_2 by reflexivity. simpl. now rewrite app_nil_r. }
  rewrite <- Ep in *.
  assert (Hpne : Py.strip p <> []) by (rewrite Ep; discriminate).
  destruct Hp as [Hp|Hp]; [contradiction|].
  rewrite (bool_decide_eq_false_2 _ Hpne). cbn [negb].
  assert (Hps : solid (Py.strip p)) by now split.
  assert (Hgs : Forall solid g).
  { rewrite <- Hseen in Hsolid. apply Forall_app in Hsolid. tauto. }
  assert (Hcand :
            Py.strip (buf ++ match buf with [] => [] | _ :: _ => [Py.NEWLINE; Py.NEWLINE] end
                          ++ Py.strip p)
            = Py.join_blank (g ++ [Py.strip p])).
  { rewrite join_blank_snoc. destruct g as [|q g'].
    - subst buf. simpl. now apply tight_strip.
    - destruct (join_blank_solid (q :: g') ltac:(discriminate) Hgs) as [Hne Ht].
      rewrite <- Hb in *. destruct buf as [|b buf']; [contradiction|].
      apply tight_strip. now apply strip_between. }
  assert (Hall : Forall solid (seen ++ [Py.strip p])).
  { apply Forall_app. split; [assumption|]. constructor; [assumption|constructor]. }
  rewrite Hcand.
  destruct (Z.leb_spec (Py.len (Py.join_blank (g ++ [Py.strip p]))) max_len) as [Hfit|Hbig].
  - exists chunks, (Py.join_blank (g ++ [Py.strip p])). split; [reflexivity|].
    exists groups, (g ++ [Py.strip p]). repeat split; try assumption.
    now rewrite app_assoc, Hseen.
  - cbn [hard_split]. destruct (Z.ltb_spec max_len (Py.len (Py.strip p))); [lia|].
    eexists _, _. split; [reflexivity|]. rewrite app_nil_r.
    destruct g as [|q g'].
    + subst buf. cbn [Py.join_blank]. exists groups, [Py.strip p].
      rewrite app_nil_r in Hseen. repeat split; try assumption. now rewrite Hseen.
    + destruct (join_blank_solid (q :: g') ltac:(discriminate) Hgs) as [Hne _].
      rewrite <- Hb in Hne. destruct buf as [|b buf']; [contradiction|].
      exists (groups ++ [q :: g']), [Py.strip p]. split.
      { rewrite List.map_app. simpl. now rewrite Hc, Hb. }
      split; [reflexivity|]. split.
      { apply Forall_app. split; [assumption|]. repeat constructor. discriminate. }
      split; [|assumption].
      rewrite concat_app. simpl. now rewrite app_nil_r, Hseen.
Qed.

Lemma solid_parts_cons (p : Py.str) (parts : list Py.str) :
  solid_parts (p :: parts) = solid_parts [p] ++ solid_parts parts.
Proof.
  unfold solid_parts. cbn [List.map List.filter].
  now destruct (negb (bool_decide (Py.strip p = []))).
Qed.

Lemma chunk_loop_grouped (max_len : Z) (parts : list Py.str) :
  forall (chunks : list Py.str) (buf : Py.str) (seen : list Py.str),
    grouped chunks buf seen ->
    Forall (chunk_ok max_len) (solid_parts parts) ->
    exists chunks' buf',
      chunk_loop max_len (chunks, buf) parts = Some (chunks', buf')
      /\ grouped chunks' buf' (seen ++ solid_parts parts).
Proof.
  induction parts as [|p parts IH]; intros chunks buf seen Hg Hlen; cbn [chunk_loop].
  - exists chunks, buf. split; [reflexivity|]. unfold solid_parts. simpl.
    now rewrite app_nil_r.
  - rewrite solid_parts_cons in Hlen. apply Forall_app in Hlen. destruct Hlen as [Hp Hrest].
    assert (Hpl : Py.strip p = [] \/ Py.len (Py.strip p) <= max_len).
    { unfold solid_parts in Hp. cbn [List.map List.filter] in Hp.
      destruct (decide (Py.strip p = [])) as [He|Hne]; [now left|right].
      rewrite (bool_decide_eq_false_2 _ Hne) in Hp. now inversion Hp. }
    destruct (chunk_step_grouped max_len chunks buf p seen Hg Hpl)
      as (chunks1 & buf1 & Hs1 & Hg1).
    rewrite Hs1. destruct (IH chunks1 buf1 _ Hg1 Hrest) as (chunks2 & buf2 & Hs2 & Hg2).
    exists chunks2, buf2. split; [assumption|].
    now rewrite solid_parts_cons, app_assoc.
Qed.

(** C5, against the code: the remainder of a hard-split paragraph loses
    its leading blank when the next paragraph is joined to it, so the
    chunks put together do not give back the paragraph "abcde f". *)
Lemma chunk_text_drops_blank :
  chunk_text digest_with_long_paragraph 5
  = Some [Py.lit "abcde"; Py.lit "f" ++ [Py.NEWLINE; Py.NEWLINE] ++ Py.lit "q"]
  /\ paragraphs digest_with_long_paragraph = [Py.lit "abcde f"; Py.lit "q"]
  /\ concat (flat_map Py.split_blank
               [Py.lit "abcde"; Py.lit "f" ++ [Py.NEWLINE; Py.NEWLINE] ++ Py.lit "q"])
     <> concat (paragraphs digest_with_long_paragraph).
Proof.
  split; [vm_compute; reflexivity|]. split; [vm_compute; reflexivity|].
  vm_compute. discriminate.
Qed.

Lemma hard_split_rest (max_len : Z) (fuel : nat) :
  1 <= max_len ->
  forall (p : Py.str) cs r,
    hard_split fuel max_len p = Some (cs, r) -> p <> [] -> r <> [].
Proof.
  intros Hm. induction fuel as [|fuel IH]; intros p cs r H Hp; [discriminate|].
  simpl in H. destruct (Z.ltb_spec max_len (Py.len p)) as [Hlong|Hshort].
  - destruct (hard_split fuel max_len (Py.slice_from p max_len)) as [[cs' r']|] eqn:E;
      [|discriminate].
    injection H as <- <-. apply (IH _ _ _ E).
    pose proof (slice_from_length p max_len ltac:(lia)) as Hl.
    intros Hnil. rewrite Hnil in Hl. unfold Py.len in *. simpl in Hl. lia.
  - now injection H as <- <-.
Qed.

(** What [cut_paragraph] gives: a paragraph that is not too long is one
    whole piece; a longer one is cut into slices of full length and a rest
    that is not empty, and the pieces put end to end are the paragraph. *)
Lemma cut_paragraph_spec (max_len : Z) (p : Py.str) :
  1 <= max_len -> p <> [] ->
  exists cs r,
    cut_paragraph max_len p
    = List.map (fun c => (SLICE, c)) cs
      ++ [(match cs with [] => WHOLE | _ :: _ => REST end, r)]
    /\ hard_split (S (length p)) max_len p = Some (cs, r)
    /\ concat cs ++ r = p
    /\ Forall (fun c => Py.len c = max_len) cs
    /\ 1 <= Py.len r <= max_len
    /\ (Py.len p <= max_len <-> cs = []).
Proof.
  intros Hm Hp. unfold cut_paragraph.
  destruct (hard_split_spec max_len (S (length p)) Hm p ltac:(lia))
    as (cs & r & E & Hcat & Hcs & Hr & Hshort).
  rewrite E. exists cs, r. repeat split; try assumption.
  - pose proof (hard_split_rest max_len _ Hm p cs r E Hp) as Hne.
    destruct r; [contradiction|]. unfold Py.len. simpl. lia.
  - intros H. now apply Hshort.
  - intros ->. simpl in Hcat. now subst r.
Qed.

Lemma rstrip_suffix (a r : Py.str) :
  r <> [] -> Py.rstrip (a ++ r) = a ++ r -> Py.rstrip r = r.
Proof.
  intros Hr. induction a as [|c a IH]; [trivial|].
  cbn [app Py.rstrip]. intros H.
  destruct (Py.rstrip (a ++ r)) as [|d s] eqn:E.
  - exfalso. assert (Hl : (2 <= length (c :: a ++ r))%nat).
    { simpl. rewrite length_app. destruct r; [contradiction|]. simpl. lia. }
    rewrite <- H in Hl. destruct (Py.isspace c); simpl in Hl; lia.
  - injection H as H. apply IH. exact H.
Qed.

Lemma lstrip_suffix (s : Py.str) : exists w, s = w ++ Py.lstrip s.
Proof.
  induction s as [|c t [w IH]]; [now exists []|]. simpl.
  destruct (Py.isspace c); [|now exists []].
  exists (c :: w). simpl. f_equal. exact IH.
Qed.

Lemma ends_visible_lstrip (x : Py.str) : ends_visible x -> solid (Py.lstrip x).
Proof.
  intros [Hne Hr].
  assert (Hl : Py.lstrip x <> []).
  { intros Hnil. apply Hne. clear Hne. induction x as [|c t IH]; [reflexivity|].
    exfalso. simpl in Hnil. destruct (Py.isspace c) eqn:Ec; [|discriminate].
    cbn [Py.rstrip] in Hr. destruct (Py.rstrip t) as [|d s] eqn:Et.
    - rewrite Ec in Hr. discriminate.
    - injection Hr as Hr. specialize (IH Hr Hnil). subst t. discriminate. }
  split; [assumption|]. split; [apply lstrip_idem|].
  destruct (lstrip_suffix x) as [w Hw]. apply (rstrip_suffix w); [assumption|].
  now rewrite <- Hw.
Qed.

Lemma lstrip_app_visible (x b : Py.str) :
  Py.lstrip x <> [] -> Py.lstrip (x ++ b) = Py.lstrip x ++ b.
Proof.
  induction x as [|c t IH]; [contradiction|]. simpl.
  destruct (Py.isspace c); [exact IH|reflexivity].
Qed.

Lemma solid_ends_visible (p : Py.str) : solid p -> ends_visible p.
Proof. intros [Hne [_ Hr]]. now split. Qed.

Lemma chunk_of_cons (x : Py.str) (ps : list Py.str) :
  ps <> [] -> chunk_of (x :: ps) = Py.join_blank (Py.lstrip x :: ps).
Proof. destruct ps; [contradiction|reflexivity]. Qed.

Lemma chunk_of_nonempty (g : list Py.str) : g <> [] -> run_ok g -> chunk_of g <> [].
Proof.
  destruct g as [|x ps]; [contradiction|]. intros _ [Hx Hps].
  destruct ps as [|q ps]; [apply Hx|].
  rewrite chunk_of_cons by discriminate.
  apply join_blank_solid; [discriminate|].
  constructor; [now apply ends_visible_lstrip|assumption].
Qed.

(** The candidate of the loop is the chunk of the run with the paragraph
    added. *)
Lemma candidate_chunk_of (g : list Py.str) (p : Py.str) :
  run_ok g -> solid p ->
  Py.strip (chunk_of g
            ++ match chunk_of g with [] => [] | _ :: _ => [Py.NEWLINE; Py.NEWLINE] end
            ++ p)
  = chunk_of (g ++ [p]).
Proof.
  intros Hg Hp. destruct g as [|x ps].
  - simpl. apply tight_strip, Hp.
  - destruct Hg as [Hx Hps].
    assert (Hsolid : Forall solid (Py.lstrip x :: ps))
      by (constructor; [now apply ends_visible_lstrip|assumption]).
    assert (Hne : chunk_of (x :: ps) <> [])
      by (apply chunk_of_nonempty; [discriminate|now split]).
    destruct (chunk_of (x :: ps)) as [|b0 b1] eqn:Eb; [contradiction|]. rewrite <- Eb.
    cbn [app]. rewrite (chunk_of_cons x (ps ++ [p])) by (destruct ps; discriminate).
    change (Py.lstrip x :: ps ++ [p]) with ((Py.lstrip x :: ps) ++ [p]).
    rewrite join_blank_snoc.
    destruct ps as [|q ps].
    + cbn [chunk_of Py.join_blank app]. unfold Py.strip.
      destruct (ends_visible_lstrip x Hx) as [Hlne [Hll Hlr]].
      rewrite lstrip_app_visible by assumption.
      destruct Hp as [Hpne [_ Hpr]].
      pose proof (rstrip_app_fixed (Py.lstrip x ++ [Py.NEWLINE; Py.NEWLINE]) p Hpne Hpr)
        as Hr'.
      rewrite <- app_assoc in Hr'. exact Hr'.
    + rewrite chunk_of_cons by discriminate.
      apply tight_strip.
      destruct (join_blank_solid (Py.lstrip x :: q :: ps) ltac:(discriminate) Hsolid)
        as [Hjne Hjt].
      apply strip_between; [assumption|apply Hp|assumption|apply Hp].
Qed.

Lemma join_blank_length_last (g : list Py.str) (p : Py.str) :
  Py.len p <= Py.len (Py.join_blank (g ++ [p])).
Proof.
  rewrite join_blank_snoc. destruct g; [lia|].
  unfold Py.len. rewrite !length_app. lia.
Qed.

Lemma chunk_of_length_last (g : list Py.str) (p : Py.str) :
  Py.len p <= Py.len (chunk_of (g ++ [p])).
Proof.
  destruct g as [|x ps]; [simpl; lia|].
  cbn [app]. rewrite (chunk_of_cons x (ps ++ [p])) by (destruct ps; discriminate).
  apply (join_blank_length_last (Py.lstrip x :: ps)).
Qed.

Lemma slices_alone (cs : list Py.str) :
  List.map (fun g' : list (PieceKind * Py.str) => chunk_of (List.map snd g'))
    (List.map (fun c => [(SLICE, c)]) cs) = cs
  /\ concat (List.map (fun c => [(SLICE, c)]) cs) = List.map (fun c => (SLICE, c)) cs
  /\ Forall run_shape (List.map (fun c => [(SLICE, c)]) cs).
Proof.
  induction cs as [|c cs (IH1 & IH2 & IH3)]; [repeat split; constructor|].
  simpl. rewrite IH1, IH2. repeat split. constructor; [|assumption].
  simpl. split; [constructor|reflexivity].
Qed.

Lemma flat_map_snoc {A B} (f : A -> list B) (l : list A) (x : A) :
  flat_map f (l ++ [x]) = flat_map f l ++ f x.
Proof. rewrite flat_map_app. simpl. now rewrite app_nil_r. Qed.

(** One round of the paragraph loop, whatever the length of the
    paragraph. *)
Lemma chunk_step_pieced (max_len : Z) (chunks : list Py.str) (buf p : Py.str)
      (seen : list Py.str) :
  1 <= max_len ->
  pieced max_len chunks buf seen ->
  exists chunks' buf',
    chunk_step max_len (chunks, buf) p = Some (chunks', buf')
    /\ pieced max_len chunks' buf' (seen ++ solid_parts [p]).
Proof.
  intros Hm (runs & g & Hc & Hb & Hgs & Hshape & Hg & Hseen & Hsolid).
  unfold chunk_step, solid_parts. cbn [List.map List.filter].
  pose proof (strip_tight p) as Htight.
  destruct (Py.strip p) as [|c0 p0] eqn:Ep.
  { exists chunks, buf. split; [reflexivity|]. exists runs, g.
    rewrite bool_decide_eq_true_2 by reflexivity. simpl. now rewrite app_nil_r. }
  rewrite <- Ep in *.
  assert (Hpne : Py.strip p <> []) by (rewrite Ep; discriminate).
  rewrite (bool_decide_eq_false_2 _ Hpne). cbn [negb].
  assert (Hps : solid (Py.strip p)) by now split.
  assert (Hall : Forall solid (seen ++ [Py.strip p])).
  { apply Forall_app. split; [assumption|]. constructor; [assumption|constructor]. }
  rewrite Hb, (candidate_chunk_of (List.map snd g) (Py.strip p) Hg Hps).
  destruct (cut_paragraph_spec max_len (Py.strip p) Hm Hpne)
    as (cs & r & Hcut & Hsplit & Hcat & Hcs & Hr & Hshort).
  destruct (Z.leb_spec (Py.len (chunk_of (List.map snd g ++ [Py.strip p]))) max_len)
    as [Hfit|Hbig].
  - exists chunks, (chunk_of (List.map snd g ++ [Py.strip p])). split; [reflexivity|].
    exists runs, (g ++ [(WHOLE, Py.strip p)]).
    pose proof (chunk_of_length_last (List.map snd g) (Py.strip p)) as Hlast.
    rewrite (proj1 Hshort ltac:(lia)) in Hcut, Hcat. simpl in Hcat, Hcut. subst r.
    split; [assumption|]. split; [now rewrite List.map_app|].
    split; [assumption|]. split; [|split; [|split; [|assumption]]].
    + destruct g as [|[k x] ps]; simpl.
      * split; [discriminate|constructor].
      * destruct Hshape as [Hk Hw]. split; [assumption|].
        apply Forall_app. split; [assumption|]. now repeat constructor.
    + rewrite List.map_app. cbn [List.map snd].
      destruct (List.map snd g) as [|x ps]; simpl.
      * split; [now apply solid_ends_visible|constructor].
      * destruct Hg as [Hx Hps']. split; [assumption|].
        apply Forall_app. split; [assumption|]. constructor; [exact Hps|constructor].
    + rewrite flat_map_snoc, Hcut, app_assoc, Hseen. reflexivity.
  - rewrite Hsplit.
    assert (Hrne : r <> [])
      by (destruct r; [unfold Py.len in Hr; simpl in Hr; lia|discriminate]).
    assert (Hrv : ends_visible r).
    { split; [assumption|]. apply (rstrip_suffix (concat cs)); [assumption|].
      rewrite Hcat. apply Htight. }
    destruct (slices_alone cs) as (Hmap & Hconcat & Hslices).
    set (k := match cs with [] => WHOLE | _ :: _ => REST end) in *.
    assert (Hk : k <> SLICE) by (unfold k; destruct cs; discriminate).
    eexists _, _. split; [reflexivity|].
    destruct g as [|[kx x] ps].
    + cbn [chunk_of List.map]. exists (runs ++ List.map (fun c => [(SLICE, c)]) cs), [(k, r)].
      rewrite app_nil_r in Hseen.
      split; [now rewrite List.map_app, Hmap, Hc|]. split; [reflexivity|].
      split; [apply Forall_app; now split|].
      split; [split; [assumption|constructor]|].
      split; [split; [assumption|constructor]|]. split; [|assumption].
      rewrite concat_app, Hconcat, flat_map_snoc, Hcut, <- Hseen.
      now rewrite <- !app_assoc.
    + pose proof (chunk_of_nonempty (List.map snd ((kx, x) :: ps)) ltac:(discriminate) Hg)
        as Hne.
      destruct (chunk_of (List.map snd ((kx, x) :: ps))) as [|b0 b1] eqn:Eb;
        [contradiction|]. rewrite <- Eb.
      exists (runs ++ [(kx, x) :: ps] ++ List.map (fun c => [(SLICE, c)]) cs), [(k, r)].
      split; [rewrite !List.map_app, Hmap, Hc; simpl; now rewrite <- app_assoc|].
      split; [reflexivity|].
      split.
      { apply Forall_app. split; [assumption|]. apply Forall_app. split; [|assumption].
        constructor; [|constructor]. destruct Hshape as [Hkx Hw]. simpl.
        split; [assumption|]. intros ->. contradiction. }
      split; [split; [assumption|constructor]|].
      split; [split; [assumption|constructor]|]. split; [|assumption].
      rewrite !concat_app, Hconcat, flat_map_snoc, Hcut, <- Hseen. simpl.
      rewrite app_nil_r, <- !app_assoc. simpl. now rewrite <- ?app_assoc.
Qed.

Lemma chunk_loop_pieced (max_len : Z) (parts : list Py.str) :
  1 <= max_len ->
  forall (chunks : list Py.str) (buf : Py.str) (seen : list Py.str),
    pieced max_len chunks buf seen ->
    exists chunks' buf',
      chunk_loop max_len (chunks, buf) parts = Some (chunks', buf')
      /\ pieced max_len chunks' buf' (seen ++ solid_parts parts).
Proof.
  intros Hm. induction parts as [|p parts IH]; intros chunks buf seen Hg; cbn [chunk_loop].
  - exists chunks, buf. split; [reflexivity|]. unfold solid_parts. simpl.
    now rewrite app_nil_r.
  - destruct (chunk_step_pieced max_len chunks buf p seen Hm Hg)
      as (chunks1 & buf1 & -> & Hg1).
    destruct (IH chunks1 buf1 _ Hg1) as (chunks2 & buf2 & -> & Hg2).
    exists chunks2, buf2. split; [reflexivity|].
    now rewrite solid_parts_cons, app_assoc.
Qed.

Lemma join_blank_occurs (q : Py.str) (l : list Py.str) :
  In q l -> occurs_in q (Py.join_blank l).
Proof.
  induction l as [|p l IH]; [intros []|]. intros [->|Hin].
  - destruct l as [|p' l']; [exists [], []; simpl; now rewrite app_nil_r|].
    exists [], ([Py.NEWLINE; Py.NEWLINE] ++ Py.join_blank (p' :: l')). reflexivity.
  - destruct l as [|p' l']; [destruct Hin|].
    destruct (IH Hin) as (pre & post & E).
    exists (p ++ [Py.NEWLINE; Py.NEWLINE] ++ pre), post.
    change (Py.join_blank (p :: p' :: l'))
      with (p ++ [Py.NEWLINE; Py.NEWLINE] ++ Py.join_blank (p' :: l')).
    rewrite E. now rewrite <- !app_assoc.
Qed.

(** A whole paragraph stands unbroken in the chunk of its run. *)
Lemma chunk_of_occurs (p : Py.str) (g : list Py.str) :
  solid p -> In p g -> occurs_in p (chunk_of g).
Proof.
  intros Hp Hin. destruct g as [|x ps]; [destruct Hin|].
  destruct ps as [|q ps].
  - destruct Hin as [->|[]]. exists [], []. simpl. now rewrite app_nil_r.
  - rewrite chunk_of_cons by discriminate. apply join_blank_occurs.
    destruct Hin as [->|Hin]; [left|now right].
    destruct Hp as [_ [Hl _]]. exact Hl.
Qed.

(** C5, as the code has it: for [max_len >= 1] the chunker returns chunks
    of at most [max_len] characters whose visible characters are those of
    the text, in order.  A stripped text that fits is the only chunk.
    Otherwise the paragraphs of the text are cut into pieces, a paragraph
    that is not too long being one whole piece and a longer one slices of
    full length and a rest; the chunks are, in order, runs of consecutive
    pieces: a slice stands alone, every other run is a whole paragraph or
    a rest followed by whole paragraphs, joined by blank lines, the first
    piece without its leading blanks when others follow it.  So every
    paragraph that is not too long stands unbroken in a chunk, and when no
    paragraph is too long every chunk is a group of whole consecutive
    paragraphs joined by blank lines. *)
Theorem chunk_text_chunks (text : Py.str) (max_len : Z) :
  1 <= max_len ->
  exists chunks,
    chunk_text text max_len = Some chunks
    /\ Forall (fun c => Py.len c <= max_len) chunks
    /\ visible (concat chunks) = visible text
    /\ (Py.len (Py.strip text) <= max_len -> chunks = [Py.strip text])
    /\ (max_len < Py.len (Py.strip text) ->
        Forall (fun p => Py.len p <= max_len) (paragraphs text) ->
        exists groups,
          Forall (fun g => g <> []) groups
          /\ concat groups = paragraphs text
          /\ chunks = List.map Py.join_blank groups)
    /\ (max_len < Py.len (Py.strip text) ->
        exists runs : list (list (PieceKind * Py.str)),
          chunks = List.map (fun g => chunk_of (List.map snd g)) runs
          /\ concat runs = flat_map (cut_paragraph max_len) (paragraphs text)
          /\ Forall run_shape runs
          /\ (forall p, In p (paragraphs text) ->
                exists cs r,
                  cut_paragraph max_len p
                  = List.map (fun c => (SLICE, c)) cs
                    ++ [(match cs with [] => WHOLE | _ :: _ => REST end, r)]
                  /\ concat cs ++ r = p
                  /\ Forall (fun c => Py.len c = max_len) cs
                  /\ 1 <= Py.len r <= max_len
                  /\ (Py.len p <= max_len <-> cs = []))
          /\ (forall p, In p (paragraphs text) -> Py.len p <= max_len ->
                exists c, In c chunks /\ occurs_in p c)).
Proof.
  intros Hm. unfold chunk_text, paragraphs.
  pose proof (visible_strip text) as Hv.
  destruct (Py.strip text) as [|c0 t0] eqn:Et.
  { exists [[]]. split; [reflexivity|]. split; [repeat constructor; unfold Py.len; simpl; lia|].
    split; [now rewrite <- Hv|]. split; [reflexivity|].
    split; unfold Py.len; simpl; lia. }
  rewrite <- Et in *. clear c0 t0 Et.
  destruct (Z.leb_spec (Py.len (Py.strip text)) max_len) as [Hfit|Hbig].
  { exists [Py.strip text]. split; [reflexivity|].
    split; [repeat constructor; assumption|].
    split; [simpl; now rewrite app_nil_r|]. split; [reflexivity|]. split; lia. }
  destruct (chunk_loop_spec max_len (Py.split_blank (Py.strip text)) Hm [] [])
    as (chunks & buf & Hloop & Hok & Hbuf & Hvis);
    [constructor|unfold Py.len; simpl; lia|].
  rewrite Hloop. simpl in Hvis. rewrite visible_split, Hv in Hvis.
  exists (match buf with [] => chunks | _ :: _ => chunks ++ [buf] end).
  split; [reflexivity|]. split; [|split; [|split; [lia|split]]].
  - destruct buf; [assumption|]. apply Forall_app. split; [assumption|].
    now repeat constructor.
  - rewrite <- Hvis. destruct buf; [now rewrite app_nil_r|].
    rewrite concat_app. simpl. now rewrite app_nil_r.
  - intros _ Hshort.
    destruct (chunk_loop_grouped max_len (Py.split_blank (Py.strip text)) [] [] [])
      as (chunks' & buf' & Hloop' & groups & g & Hc & Hb & Hg & Hseen & Hsolid).
    { exists [], []. repeat split; constructor. }
    { exact Hshort. }
    rewrite Hloop in Hloop'. injection Hloop' as <- <-. simpl in Hseen, Hsolid.
    fold (solid_parts (Py.split_blank (Py.strip text))).
    assert (Hgs : Forall solid g).
    { rewrite <- Hseen in Hsolid. apply Forall_app in Hsolid. tauto. }
    destruct g as [|q g'].
    + exists groups. rewrite Hb. simpl. rewrite app_nil_r in Hseen. now repeat split.
    + destruct (join_blank_solid (q :: g') ltac:(discriminate) Hgs) as [Hne _].
      rewrite <- Hb in Hne. destruct buf as [|b buf'] eqn:Eb; [contradiction|].
      exists (groups ++ [q :: g']). split; [|split].
      * apply Forall_app. split; [assumption|]. repeat constructor. discriminate.
      * rewrite concat_app. simpl. now rewrite app_nil_r.
      * rewrite List.map_app. simpl. now rewrite Hc, Hb.
  - intros _.
    destruct (chunk_loop_pieced max_len (Py.split_blank (Py.strip text)) Hm [] [] [])
      as (chunks' & buf' & Hloop' & runs & g & Hc & Hb & Hruns & Hopen & Hg & Hseen & Hsolid).
    { exists [], []. repeat split; constructor. }
    rewrite Hloop in Hloop'. injection Hloop' as <- <-. simpl in Hseen, Hsolid.
    set (paras := solid_parts (Py.split_blank (Py.strip text))) in *.
    assert (Hfinal :
              exists runs',
                match buf with [] => chunks | _ :: _ => chunks ++ [buf] end
                = List.map (fun g' => chunk_of (List.map snd g')) runs'
                /\ concat runs' = flat_map (cut_paragraph max_len) paras
                /\ Forall run_shape runs').
    { destruct g as [|[k x] ps].
      - exists runs. rewrite Hb. simpl. rewrite app_nil_r in Hseen. now repeat split.
      - pose proof (chunk_of_nonempty (List.map snd ((k, x) :: ps)) ltac:(discriminate) Hg)
          as Hne.
        rewrite <- Hb in Hne. destruct buf as [|b0 b1] eqn:Eb; [contradiction|].
        exists (runs ++ [(k, x) :: ps]). split; [|split].
        + rewrite List.map_app. simpl. now rewrite Hc, Hb.
        + rewrite concat_app. simpl. now rewrite app_nil_r.
        + apply Forall_app. split; [assumption|]. constructor; [|constructor].
          destruct Hopen as [Hk Hw]. simpl. split; [assumption|]. intros ->. contradiction. }
    destruct Hfinal as (runs' & Hchunks & Hcat & Hshape).
    exists runs'. split; [assumption|]. split; [assumption|]. split; [assumption|].
    assert (Hpara : forall p, In p paras -> solid p)
      by (intros p; apply (proj1 (List.Forall_forall _ _) Hsolid)).
    split.
    + intros p Hin.
      destruct (cut_paragraph_spec max_len p Hm (proj1 (Hpara p Hin)))
        as (cs & r & Hcut & _ & Hrest).
      exists cs, r. now split.
    + intros p Hin Hlen.
      destruct (cut_paragraph_spec max_len p Hm (proj1 (Hpara p Hin)))
        as (cs & r & Hcut & _ & Hcs & _ & _ & Hshort).
      rewrite (proj1 Hshort Hlen) in Hcut, Hcs. simpl in Hcut, Hcs. subst r.
      assert (Hpiece : In (WHOLE, p) (concat runs')).
      { rewrite Hcat. apply in_flat_map. exists p. split; [assumption|].
        rewrite Hcut. now left. }
      apply in_concat in Hpiece. destruct Hpiece as (g' & Hg' & Hpg).
      exists (chunk_of (List.map snd g')). split.
      * rewrite Hchunks. apply in_map_iff. now exists g'.
      * apply chunk_of_occurs; [now apply Hpara|].
        apply in_map_iff. now exists (WHOLE, p).
Qed.

Lemma chunk_text_chunks_witness :
  1 <= 6
  /\ exists chunks,
       chunk_text digest_two_paragraphs 6 = Some chunks
       /\ Forall (fun c => Py.len c <= 6) chunks.
Proof.
  split; [lia|].
  destruct (chunk_text_chunks digest_two_paragraphs 6 ltac:(lia))
    as (chunks & Hc & Hlen & _).
  now exists chunks.
Defined.

Example chunk_text_two_paragraphs :
  chunk_text digest_two_paragraphs 6 = Some [Py.lit "abc de"; Py.lit "fgh"].
Proof. vm_compute. reflexivity. Qed.

(** The runs of the text with a paragraph that is too long: the slice
    stands alone, the rest opens the run that the next paragraph joins
    and loses its leading blank there. *)
Example chunk_text_runs_of_long_paragraph :
  flat_map (cut_paragraph 5) (paragraphs digest_with_long_paragraph)
  = [(SLICE, Py.lit "abcde"); (REST, Py.lit " f"); (WHOLE, Py.lit "q")]
  /\ chunk_text digest_with_long_paragraph 5
     = Some (List.map (fun g => chunk_of (List.map snd g))
               [[(SLICE, Py.lit "abcde")]; [(REST, Py.lit " f"); (WHOLE, Py.lit "q")]]).
Proof. split; vm_compute; reflexivity. Qed.

(* ================================================================== *)
(** * Further properties of the script *)
(* ================================================================== *)

Ltac each_char :=
  cbv [Py.lit List.map list_ascii_of_string];
  repeat (constructor; [repeat split; first [reflexivity | discriminate]|]);
  constructor.

(* ================================================================== *)
(** ** [normalize_space] *)
(* ================================================================== *)

Lemma allspace_visible s : allspace s <-> visible s = [].
Proof.
  unfold allspace, visible. induction s as [|c t IH]; simpl.
  - split; [reflexivity|constructor].
  - destruct (Py.isspace c) eqn:E; simpl.
    + rewrite <- IH. split; [now inversion 1|now constructor].
    + split; [inversion 1; congruence|discriminate].
Qed.

Lemma strip_nil_iff s : Py.strip s = [] <-> allspace s.
Proof.
  split; [|apply strip_allspace].
  intros H. apply allspace_visible. now rewrite <- visible_strip, H.
Qed.

Lemma visible_collapse s : forall b, visible (collapse_space b s) = visible s.
Proof.
  unfold visible. induction s as [|c t IH]; intros b; [reflexivity|].
  simpl. destruct (Py.isspace c) eqn:E.
  - destruct b; simpl; apply IH.
  - simpl. rewrite E. simpl. now rewrite IH.
Qed.

(** A second pass of the collapse changes nothing. *)
Lemma collapse_collapse s :
  forall b b', (b' = true -> b = true) ->
               collapse_space b' (collapse_space b s) = collapse_space b s.
Proof.
  induction s as [|c t IH]; intros b b' Hb; [reflexivity|].
  simpl. destruct (Py.isspace c) eqn:E.
  - destruct b.
    + now apply IH.
    + destruct b'; [now discriminate Hb|]. simpl. f_equal. now apply IH.
  - simpl. rewrite E. f_equal. apply IH. discriminate.
Qed.

Lemma collapse_length s : forall b, (length (collapse_space b s) <= length s)%nat.
Proof.
  induction s as [|c t IH]; intros b; simpl; [lia|].
  destruct (Py.isspace c); [destruct b|]; simpl;
    try (pose proof (IH true)); try (pose proof (IH false)); lia.
Qed.

(** The collapse works left to right: on [p ++ q] it is the collapse of
    [p] followed by a collapse of [q]. *)
Lemma collapse_app p : forall b q,
  exists b', collapse_space b (p ++ q) = collapse_space b p ++ collapse_space b' q.
Proof.
  induction p as [|c p IH]; intros b q; [now exists b|].
  simpl. destruct (Py.isspace c).
  - destruct (IH true q) as [b' ->]. exists b'. now destruct b.
  - destruct (IH false q) as [b' ->]. now exists b'.
Qed.

(** A text that the collapse leaves as it is. *)
Lemma collapsed_prefix (p q : Py.str) :
  collapse_space false (p ++ q) = p ++ q -> collapse_space false p = p.
Proof.
  intros H. destruct (collapse_app p false q) as [b' Hb]. rewrite Hb in H.
  pose proof (collapse_length p false) as Hp. pose proof (collapse_length q b') as Hq.
  assert (Hl : length (collapse_space false p) = length p).
  { apply (f_equal (@length N)) in H. rewrite !length_app in H. lia. }
  apply app_eq_app in H. destruct H as [l [[H1 H2]|[H1 H2]]].
  - assert (Hll : length l = 0%nat).
    { apply (f_equal (@length N)) in H1. rewrite length_app in H1. lia. }
    destruct l; [now rewrite app_nil_r in H1|discriminate].
  - assert (Hll : length l = 0%nat).
    { apply (f_equal (@length N)) in H1. rewrite length_app in H1. lia. }
    destruct l; [now rewrite app_nil_r in H1|discriminate].
Qed.

Lemma rstrip_split s : exists w, s = Py.rstrip s ++ w.
Proof.
  induction s as [|c t [w IH]]; [now exists []|]. simpl.
  destruct (Py.rstrip t) as [|d r] eqn:E.
  - destruct (Py.isspace c); [now exists (c :: t)|now exists t].
  - exists w. simpl. f_equal. exact IH.
Qed.

Lemma collapsed_rstrip s :
  collapse_space false s = s -> collapse_space false (Py.rstrip s) = Py.rstrip s.
Proof.
  intros H. destruct (rstrip_split s) as [w Hw]. rewrite Hw in H.
  now apply collapsed_prefix in H.
Qed.

Lemma collapse_head_nonspace c t b :
  Py.isspace c = false -> collapse_space b (c :: t) = collapse_space false (c :: t).
Proof. intros H. simpl. now rewrite H. Qed.

Lemma collapsed_lstrip s :
  collapse_space false s = s -> collapse_space false (Py.lstrip s) = Py.lstrip s.
Proof.
  destruct s as [|c t]; [reflexivity|]. simpl.
  destruct (Py.isspace c) eqn:E; [|simpl; rewrite ?E; trivial].
  intros [= Hc Ht].
  (* after one space the rest starts with a visible character *)
  destruct t as [|d t']; [reflexivity|]. simpl in Ht |- *.
  destruct (Py.isspace d) eqn:Ed.
  - exfalso. pose proof (collapse_length t' true) as Hl.
    apply (f_equal (@length N)) in Ht. simpl in Ht. lia.
  - simpl. rewrite Ed. exact Ht.
Qed.

Lemma normalize_space_collapsed s :
  collapse_space false (normalize_space s) = normalize_space s.
Proof.
  unfold normalize_space, Py.strip.
  apply collapsed_rstrip, collapsed_lstrip. apply collapse_collapse. discriminate.
Qed.

(** X1: normalising twice is normalising once. *)
Theorem normalize_space_idempotent (s : Py.str) :
  normalize_space (normalize_space s) = normalize_space s.
Proof.
  unfold normalize_space at 1. rewrite normalize_space_collapsed.
  apply tight_strip. unfold normalize_space. apply strip_tight.
Qed.

Lemma normalize_space_nil s : normalize_space s = [] <-> allspace s.
Proof.
  unfold normalize_space. rewrite strip_nil_iff, !allspace_visible.
  now rewrite visible_collapse.
Qed.

(** X2: normalising keeps the visible characters in order, and the result
    is empty exactly for a text of blanks only. *)
Theorem normalize_space_visible (s : Py.str) :
  visible (normalize_space s) = visible s
  /\ (normalize_space s = [] <-> allspace s).
Proof.
  unfold normalize_space. split.
  - now rewrite visible_strip, visible_collapse.
  - apply normalize_space_nil.
Qed.

Lemma lstrip_split s : exists w, s = w ++ Py.lstrip s.
Proof.
  induction s as [|c t [w IH]]; [now exists []|]. simpl.
  destruct (Py.isspace c); [|now exists []].
  exists (c :: w). simpl. f_equal. exact IH.
Qed.

(** The stripped text sits inside the text. *)
Lemma strip_split s : exists w1 w2, s = w1 ++ Py.strip s ++ w2.
Proof.
  destruct (lstrip_split s) as [w1 H1]. unfold Py.strip.
  destruct (rstrip_split (Py.lstrip s)) as [w2 H2].
  exists w1, w2. now rewrite <- H2.
Qed.

Lemma occurs_in_strip t s : occurs_in t (Py.strip s) -> occurs_in t s.
Proof.
  intros (pre & post & H). destruct (strip_split s) as (w1 & w2 & Hs).
  exists (w1 ++ pre), (post ++ w2). rewrite Hs, H. now rewrite <- !app_assoc.
Qed.

Lemma space_is_blank c : Py.isspace c = false -> (Py.SPACE =? c)%N = false.
Proof.
  intros H. destruct (N.eqb_spec Py.SPACE c) as [<-|]; [discriminate H|reflexivity].
Qed.

Lemma contains_cons t c s :
  Py.contains t (c :: s) = Py.startswith t (c :: s) || Py.contains t s.
Proof. reflexivity. Qed.

Lemma collapse_no_double s :
  forall b,
    Py.contains [Py.SPACE; Py.SPACE] (collapse_space b s) = false
    /\ (b = true -> head (collapse_space b s) <> Some Py.SPACE).
Proof.
  induction s as [|c t IH]; intros b; [split; [reflexivity|discriminate]|].
  cbn [collapse_space]. destruct (Py.isspace c) eqn:E.
  - destruct (IH true) as [H1 H2]. destruct b; [split; [assumption|now intros _; apply H2]|].
    split; [|discriminate]. specialize (H2 eq_refl).
    rewrite contains_cons, H1, orb_false_r.
    destruct (collapse_space true t) as [|x X]; [reflexivity|].
    cbn [Py.startswith]. rewrite N.eqb_refl.
    destruct (N.eqb_spec Py.SPACE x) as [<-|]; [now elim H2|reflexivity].
  - destruct (IH false) as [H1 _]. pose proof (space_is_blank c E) as Hc.
    split.
    + rewrite contains_cons, H1, orb_false_r. cbn [Py.startswith]. now rewrite Hc.
    + intros _. simpl. intros [= ->]. discriminate E.
Qed.

Lemma collapse_blanks_are_spaces s :
  forall b, Forall (fun c => Py.isspace c = true -> c = Py.SPACE) (collapse_space b s).
Proof.
  induction s as [|c t IH]; intros b; [constructor|]. simpl.
  destruct (Py.isspace c) eqn:E.
  - destruct b; [apply IH|]. constructor; [reflexivity|apply IH].
  - constructor; [congruence|apply IH].
Qed.

(** X3: a normalised text has no blank at either end, its only blanks are
    spaces, and no two spaces stand side by side. *)
Theorem normalize_space_shape (s : Py.str) :
  tight (normalize_space s)
  /\ Forall (fun c => Py.isspace c = true -> c = Py.SPACE) (normalize_space s)
  /\ ~ occurs_in [Py.SPACE; Py.SPACE] (normalize_space s).
Proof.
  unfold normalize_space. split; [apply strip_tight|]. split.
  - destruct (strip_split (collapse_space false s)) as (w1 & w2 & H).
    pose proof (collapse_blanks_are_spaces s false) as Hall.
    rewrite H in Hall. apply Forall_app in Hall. destruct Hall as [_ Hall].
    apply Forall_app in Hall. tauto.
  - intros H. apply occurs_in_strip in H. apply contains_spec in H.
    now rewrite (proj1 (collapse_no_double s false)) in H.
Qed.

(** X4: an entry whose raw title is blank is skipped by the loop. *)
Theorem blank_title_skipped lower ratio safe_text score_of LOOKBACK_HOURS
        DUPLICATE_THRESHOLD now (src : Py.str) (st : RankState) (parsed : option Z)
        (raw_title raw_link extracted_summary : Py.str) :
  allspace raw_title ->
  process_entry lower ratio safe_text score_of LOOKBACK_HOURS DUPLICATE_THRESHOLD now
    src st (read_entry parsed raw_title raw_link extracted_summary)
  = st.
Proof.
  intros H. unfold process_entry, read_entry. cbn [e_published e_title].
  rewrite (proj2 (normalize_space_nil raw_title) H).
  destruct parsed as [p|]; [|reflexivity].
  now destruct (p <? cutoff LOOKBACK_HOURS now).
Qed.

Lemma blank_title_skipped_witness :
  process_entry ascii_lower same_ratio Py.strip (fun _ => 0%Q) 72 (93 # 100) 0
    (Py.lit "Dark Reading") (mkRank [] [] ∅)
    (read_entry (Some 0) (Py.lit "  ") (Py.lit "https://example.org/1") (Py.lit "One"))
  = mkRank [] [] ∅.
Proof. apply blank_title_skipped. unfold allspace. each_char. Defined.

(* ================================================================== *)
(** ** [canonical_link] *)
(* ================================================================== *)

Lemma to_line_end_sublist t rest : to_line_end t = Some rest -> sublist rest t.
Proof.
  revert rest. induction t as [|c t IH]; intros rest; simpl.
  - intros [= <-]. constructor.
  - destruct (c =? Py.NEWLINE)%N eqn:E.
    + destruct t; [|discriminate]. intros [= <-].
      apply N.eqb_eq in E. subst c. reflexivity.
    + intros H. apply sublist_cons. now apply IH.
Qed.

Lemma drop_fragment_sublist s : sublist (drop_fragment s) s.
Proof.
  induction s as [|c t IH]; simpl; [constructor|].
  destruct (c =? HASH)%N; [|now apply sublist_skip].
  destruct (to_line_end t) as [rest|] eqn:E; [|now apply sublist_skip].
  apply sublist_cons. now apply to_line_end_sublist.
Qed.

Lemma delete_matches_sublist m s : forall k, sublist (delete_matches m k s) s.
Proof.
  induction s as [|c t IH]; intros k; simpl; [constructor|].
  destruct k; [|apply sublist_cons, IH].
  destruct (m (c :: t)) as [[|j]|]; try (apply sublist_skip, IH).
  apply sublist_cons, IH.
Qed.

Lemma drop_bare_qmark_sublist s : sublist (drop_bare_qmark s) s.
Proof.
  induction s as [|c t IH]; simpl; [constructor|].
  destruct ((c =? QMARK)%N && _); [now apply sublist_cons|now apply sublist_skip].
Qed.

Lemma strip_sublist s : sublist (Py.strip s) s.
Proof.
  destruct (strip_split s) as (w1 & w2 & H). rewrite H at 2.
  apply sublist_inserts_l, sublist_inserts_r. reflexivity.
Qed.

(** X5: canonicalising only deletes characters: the result is the link
    with some characters left out, in the same order, so it is never
    longer than the link. *)
Theorem canonical_link_only_deletes (link : Py.str) :
  sublist (canonical_link link) link
  /\ (length (canonical_link link) <= length link)%nat.
Proof.
  assert (H : sublist (canonical_link link) link).
  { unfold canonical_link.
    etrans; [apply drop_bare_qmark_sublist|].
    etrans; [apply delete_matches_sublist|].
    etrans; [apply delete_matches_sublist|].
    etrans; [apply drop_fragment_sublist|apply strip_sublist]. }
  split; [assumption|now apply sublist_length].
Qed.

Lemma plain_nonspace s : plain_url_part s -> nonspace s.
Proof. intros H. eapply Forall_impl; [exact H|]. now intros c [Hc _]. Qed.

Lemma drop_fragment_no_hash s :
  Forall (fun c => c <> HASH) s -> drop_fragment s = s.
Proof.
  induction 1 as [|c t Hc Ht IH]; simpl; [reflexivity|].
  destruct (N.eqb_spec c HASH); [contradiction|now rewrite IH].
Qed.

Lemma match_utm_needs_start c t : is_param_start c = false -> match_utm (c :: t) = None.
Proof. intros H. unfold match_utm. now rewrite H. Qed.

Lemma match_ref_needs_start c t : is_param_start c = false -> match_ref (c :: t) = None.
Proof. intros H. unfold match_ref. now rewrite H. Qed.

Lemma delete_matches_no_start m s :
  (forall c t, is_param_start c = false -> m (c :: t) = None) ->
  Forall (fun c => is_param_start c = false) s ->
  delete_matches m 0 s = s.
Proof.
  intros Hm. induction 1 as [|c t Hc Ht IH]; simpl; [reflexivity|].
  now rewrite (Hm c t Hc), IH.
Qed.

Lemma drop_bare_qmark_no_qmark s :
  Forall (fun c => is_param_start c = false) s -> drop_bare_qmark s = s.
Proof.
  induction 1 as [|c t Hc Ht IH]; simpl; [reflexivity|].
  unfold is_param_start in Hc. apply orb_false_iff in Hc. destruct Hc as [Hq _].
  rewrite Hq. simpl. now rewrite IH.
Qed.

Lemma plain_no_hash s : plain_url_part s -> Forall (fun c => c <> HASH) s.
Proof. intros H. eapply Forall_impl; [exact H|]. now intros c (_ & Hc & _). Qed.

Lemma plain_no_start s : plain_url_part s -> Forall (fun c => is_param_start c = false) s.
Proof. intros H. eapply Forall_impl; [exact H|]. now intros c (_ & _ & Hc). Qed.

(** The part of [canonical_link] that follows the strip and the removal of
    the fragment. *)
Lemma query_steps_plain s :
  plain_url_part s ->
  drop_bare_qmark (delete_matches match_ref 0 (delete_matches match_utm 0 s)) = s.
Proof.
  intros H. pose proof (plain_no_start s H) as Hs.
  rewrite (delete_matches_no_start match_utm s match_utm_needs_start Hs).
  rewrite (delete_matches_no_start match_ref s match_ref_needs_start Hs).
  now apply drop_bare_qmark_no_qmark.
Qed.

Lemma canonical_link_plain_eq s : plain_url_part s -> canonical_link s = s.
Proof.
  intros H. unfold canonical_link.
  rewrite (strip_nonspace s (plain_nonspace s H)).
  rewrite (drop_fragment_no_hash s (plain_no_hash s H)).
  now apply query_steps_plain.
Qed.

Lemma to_line_end_nonspace f : nonspace f -> to_line_end f = Some [].
Proof.
  induction 1 as [|c t Hc Ht IH]; simpl; [reflexivity|].
  destruct (N.eqb_spec c Py.NEWLINE) as [->|]; [discriminate Hc|assumption].
Qed.

Lemma drop_fragment_cut u f :
  Forall (fun c => c <> HASH) u -> nonspace f ->
  drop_fragment (u ++ HASH :: f) = u.
Proof.
  intros Hu Hf. induction Hu as [|c t Hc Ht IH]; simpl.
  - now rewrite (to_line_end_nonspace f Hf).
  - destruct (N.eqb_spec c HASH); [contradiction|now rewrite IH].
Qed.

(** X6: a link made of plain characters is its own canonical form, and a
    fragment after it does not change the canonical form. *)
Theorem canonical_link_fragment (u f : Py.str) :
  plain_url_part u -> nonspace f ->
  canonical_link u = u /\ canonical_link (u ++ [HASH] ++ f) = u.
Proof.
  intros Hu Hf. split; [now apply canonical_link_plain_eq|].
  unfold canonical_link.
  assert (Hall : nonspace (u ++ [HASH] ++ f)).
  { apply nonspace_app. split; [now apply plain_nonspace|].
    apply (nonspace_app [HASH] f). split; [now repeat constructor|assumption]. }
  rewrite (strip_nonspace _ Hall). simpl.
  rewrite (drop_fragment_cut u f (plain_no_hash u Hu) Hf).
  now apply query_steps_plain.
Qed.

Lemma canonical_link_fragment_witness :
  canonical_link (Py.lit "https://example.org/a") = Py.lit "https://example.org/a"
  /\ canonical_link (Py.lit "https://example.org/a" ++ [HASH] ++ Py.lit "top")
     = Py.lit "https://example.org/a".
Proof.
  apply canonical_link_fragment; [unfold plain_url_part|unfold nonspace]; each_char.
Defined.

Lemma span_len_all ok (k rest : Py.str) :
  Forall (fun c => ok c = true) k ->
  match rest with [] => True | e :: _ => ok e = false end ->
  span_len ok (k ++ rest) = length k /\ skipn (length k) (k ++ rest) = rest.
Proof.
  intros Hk Hrest. induction Hk as [|c t Hc Ht IH]; simpl.
  - split; [|reflexivity]. destruct rest as [|e r]; [reflexivity|]. simpl. now rewrite Hrest.
  - rewrite Hc. destruct IH as [-> ->]. now split.
Qed.

Lemma delete_matches_skip_all m (t : Py.str) :
  forall n, (length t <= n)%nat -> delete_matches m n t = [].
Proof.
  induction t as [|c t IH]; intros n Hn; [reflexivity|].
  simpl in *. destruct n; [lia|]. apply IH. lia.
Qed.

(** Before a match that takes the rest of the link, nothing is deleted. *)
Lemma delete_matches_tail m (base tail : Py.str) (c : N) :
  (forall c t, is_param_start c = false -> m (c :: t) = None) ->
  Forall (fun c => is_param_start c = false) base ->
  m (c :: tail) = Some (S (length tail)) ->
  delete_matches m 0 (base ++ c :: tail) = base.
Proof.
  intros Hm Hbase Hmatch. induction Hbase as [|b base Hb Hrest IH]; simpl.
  - rewrite Hmatch. now apply delete_matches_skip_all.
  - now rewrite (Hm b _ Hb), IH.
Qed.

(** Around a parameter start that begins no match, nothing is deleted. *)
Lemma delete_matches_none m (base tail : Py.str) (c : N) :
  (forall c t, is_param_start c = false -> m (c :: t) = None) ->
  Forall (fun c => is_param_start c = false) base ->
  Forall (fun c => is_param_start c = false) tail ->
  m (c :: tail) = None ->
  delete_matches m 0 (base ++ c :: tail) = base ++ c :: tail.
Proof.
  intros Hm Hbase Htail Hmatch. induction Hbase as [|b base Hb Hrest IH]; simpl.
  - rewrite Hmatch. f_equal. now apply delete_matches_no_start.
  - now rewrite (Hm b _ Hb), IH.
Qed.

Lemma lit_utm : Py.lit "utm_" = [117; 116; 109; 95]%N.
Proof. reflexivity. Qed.

Lemma lit_ref : Py.lit "ref=" = [114; 101; 102; 61]%N.
Proof. reflexivity. Qed.

Lemma match_utm_param (k v : Py.str) :
  k <> [] -> v <> [] ->
  Forall (fun c => negb ((c =? EQUALS)%N || (c =? AMP)%N) = true) k ->
  Forall (fun c => negb (c =? AMP)%N = true) v ->
  match_utm (QMARK :: Py.lit "utm_" ++ k ++ EQUALS :: v)
  = Some (S (length (Py.lit "utm_" ++ k ++ EQUALS :: v))).
Proof.
  intros Hk Hv Hkk Hvv. unfold match_utm. rewrite lit_utm.
  cbn [Py.startswith app skipn]. rewrite !N.eqb_refl.
  change (is_param_start QMARK) with true. cbn [andb]. rewrite !skipn_O.
  destruct (span_len_all (fun c => negb ((c =? EQUALS)%N || (c =? AMP)%N)) k (EQUALS :: v) Hkk)
    as [Hs Hd]; [reflexivity|].
  destruct (span_len_all (fun c => negb (c =? AMP)%N) v [] Hvv I) as [Hs' _].
  rewrite app_nil_r in Hs'.
  rewrite Hs. destruct k as [|k0 k']; [contradiction|]. cbn [length] in *.
  rewrite Hd, N.eqb_refl, Hs'.
  destruct v as [|v0 v']; [contradiction|]. cbn [length]. f_equal.
  rewrite !length_app. cbn [length]. lia.
Qed.

Lemma match_ref_param (v : Py.str) :
  v <> [] -> Forall (fun c => negb (c =? AMP)%N = true) v ->
  match_ref (QMARK :: Py.lit "ref=" ++ v) = Some (S (length (Py.lit "ref=" ++ v))).
Proof.
  intros Hv Hvv. unfold match_ref. rewrite lit_ref.
  cbn [Py.startswith app skipn]. rewrite !N.eqb_refl.
  change (is_param_start QMARK) with true. cbn [andb]. rewrite !skipn_O.
  destruct (span_len_all (fun c => negb (c =? AMP)%N) v [] Hvv I) as [Hs _].
  rewrite app_nil_r in Hs. rewrite Hs.
  destruct v as [|v0 v']; [contradiction|]. reflexivity.
Qed.

Lemma plain_not_amp s : plain_url_part s -> Forall (fun c => negb (c =? AMP)%N = true) s.
Proof.
  intros H. eapply Forall_impl; [exact H|]. intros c (_ & _ & Hc).
  unfold is_param_start in Hc. apply orb_false_iff in Hc. destruct Hc as [_ ->]. reflexivity.
Qed.

Lemma plain_app s t : plain_url_part (s ++ t) <-> plain_url_part s /\ plain_url_part t.
Proof. apply Forall_app. Qed.

Lemma plain_lit_utm : plain_url_part (Py.lit "utm_").
Proof. rewrite lit_utm. repeat constructor; discriminate. Qed.

Lemma plain_lit_ref : plain_url_part (Py.lit "ref=").
Proof. rewrite lit_ref. repeat constructor; discriminate. Qed.

Lemma plain_equals : plain_url_part [EQUALS].
Proof. repeat constructor; discriminate. Qed.

(** X7: a link whose whole query is one [utm_] parameter, or one [ref]
    parameter, canonicalises to the link without the query. *)
Theorem canonical_link_tracking_only (base k v : Py.str) :
  plain_url_part base -> plain_url_part k -> plain_url_part v ->
  Forall (fun c => c <> EQUALS) k -> k <> [] -> v <> [] ->
  canonical_link (base ++ [QMARK] ++ Py.lit "utm_" ++ k ++ [EQUALS] ++ v) = base
  /\ canonical_link (base ++ [QMARK] ++ Py.lit "ref=" ++ v) = base.
Proof.
  intros Hb Hk Hv Hke Hkne Hvne.
  assert (Hq : Py.isspace QMARK = false /\ QMARK <> HASH) by (split; [reflexivity|discriminate]).
  assert (Hkk : Forall (fun c => negb ((c =? EQUALS)%N || (c =? AMP)%N) = true) k).
  { apply Forall_forall. intros c Hc.
    pose proof (proj1 (Forall_forall _ _) (plain_not_amp k Hk) c Hc) as Ha.
    pose proof (proj1 (Forall_forall _ _) Hke c Hc) as He. simpl in Ha.
    destruct (N.eqb_spec c EQUALS); [contradiction|]. simpl.
    now destruct (c =? AMP)%N. }
  assert (Htail1 : plain_url_part (Py.lit "utm_" ++ k ++ [EQUALS] ++ v)).
  { apply plain_app. split; [apply plain_lit_utm|]. apply plain_app. split; [assumption|].
    apply plain_app. split; [apply plain_equals|assumption]. }
  assert (Htail2 : plain_url_part (Py.lit "ref=" ++ v)).
  { apply plain_app. split; [apply plain_lit_ref|assumption]. }
  assert (Hwhole : forall tail, plain_url_part tail ->
            nonspace (base ++ [QMARK] ++ tail)
            /\ Forall (fun c => c <> HASH) (base ++ [QMARK] ++ tail)).
  { intros tail Ht. split.
    - apply nonspace_app. split; [now apply plain_nonspace|].
      apply (nonspace_app [QMARK] tail). split; [now repeat constructor|].
      now apply plain_nonspace.
    - apply Forall_app. split; [now apply plain_no_hash|].
      constructor; [discriminate|now apply plain_no_hash]. }
  split; unfold canonical_link.
  - destruct (Hwhole _ Htail1) as [Hns Hnh].
    rewrite (strip_nonspace _ Hns), (drop_fragment_no_hash _ Hnh).
    cbn [app].
    rewrite (delete_matches_tail match_utm base _ QMARK match_utm_needs_start
               (plain_no_start base Hb)
               (match_utm_param k v Hkne Hvne Hkk (plain_not_amp v Hv))).
    rewrite (delete_matches_no_start match_ref base match_ref_needs_start
               (plain_no_start base Hb)).
    now apply drop_bare_qmark_no_qmark, plain_no_start.
  - destruct (Hwhole _ Htail2) as [Hns Hnh].
    rewrite (strip_nonspace _ Hns), (drop_fragment_no_hash _ Hnh).
    cbn [app].
    rewrite (delete_matches_none match_utm base _ QMARK match_utm_needs_start
               (plain_no_start base Hb) (plain_no_start _ Htail2)).
    + rewrite (delete_matches_tail match_ref base _ QMARK match_ref_needs_start
                 (plain_no_start base Hb) (match_ref_param v Hvne (plain_not_amp v Hv))).
      now apply drop_bare_qmark_no_qmark, plain_no_start.
    + unfold match_utm. rewrite lit_utm, lit_ref. reflexivity.
Qed.

Lemma canonical_link_tracking_only_witness :
  canonical_link (Py.lit "https://example.org/a" ++ [QMARK] ++ Py.lit "utm_"
                  ++ Py.lit "source" ++ [EQUALS] ++ Py.lit "rss")
  = Py.lit "https://example.org/a"
  /\ canonical_link (Py.lit "https://example.org/a" ++ [QMARK] ++ Py.lit "ref="
                     ++ Py.lit "rss")
     = Py.lit "https://example.org/a".
Proof.
  apply canonical_link_tracking_only; try discriminate; unfold plain_url_part; each_char.
Defined.

(* ================================================================== *)
(** ** [token_present] *)
(* ================================================================== *)

Section TokenFacts.

Variable lower : Py.str -> Py.str.
Variable isalnum : N -> bool.

Lemma search_word_occurs (t s : Py.str) :
  forall prev, search_word isalnum t prev s = true -> occurs_in t s.
Proof.
  induction s as [|c s IH]; intros prev H.
  - cbn [search_word] in H. rewrite orb_false_r in H.
    apply andb_true_iff in H. destruct H as [H _].
    apply andb_true_iff in H. destruct H as [H _].
    apply contains_spec. cbn [Py.contains]. now rewrite H.
  - cbn [search_word] in H. apply orb_true_iff in H. destruct H as [H|H].
    + apply andb_true_iff in H. destruct H as [H _].
      apply andb_true_iff in H. destruct H as [H _].
      apply contains_spec. cbn [Py.contains]. now rewrite H.
    + apply IH in H. destruct H as (pre & post & ->). now exists (c :: pre), post.
Qed.

(** X8: a keyword counts only when it stands in the text, letter for
    letter, whichever of the two tests is used. *)
Theorem token_present_occurs (text token : Py.str) :
  token_present lower isalnum text token = true ->
  occurs_in (Py.strip (lower token)) text.
Proof.
  unfold token_present.
  destruct (bool_decide _ || _); [apply search_word_occurs|apply contains_spec].
Qed.

Lemma search_word_inside (t s : Py.str) (prev : option N) :
  t <> [] -> one_word isalnum s -> is_word isalnum prev = true ->
  search_word isalnum t prev s = false.
Proof.
  intros Ht Hs. revert prev. induction Hs as [|c s Hc Hrest IH]; intros prev Hp.
  - cbn [search_word]. destruct t; [contradiction|reflexivity].
  - cbn [search_word]. rewrite (IH (Some c) Hc), orb_false_r.
    destruct (Py.startswith t (c :: s)); [|reflexivity].
    unfold word_boundary at 1. cbn [head]. now rewrite Hp, Hc.
Qed.

Lemma startswith_last_word (t s : Py.str) :
  Py.startswith t s = true -> one_word isalnum s -> t <> [] ->
  exists c, last t = Some c /\ is_word isalnum (Some c) = true.
Proof.
  intros H Hs Ht. apply startswith_spec in H. destruct H as [post ->].
  apply Forall_app in Hs. destruct Hs as [Hw _].
  destruct (last t) as [c|] eqn:E.
  - exists c. split; [reflexivity|].
    apply last_Some in E. destruct E as [l' ->].
    apply Forall_app in Hw. destruct Hw as [_ Hw]. now inversion Hw.
  - apply last_None in E. contradiction.
Qed.

(** X9: in a text that is one unbroken word, a whole-word keyword is found
    only when the text is that very keyword. *)
Theorem search_word_whole (t s : Py.str) :
  t <> [] -> one_word isalnum s ->
  search_word isalnum t None s = true -> s = t.
Proof.
  intros Ht Hs H. destruct s as [|c s].
  - cbn [search_word] in H. destruct t; [contradiction|discriminate].
  - cbn [search_word] in H. inversion Hs as [|? ? Hc Hrest]; subst.
    rewrite (search_word_inside t s (Some c) Ht Hrest Hc), orb_false_r in H.
    apply andb_true_iff in H. destruct H as [H Hend].
    apply andb_true_iff in H. destruct H as [Hstart _].
    destruct (startswith_last_word t (c :: s) Hstart Hs Ht) as (z & Hz & Hzw).
    rewrite Hz in Hend. unfold word_boundary in Hend. rewrite Hzw in Hend.
    apply startswith_spec in Hstart. destruct Hstart as [post Hpost].
    rewrite Hpost in Hend |- *.
    assert (Hd : skipn (length t) (t ++ post) = post).
    { clear. induction t; [reflexivity|assumption]. }
    rewrite Hd in Hend. destruct post as [|p post]; [now rewrite app_nil_r|].
    rewrite Hpost in Hs. apply Forall_app in Hs. destruct Hs as [_ Hs].
    inversion Hs as [|? ? Hpw _]; subst. cbn [head] in Hend. now rewrite Hpw in Hend.
Qed.

End TokenFacts.

Lemma token_present_occurs_witness :
  occurs_in (Py.strip (ascii_lower (Py.lit "Ransomware"))) (Py.lit "new ransomware wave").
Proof.
  apply (token_present_occurs ascii_lower ascii_isalnum). vm_compute. reflexivity.
Defined.

Lemma search_word_whole_witness :
  Py.lit "rce" <> []
  /\ one_word ascii_isalnum (Py.lit "rce")
  /\ Py.lit "rce" = Py.lit "rce".
Proof.
  assert (Hw : one_word ascii_isalnum (Py.lit "rce")) by (unfold one_word; each_char).
  split; [discriminate|]. split; [exact Hw|].
  apply (search_word_whole ascii_isalnum (Py.lit "rce") (Py.lit "rce"));
    [discriminate|exact Hw|vm_compute; reflexivity].
Defined.

(* ================================================================== *)
(** ** The range of [recency_score] and [compute_score] *)
(* ================================================================== *)

Section ScoreRange.

Local Open Scope R_scope.

Lemma Int_part_IZR (z : Z) : Int_part (IZR z) = z.
Proof.
  pose proof (Int_part_bounds (IZR z)) as [H1 H2].
  apply le_IZR in H1. rewrite <- plus_IZR in H2. apply lt_IZR in H2. lia.
Qed.

Lemma round_half_even_IZR (z : Z) : round_half_even (IZR z) = z.
Proof.
  unfold round_half_even. rewrite Int_part_IZR.
  destruct (Rlt_dec (IZR z - IZR z) (1 / 2)); [reflexivity|lra].
Qed.

Lemma round1_IZR (z : Z) : round1 (IZR z) = IZR z.
Proof.
  unfold round1. replace (IZR z * 10) with (IZR (z * 10)) by (rewrite mult_IZR; lra).
  rewrite round_half_even_IZR, mult_IZR. lra.
Qed.

Lemma recency_score_bounds (LOOKBACK_HOURS : Z) (h : R) :
  0 < recency_score LOOKBACK_HOURS h < 30.
Proof.
  unfold recency_score. set (x := (h - _) / _). pose proof (exp_pos x) as He. split.
  - apply Rdiv_lt_0_compat; lra.
  - apply (Rmult_lt_reg_r (1 + exp x)); [lra|].
    unfold Rdiv. rewrite Rmult_assoc, Rinv_l by lra. lra.
Qed.

(** X10: the recency term lies between 0 and 30, so the clamp
    [max(0.0, ...)] of [compute_score] never changes it; at the look-back
    horizon it is 15.  Over the reals the two bounds are never reached;
    in floating point they can be, so the statement includes them. *)
Theorem recency_score_range (LOOKBACK_HOURS : Z) (h : R) :
  0 <= recency_score LOOKBACK_HOURS h <= 30
  /\ Rmax 0 (recency_score LOOKBACK_HOURS h) = recency_score LOOKBACK_HOURS h
  /\ recency_score LOOKBACK_HOURS (IZR (Z.max 1 LOOKBACK_HOURS)) = 15.
Proof.
  pose proof (recency_score_bounds LOOKBACK_HOURS h) as Hb.
  split; [lra|]. split.
  - apply Rmax_right. lra.
  - unfold recency_score, Rminus. rewrite Rplus_opp_r. unfold Rdiv at 2. rewrite Rmult_0_l, exp_0. lra.
Qed.

Variable lower : Py.str -> Py.str.
Variable isalnum : N -> bool.

Lemma keyword_sum_range (text : Py.str) (kw : list (Py.str * Z)) :
  Forall (fun kv => (0 <= snd kv)%Z) kw ->
  forall acc,
    acc <= keyword_sum lower isalnum text kw acc
    <= acc + IZR (fold_right (fun kv s => (snd kv + s)%Z) 0%Z kw).
Proof.
  induction 1 as [|[k w] kw Hw Hrest IH]; intros acc; simpl.
  - lra.
  - simpl in Hw. apply IZR_le in Hw.
    rewrite plus_IZR.
    destruct (token_present lower isalnum text k).
    + specialize (IH (acc + IZR w)). lra.
    + specialize (IH acc). lra.
Qed.

Lemma dict_get_range (d : list (Py.str * Z)) (k : Py.str) (default lo hi : Z) :
  Forall (fun kv => (lo <= snd kv <= hi)%Z) d -> (lo <= default <= hi)%Z ->
  (lo <= dict_get d k default <= hi)%Z.
Proof.
  intros Hd Hdef. induction Hd as [|[k' v] d Hv Hrest IH]; simpl; [assumption|].
  destruct (bool_decide (k' = k)); [exact Hv|exact IH].
Qed.

Lemma source_weight_range (src : Py.str) :
  (10 <= dict_get SOURCE_WEIGHTS src 10 <= 25)%Z.
Proof.
  apply dict_get_range; [|lia].
  unfold SOURCE_WEIGHTS. repeat constructor; simpl; lia.
Qed.

Lemma keyword_weights_nonneg : Forall (fun kv => (0 <= snd kv)%Z) KEYWORD_WEIGHTS.
Proof. unfold KEYWORD_WEIGHTS. repeat constructor; simpl; lia. Qed.

(** X11: with a keyword cap that is not negative, every score lies between
    10 and the cap plus 55: the keyword part is between 0 and the cap, the
    source part between 10 and 25, the recency part between 0 and 30. *)
Theorem compute_score_range (MAX_KEYWORD_SCORE LOOKBACK_HOURS now : Z) (it : Item) :
  (0 <= MAX_KEYWORD_SCORE)%Z ->
  10 <= compute_score lower isalnum MAX_KEYWORD_SCORE LOOKBACK_HOURS now it
     <= IZR MAX_KEYWORD_SCORE + 55.
Proof.
  intros Hmax. unfold compute_score.
  set (text := lower (title it ++ [Py.SPACE] ++ summary it)).
  pose proof (keyword_sum_range text KEYWORD_WEIGHTS keyword_weights_nonneg 0) as [Hk _].
  pose proof (source_weight_range (source it)) as [Hs1 Hs2].
  apply IZR_le in Hs1, Hs2, Hmax.
  pose proof (recency_score_bounds LOOKBACK_HOURS (hours_old now it)) as Hr.
  set (ks := keyword_sum lower isalnum text KEYWORD_WEIGHTS 0) in *.
  set (rs := recency_score LOOKBACK_HOURS (hours_old now it)) in *.
  assert (Hmin : 0 <= Rmin ks (IZR MAX_KEYWORD_SCORE) <= IZR MAX_KEYWORD_SCORE).
  { split; [apply Rmin_glb; lra|apply Rmin_r]. }
  assert (Hclamp : 0 <= Rmax 0 rs <= 30).
  { split; [apply Rmax_l|]. apply Rmax_lub; lra. }
  split.
  - rewrite <- (round1_IZR 10). apply round1_mono. lra.
  - replace (IZR MAX_KEYWORD_SCORE + 55) with (IZR (MAX_KEYWORD_SCORE + 55))
      by (rewrite plus_IZR; lra).
    rewrite <- (round1_IZR (MAX_KEYWORD_SCORE + 55)). apply round1_mono.
    rewrite plus_IZR. lra.
Qed.

End ScoreRange.

Lemma compute_score_range_witness :
  (10 <= compute_score ascii_lower ascii_isalnum 60 72 3600000000 fresh_item
      <= IZR 60 + 55)%R.
Proof. apply compute_score_range. lia. Defined.

(* ================================================================== *)
(** ** [risk_bar] *)
(* ================================================================== *)

(** Replaces the decided comparisons of rationals by the facts they
    stand for. *)
Ltac split_Qle :=
  repeat match goal with
    | |- context [Qle_bool ?a ?b] =>
        let E := fresh "E" in
        destruct (Qle_bool a b) eqn:E;
        [apply Qle_bool_iff in E|apply Qle_bool_false in E]
    end.

Lemma inject_Z_lt_half (f n : Z) : (inject_Z f <= inject_Z n + (1 # 2))%Q -> f <= n.
Proof.
  intros H. destruct (Z_le_gt_dec f n) as [|Hgt]; [assumption|exfalso].
  assert (Hle : n + 1 <= f) by lia.
  rewrite Zle_Qle, inject_Z_plus in Hle. change (inject_Z 1) with 1%Q in Hle. Lqa.lra.
Qed.

Lemma floor_bounds (x : Q) :
  (inject_Z (Qfloor x) <= x /\ x < inject_Z (Qfloor x) + 1)%Q.
Proof.
  split; [apply Qfloor_le|]. pose proof (Qlt_floor x) as H.
  rewrite inject_Z_plus in H. exact H.
Qed.

Lemma round_half_even_Q_range (x : Q) :
  Qfloor x <= round_half_even_Q x <= Qfloor x + 1.
Proof.
  unfold round_half_even_Q.
  destruct (negb _); [lia|]. destruct (negb _); [lia|]. destruct (Z.even _); lia.
Qed.

Lemma round_half_even_Q_below (x : Q) (n : Z) :
  (x < inject_Z n + (1 # 2))%Q -> round_half_even_Q x <= n.
Proof.
  intros H. destruct (floor_bounds x) as [H1 H2].
  assert (Hf : Qfloor x <= n) by (apply inject_Z_lt_half; Lqa.lra).
  destruct (Z.eq_dec (Qfloor x) n) as [He|Hne].
  - unfold round_half_even_Q. rewrite He in *. split_Qle; simpl; try lia; Lqa.lra.
  - pose proof (round_half_even_Q_range x). lia.
Qed.

Lemma round_half_even_Q_above (x : Q) (n : Z) :
  (inject_Z n + (1 # 2) < x)%Q -> n + 1 <= round_half_even_Q x.
Proof.
  intros H. destruct (floor_bounds x) as [H1 H2].
  assert (Hf : n <= Qfloor x).
  { destruct (Z_le_gt_dec n (Qfloor x)) as [|Hgt]; [assumption|exfalso].
    assert (Hle : Qfloor x + 1 <= n) by lia.
    rewrite Zle_Qle, inject_Z_plus in Hle. change (inject_Z 1) with 1%Q in Hle. Lqa.lra. }
  destruct (Z.eq_dec (Qfloor x) n) as [He|Hne].
  - unfold round_half_even_Q. rewrite He in *. split_Qle; simpl; try lia; Lqa.lra.
  - pose proof (round_half_even_Q_range x). lia.
Qed.

Lemma round_half_even_Q_half (x : Q) (n : Z) :
  (x == inject_Z n + (1 # 2))%Q ->
  round_half_even_Q x = if Z.even n then n else n + 1.
Proof.
  intros H. destruct (floor_bounds x) as [H1 H2].
  assert (Hf : Qfloor x = n).
  { assert (Qfloor x <= n) by (apply inject_Z_lt_half; Lqa.lra).
    destruct (Z_le_gt_dec n (Qfloor x)) as [|Hgt]; [lia|exfalso].
    assert (Hle : Qfloor x + 1 <= n) by lia.
    rewrite Zle_Qle, inject_Z_plus in Hle. change (inject_Z 1) with 1%Q in Hle. Lqa.lra. }
  unfold round_half_even_Q. rewrite Hf. split_Qle; simpl; try reflexivity; Lqa.lra.
Qed.

(** The clamped score divided by 25. *)
Lemma risk_scaled (score : Q) :
  let x := (py_max 0 (py_min 100 score) / 25)%Q in
  (0 <= x <= 4)%Q
  /\ ((score < 0)%Q -> x == 0)
  /\ ((0 <= score <= 100)%Q -> x == score * (1 # 25))
  /\ ((100 < score)%Q -> x == 4).
Proof.
  cbv zeta. unfold py_min.
  destruct (Qle_bool 100 score) eqn:E1;
    [apply Qle_bool_iff in E1|apply Qle_bool_false in E1];
    unfold py_max;
    match goal with
    | |- context [Qle_bool ?a ?b] =>
        destruct (Qle_bool a b) eqn:E2;
        [apply Qle_bool_iff in E2|apply Qle_bool_false in E2]
    end;
    unfold Qdiv; change (/ 25)%Q with (1 # 25)%Q;
    repeat split; intros; Lqa.lra.
Qed.

(** X12: the bar has four squares, the filled ones first and at least
    one of them; one is filled below a score of 37.5, two from 37.5 to
    62.5, three above 62.5 and below 87.5, four from 87.5 on. *)
Theorem risk_bar_levels (score : Q) :
  length (risk_bar score) = 4%nat
  /\ 1 <= risk_level score <= 4
  /\ risk_bar score
     = repeat FILLED (Z.to_nat (risk_level score))
       ++ repeat HOLLOW (4 - Z.to_nat (risk_level score))
  /\ ((score < 75 # 2)%Q -> risk_level score = 1)
  /\ ((75 # 2 <= score)%Q -> (score <= 125 # 2)%Q -> risk_level score = 2)
  /\ ((125 # 2 < score)%Q -> (score < 175 # 2)%Q -> risk_level score = 3)
  /\ ((175 # 2 <= score)%Q -> risk_level score = 4).
Proof.
  assert (Hrange : 1 <= risk_level score <= 4) by (unfold risk_level; lia).
  split; [|split; [assumption|split]].
  - unfold risk_bar. rewrite length_app, !repeat_length. lia.
  - unfold risk_bar. do 2 f_equal. lia.
  - unfold risk_level. pose proof (risk_scaled score) as Hsc. cbv zeta in Hsc.
    set (x := (py_max 0 (py_min 100 score) / 25)%Q) in *.
    destruct Hsc as (Hx & Hlow & Hin & Hhigh).
    assert (Hcase : (score < 0)%Q \/ (0 <= score <= 100)%Q \/ (100 < score)%Q).
    { destruct (Qlt_le_dec score 0); [now left|right].
      destruct (Qlt_le_dec 100 score); [now right|left; now split]. }
    assert (Hge0 : 0 <= round_half_even_Q x).
    { pose proof (round_half_even_Q_range x) as Hr.
      assert (0 <= Qfloor x); [|lia].
      change 0 with (Qfloor 0). apply Qfloor_resp_le. tauto. }
    repeat split.
    + intros H. assert (Hr : round_half_even_Q x <= 1).
      { apply round_half_even_Q_below. change (inject_Z 1) with 1%Q.
        destruct Hcase as [Hc|[Hc|Hc]]; [rewrite (Hlow Hc)|rewrite (Hin Hc)|]; Lqa.lra. }
      lia.
    + intros H1 H2.
      destruct (Qlt_le_dec score (125 # 2)) as [Hlt|Heq];
        [destruct (Qlt_le_dec (75 # 2) score) as [Hgt|Heq']|].
      * assert (round_half_even_Q x <= 2).
        { apply round_half_even_Q_below. change (inject_Z 2) with 2%Q.
          rewrite Hin; Lqa.lra. }
        assert (1 + 1 <= round_half_even_Q x).
        { apply round_half_even_Q_above. change (inject_Z 1) with 1%Q.
          rewrite Hin; Lqa.lra. }
        lia.
      * rewrite (round_half_even_Q_half x 1); [reflexivity|].
        change (inject_Z 1) with 1%Q. rewrite Hin; Lqa.lra.
      * rewrite (round_half_even_Q_half x 2); [reflexivity|].
        change (inject_Z 2) with 2%Q. rewrite Hin; Lqa.lra.
    + intros H1 H2.
      assert (round_half_even_Q x <= 3).
      { apply round_half_even_Q_below. change (inject_Z 3) with 3%Q. rewrite Hin; Lqa.lra. }
      assert (2 + 1 <= round_half_even_Q x).
      { apply round_half_even_Q_above. change (inject_Z 2) with 2%Q. rewrite Hin; Lqa.lra. }
      lia.
    + intros H.
      assert (4 <= round_half_even_Q x); [|lia].
      destruct (Qlt_le_dec (175 # 2) score) as [Hgt|Heq].
      * change 4 with (3 + 1). apply round_half_even_Q_above. change (inject_Z 3) with 3%Q.
        destruct Hcase as [Hc|[Hc|Hc]]; [Lqa.lra|rewrite (Hin Hc); Lqa.lra|].
        rewrite (Hhigh Hc). Lqa.lra.
      * rewrite (round_half_even_Q_half x 3); [simpl; lia|].
        change (inject_Z 3) with 3%Q. rewrite Hin; Lqa.lra.
Qed.

Lemma risk_bar_levels_witness : risk_level 50 = 2.
Proof.
  apply (proj1 (proj2 (proj2 (proj2 (proj2 (risk_bar_levels 50))))));
    vm_compute; discriminate.
Defined.

(* ================================================================== *)
(** ** [scoring_signals] *)
(* ================================================================== *)

Lemma uniq_fold_spec (hits : list Py.str) :
  forall acc : list Py.str,
    NoDup acc ->
    NoDup (fold_left uniq_step hits acc)
    /\ (forall x, x ∈ fold_left uniq_step hits acc -> x ∈ acc \/ x ∈ hits).
Proof.
  induction hits as [|h hits IH]; intros acc Hacc; simpl.
  - split; [assumption|now left].
  - unfold uniq_step at 2 4. destruct (decide (h ∈ acc)) as [Hin|Hout].
    + rewrite (bool_decide_eq_true_2 _ Hin). destruct (IH acc Hacc) as [Hn Hsub].
      split; [assumption|]. intros x Hx. destruct (Hsub x Hx); [now left|right].
      now apply list_elem_of_further.
    + rewrite (bool_decide_eq_false_2 _ Hout).
      assert (Hacc' : NoDup (acc ++ [h])).
      { apply NoDup_app. split; [assumption|]. split; [|apply NoDup_singleton].
        intros x Hx Hh. apply list_elem_of_singleton in Hh. now subst. }
      destruct (IH _ Hacc') as [Hn Hsub]. split; [assumption|].
      intros x Hx. destruct (Hsub x Hx) as [H|H].
      * apply elem_of_app in H. destruct H as [H|H]; [now left|right].
        apply list_elem_of_singleton in H. subst. apply list_elem_of_here.
      * right. now apply list_elem_of_further.
Qed.

Section SignalFacts.

Variable lower : Py.str -> Py.str.
Variable isalnum : N -> bool.

Lemma keyword_hits_labels (text : Py.str) (kw : list (Py.str * Z)) :
  forall x, x ∈ keyword_hits lower isalnum text kw ->
            x ∈ List.map (fun kv => if bool_decide (fst kv = Py.lit "zero day")
                                    then Py.lit "zero-day" else fst kv) kw.
Proof.
  induction kw as [|[k w] kw IH]; intros x Hx; simpl in *; [assumption|].
  destruct (token_present lower isalnum text k).
  - apply elem_of_cons in Hx. destruct Hx as [->|Hx].
    + apply list_elem_of_here.
    + apply list_elem_of_further. now apply IH.
  - apply list_elem_of_further. now apply IH.
Qed.

(** X13: the signals of an article are pairwise different and at most six:
    at most four keyword labels, each a label of the table, then at most
    the trust label, then at most one of "breaking" and "recent".  The
    keyword "zero day" never shows under its own name. *)
Theorem scoring_signals_shape (now : Z) (it : Item) :
  exists keys tail : list Py.str,
    scoring_signals lower isalnum now it = keys ++ tail
    /\ (length keys <= 4)%nat
    /\ Forall (fun k => k ∈ keyword_labels) keys
    /\ (tail = [] \/ tail = [Py.lit "trusted source"]
        \/ tail = [Py.lit "breaking"] \/ tail = [Py.lit "recent"]
        \/ tail = [Py.lit "trusted source"; Py.lit "breaking"]
        \/ tail = [Py.lit "trusted source"; Py.lit "recent"])
    /\ NoDup (scoring_signals lower isalnum now it)
    /\ Py.lit "zero day" ∉ scoring_signals lower isalnum now it.
Proof.
  unfold scoring_signals.
  set (text := lower (title it ++ [Py.SPACE] ++ summary it)).
  set (hits := keyword_hits lower isalnum text KEYWORD_WEIGHTS).
  destruct (uniq_fold_spec hits [] ltac:(constructor)) as [Hnd Hsub].
  set (uniq := fold_left uniq_step hits []) in *.
  set (keys := Py.slice_to uniq 4).
  assert (Hpre : exists rest, uniq = keys ++ rest).
  { exists (Py.slice_from uniq 4). unfold keys. now rewrite slice_to_from. }
  destruct Hpre as [rest Hrest].
  assert (Hkn : NoDup keys).
  { rewrite Hrest in Hnd. now apply NoDup_app in Hnd. }
  assert (Hkl : Forall (fun k => k ∈ keyword_labels) keys).
  { apply Forall_forall. intros k Hk.
    assert (Hu : k ∈ uniq) by (rewrite Hrest; apply elem_of_app; now left).
    destruct (Hsub k Hu) as [H|H]; [now apply elem_of_nil in H|].
    now apply keyword_hits_labels in H. }
  assert (Hlen : (length keys <= 4)%nat).
  { unfold keys, Py.slice_to. simpl. rewrite length_firstn. lia. }
  assert (Hnot : forall x, x ∉ keyword_labels -> x ∉ keys).
  { intros x Hx Hin. apply Hx. exact (proj1 (Forall_forall _ _) Hkl x Hin). }
  assert (Ht : Py.lit "trusted source" ∉ keys).
  { apply Hnot. apply (bool_decide_eq_false_1 _). vm_compute. reflexivity. }
  assert (Hb : Py.lit "breaking" ∉ keys).
  { apply Hnot. apply (bool_decide_eq_false_1 _). vm_compute. reflexivity. }
  assert (Hr : Py.lit "recent" ∉ keys).
  { apply Hnot. apply (bool_decide_eq_false_1 _). vm_compute. reflexivity. }
  assert (Hz : Py.lit "zero day" ∉ keys).
  { apply Hnot. apply (bool_decide_eq_false_1 _). vm_compute. reflexivity. }
  assert (Hfin : forall tail : list Py.str,
             NoDup tail -> (forall x, x ∈ tail -> (x ∉ keys) /\ x <> Py.lit "zero day") ->
             NoDup (keys ++ tail) /\ Py.lit "zero day" ∉ (keys ++ tail)).
  { intros tail Hn Ht'. split.
    - apply NoDup_app. split; [assumption|]. split; [|assumption].
      intros x Hx Hxt. destruct (Ht' x Hxt) as [Hk _]. contradiction.
    - intros H. apply elem_of_app in H. destruct H as [H|H]; [now apply Hz|].
      destruct (Ht' _ H) as [_ Hne]. now apply Hne. }
  set (b1 := 20 <=? dict_get SOURCE_WEIGHTS (source it) 10).
  set (b2 := Qle_bool _ 6). set (b3 := Qle_bool _ 12).
  pose (tail := (if b1 then [Py.lit "trusted source"] else [])
                ++ (if b2 then [Py.lit "breaking"]
                    else if b3 then [Py.lit "recent"] else [])).
  assert (Heq : (if b2 then (if b1 then keys ++ [Py.lit "trusted source"] else keys)
                            ++ [Py.lit "breaking"]
                 else if b3 then (if b1 then keys ++ [Py.lit "trusted source"] else keys)
                                 ++ [Py.lit "recent"]
                 else if b1 then keys ++ [Py.lit "trusted source"] else keys)
                = keys ++ tail).
  { unfold tail. destruct b1, b2, b3; simpl; rewrite ?app_nil_r, <- ?app_assoc; reflexivity. }
  rewrite Heq. exists keys, tail.
  split; [reflexivity|]. split; [assumption|]. split; [assumption|].
  split; [unfold tail; destruct b1, b2, b3; simpl; tauto|].
  apply Hfin.
  - unfold tail. destruct b1, b2, b3; simpl;
      apply (bool_decide_unpack _); vm_compute; exact I.
  - intros x Hx. unfold tail in Hx. destruct b1, b2, b3; simpl in Hx;
      repeat (apply elem_of_cons in Hx; destruct Hx as [->|Hx]);
      try (now apply elem_of_nil in Hx); (split; [assumption|discriminate]).
Qed.

End SignalFacts.

(* ================================================================== *)
(** ** More on the loop of [collect_and_rank] *)
(* ================================================================== *)

Section DedupFacts.

Variable lower : Py.str -> Py.str.
Variable ratio : Py.str -> Py.str -> Q.
Variable safe_text : Py.str -> Py.str.
Variable score_of : Item -> Q.
Variables (LOOKBACK_HOURS : Z) (DUPLICATE_THRESHOLD : Q).
Variable now : Z.

Local Abbreviation entry_step :=
  (process_entry lower ratio safe_text score_of LOOKBACK_HOURS DUPLICATE_THRESHOLD now).
Local Abbreviation run :=
  (run_entries lower ratio safe_text score_of LOOKBACK_HOURS DUPLICATE_THRESHOLD now).
Local Abbreviation is_dup :=
  (fun t seen => is_duplicate_title lower ratio t seen DUPLICATE_THRESHOLD).
Local Abbreviation article_of :=
  (make_article safe_text score_of).
Local Abbreviation acc_good :=
  (accepted_ok lower ratio safe_text score_of LOOKBACK_HOURS DUPLICATE_THRESHOLD now).

(** The three outcomes of one round: nothing changes; only the link is
    recorded; the entry is accepted. *)
Lemma entry_step_cases (src : Py.str) (st : RankState) (e : Entry) :
  entry_step src st e = st
  \/ (e_link e <> [] /\ (e_link e ∉ seen_links st)
      /\ entry_step src st e
         = mkRank (articles st) (seen_titles st) ({[e_link e]} ∪ seen_links st))
  \/ (exists p,
        e_published e = Some p /\ cutoff LOOKBACK_HOURS now <= p /\ e_title e <> []
        /\ (e_link e = [] \/ (e_link e ∉ seen_links st))
        /\ is_dup (e_title e) (seen_titles st) = false
        /\ entry_step src st e
           = mkRank (articles st ++ [article_of src e p])
                    (seen_titles st ++ [e_title e])
                    (if bool_decide (e_link e = []) then seen_links st
                     else {[e_link e]} ∪ seen_links st)).
Proof.
  unfold process_entry.
  destruct (e_published e) as [p|] eqn:Hp; [|now left].
  destruct (Z.ltb_spec p (cutoff LOOKBACK_HOURS now)) as [Hold|Hfresh]; [now left|].
  destruct (e_title e) as [|c t] eqn:Ht; [now left|]. rewrite <- Ht.
  destruct (decide (e_link e = [])) as [He|Hne].
  - rewrite (bool_decide_eq_true_2 _ He). simpl.
    destruct (is_duplicate_title _ _ _ _ _) eqn:Hd.
    + left. now destruct st.
    + right. right. exists p. repeat split; try assumption; try (now left).
      rewrite Ht. discriminate.
  - rewrite (bool_decide_eq_false_2 _ Hne). simpl.
    destruct (decide (e_link e ∈ seen_links st)) as [Hin|Hout].
    + rewrite (bool_decide_eq_true_2 _ Hin). now left.
    + rewrite (bool_decide_eq_false_2 _ Hout).
      destruct (is_duplicate_title _ _ _ _ _) eqn:Hd.
      * right. left. now repeat split.
      * right. right. exists p. repeat split; try assumption; try (now right).
        rewrite Ht. discriminate.
Qed.

Lemma accepted_links_snoc (arts : list Article) (a : Article) :
  accepted_links (arts ++ [a])
  = accepted_links arts
    ++ (if bool_decide (link (a_item a) = []) then [] else [link (a_item a)]).
Proof.
  unfold accepted_links. rewrite List.map_app, List.filter_app. simpl.
  now destruct (bool_decide (link (a_item a) = [])).
Qed.

Lemma accepted_step (done : list (Py.str * Entry)) (st : RankState)
      (src : Py.str) (e : Entry) :
  acc_good done st -> acc_good (done ++ [(src, e)]) (entry_step src st e).
Proof.
  intros (Hnd & Hin & Hpair & Hprov).
  assert (Hprov' : forall a, In a (articles st) ->
            exists s e' p, In (s, e') (done ++ [(src, e)]) /\ e_published e' = Some p
                           /\ cutoff LOOKBACK_HOURS now <= p /\ e_title e' <> []
                           /\ a = article_of s e' p).
  { intros a Ha. destruct (Hprov a Ha) as (s & e' & p & H1 & H2).
    exists s, e', p. split; [apply in_or_app; now left|assumption]. }
  destruct (entry_step_cases src st e) as [->|[(Hne & Hout & ->)|(p & Hp & Hc & Ht & Hl & Hd & ->)]].
  - now repeat split.
  - repeat split; simpl; try assumption.
    intros l Hl. apply elem_of_union. right. now apply Hin.
  - repeat split; simpl.
    + rewrite accepted_links_snoc. cbn [a_item link make_article].
      destruct (decide (e_link e = [])) as [He|He].
      * rewrite (bool_decide_eq_true_2 _ He). now rewrite app_nil_r.
      * rewrite (bool_decide_eq_false_2 _ He). apply NoDup_app.
        split; [assumption|]. split; [|apply NoDup_singleton].
        intros l Hl' Heq. apply list_elem_of_singleton in Heq. subst l.
        destruct Hl as [Hl|Hl]; [contradiction|]. apply Hl. now apply Hin.
    + intros l. rewrite accepted_links_snoc. cbn [a_item link make_article].
      rewrite elem_of_app. intros [Hl'|Hl'].
      * destruct (bool_decide (e_link e = [])); [now apply Hin|].
        apply elem_of_union. right. now apply Hin.
      * destruct (decide (e_link e = [])) as [He|He].
        -- rewrite (bool_decide_eq_true_2 _ He) in Hl'. now apply elem_of_nil in Hl'.
        -- rewrite (bool_decide_eq_false_2 _ He) in Hl' |- *.
           apply list_elem_of_singleton in Hl'. subst l.
           apply elem_of_union. left. now apply elem_of_singleton.
    + intros pre t post Heq.
      destruct (decide (post = [])) as [->|Hpost].
      * apply app_inj_tail in Heq. destruct Heq as [<- <-]. exact Hd.
      * destruct (exists_last Hpost) as (post' & z & ->).
        rewrite app_comm_cons, app_assoc in Heq.
        apply app_inj_tail in Heq. destruct Heq as [Heq _].
        now apply (Hpair pre t post').
    + intros a Ha. apply in_app_or in Ha. destruct Ha as [Ha|[<-|[]]]; [now apply Hprov'|].
      exists src, e, p. repeat split; try assumption. apply in_or_app. right. now left.
Qed.

Lemma accepted_run (es done : list (Py.str * Entry)) (st : RankState) :
  acc_good done st -> acc_good (done ++ es) (run es st).
Proof.
  revert done st. induction es as [|[src e] es IH]; intros done st H.
  - now rewrite app_nil_r.
  - replace (done ++ (src, e) :: es) with ((done ++ [(src, e)]) ++ es)
      by (now rewrite <- app_assoc).
    apply (IH (done ++ [(src, e)]) (entry_step src st e)). now apply accepted_step.
Qed.

Lemma accepted_collect (feeds : list (Py.str * option (list Entry))) :
  acc_good (entries_of feeds)
    (collect lower ratio safe_text score_of LOOKBACK_HOURS DUPLICATE_THRESHOLD now feeds).
Proof.
  rewrite collect_run. apply (accepted_run (entries_of feeds) [] (mkRank [] [] ∅)).
  repeat split; simpl.
  - constructor.
  - intros l Hl. now apply elem_of_nil in Hl.
  - intros pre t post H. now destruct pre.
  - intros a [].
Qed.

(** X14: no two accepted articles have the same non-empty link. *)
Theorem accepted_links_distinct (feeds : list (Py.str * option (list Entry))) :
  NoDup (accepted_links
           (articles (collect lower ratio safe_text score_of LOOKBACK_HOURS
                        DUPLICATE_THRESHOLD now feeds))).
Proof. apply (accepted_collect feeds). Qed.

(** X15: no accepted title is a near-duplicate of a title accepted before
    it. *)
Theorem accepted_titles_apart (feeds : list (Py.str * option (list Entry)))
        (pre post : list Py.str) (t : Py.str) :
  seen_titles (collect lower ratio safe_text score_of LOOKBACK_HOURS
                 DUPLICATE_THRESHOLD now feeds)
  = pre ++ t :: post ->
  is_duplicate_title lower ratio t pre DUPLICATE_THRESHOLD = false.
Proof. apply (accepted_collect feeds). Qed.

(** X16: every accepted article is built from an entry of a parsed feed
    that has a date not before the cut-off and a title that is not
    empty. *)
Theorem accepted_from_fresh_entries (feeds : list (Py.str * option (list Entry)))
        (a : Article) :
  In a (articles (collect lower ratio safe_text score_of LOOKBACK_HOURS
                    DUPLICATE_THRESHOLD now feeds)) ->
  exists src e p,
    In (src, e) (entries_of feeds) /\ e_published e = Some p
    /\ cutoff LOOKBACK_HOURS now <= p /\ e_title e <> []
    /\ a = make_article safe_text score_of src e p.
Proof. apply (accepted_collect feeds). Qed.

Lemma entries_of_parsed (feeds : list (Py.str * option (list Entry))) :
  entries_of (List.filter feed_parsed feeds) = entries_of feeds.
Proof.
  induction feeds as [|[src [es|]] feeds IH]; simpl; [reflexivity| |exact IH].
  now rewrite IH.
Qed.

(** X17: feeds that could not be parsed change nothing: the run over all
    feeds ends in the state of the run over the parsed feeds alone. *)
Theorem failed_feeds_ignored (feeds : list (Py.str * option (list Entry))) :
  collect lower ratio safe_text score_of LOOKBACK_HOURS DUPLICATE_THRESHOLD now
    (List.filter feed_parsed feeds)
  = collect lower ratio safe_text score_of LOOKBACK_HOURS DUPLICATE_THRESHOLD now feeds.
Proof. now rewrite !collect_run, entries_of_parsed. Qed.


End DedupFacts.

Lemma accepted_titles_apart_witness :
  is_duplicate_title ascii_lower same_ratio (Py.lit "Patch day") [Py.lit "Acme breach"]
    (93 # 100) = false.
Proof.
  apply (accepted_titles_apart ascii_lower same_ratio Py.strip (fun _ => 0%Q) 72 (93 # 100) 0
           (one_feed [entry_first; entry_third]) [Py.lit "Acme breach"] []).
  vm_compute. reflexivity.
Defined.

Lemma accepted_from_fresh_entries_witness :
  exists src e p,
    In (src, e) (entries_of (one_feed [entry_first; entry_third]))
    /\ e_published e = Some p
    /\ cutoff 72 0 <= p /\ e_title e <> []
    /\ make_article Py.strip (fun _ => 0%Q) (Py.lit "Dark Reading") entry_third 0
       = make_article Py.strip (fun _ => 0%Q) src e p.
Proof.
  apply (accepted_from_fresh_entries ascii_lower same_ratio Py.strip (fun _ => 0%Q)
           72 (93 # 100) 0).
  vm_compute. right. left. reflexivity.
Defined.


(* ================================================================== *)
(** ** More on [shorten], [chunk_text], the ellipsis and the URL wrap *)
(* ================================================================== *)

(** X19: what [shorten] returns is the stripped text or a beginning of it
    followed by the ellipsis, and that beginning does not end in a blank;
    for every budget, negative ones included. *)
Theorem shorten_keeps_a_beginning (s : Py.str) (max_chars : Z) :
  shorten s max_chars = Py.strip s
  \/ exists p w,
       Py.strip s = p ++ w
       /\ shorten s max_chars = p ++ [Py.ELLIPSIS]
       /\ Py.rstrip p = p.
Proof.
  unfold shorten. destruct (Py.len (Py.strip s) <=? max_chars); [now left|right].
  set (cut := Py.slice_to (Py.strip s) (max_chars + 1)).
  assert (Hcut : exists w, Py.strip s = cut ++ w).
  { exists (Py.slice_from (Py.strip s) (max_chars + 1)). unfold cut.
    now rewrite slice_to_from. }
  destruct Hcut as [w Hw].
  assert (Hkept : exists w', cut = (if Py.has_char Py.SPACE cut
                                   then Py.rsplit1_space_head cut else cut) ++ w').
  { destruct (Py.has_char Py.SPACE cut) eqn:E; [|exists []; now rewrite app_nil_r].
    destruct (rsplit1_space_found cut E) as (l & r & Hlr).
    unfold Py.rsplit1_space_head. rewrite Hlr.
    exists ([Py.SPACE] ++ r). now apply rsplit1_space_some in Hlr. }
  destruct Hkept as [w' Hw'].
  set (kept := if Py.has_char Py.SPACE cut then Py.rsplit1_space_head cut else cut) in *.
  destruct (rstrip_split kept) as [w'' Hw''].
  exists (Py.rstrip kept), (w'' ++ w' ++ w). split; [|split].
  - rewrite Hw, Hw'. rewrite Hw'' at 1. now rewrite <- !app_assoc.
  - reflexivity.
  - apply rstrip_idem.
Qed.

Lemma chunk_step_nonempty (max_len : Z) (chunks chunks' : list Py.str) (buf buf' p : Py.str) :
  1 <= max_len ->
  Forall (fun c => c <> []) chunks ->
  chunk_step max_len (chunks, buf) p = Some (chunks', buf') ->
  Forall (fun c => c <> []) chunks'.
Proof.
  intros Hm Hc. unfold chunk_step.
  destruct (Py.strip p) as [|c0 p0] eqn:Ep; [now intros [= <- <-]|].
  rewrite <- Ep. destruct (_ <=? max_len); [now intros [= <- <-]|].
  destruct (hard_split_spec max_len (S (length (Py.strip p))) Hm (Py.strip p))
    as (cs & r & -> & _ & Hcs & _); [lia|].
  intros [= <- <-]. apply Forall_app. split.
  - destruct buf; [assumption|]. apply Forall_app. split; [assumption|].
    repeat constructor. discriminate.
  - eapply Forall_impl; [exact Hcs|]. intros c Hlen ->.
    unfold Py.len in Hlen. simpl in Hlen. lia.
Qed.

Lemma chunk_loop_nonempty (max_len : Z) (parts : list Py.str) :
  1 <= max_len ->
  forall (chunks chunks' : list Py.str) (buf buf' : Py.str),
    Forall (fun c => c <> []) chunks ->
    chunk_loop max_len (chunks, buf) parts = Some (chunks', buf') ->
    Forall (fun c => c <> []) chunks'.
Proof.
  intros Hm. induction parts as [|p parts IH]; intros chunks chunks' buf buf' Hc;
    cbn [chunk_loop].
  - now intros [= <- <-].
  - destruct (chunk_step max_len (chunks, buf) p) as [[c1 b1]|] eqn:E; [|discriminate].
    apply IH. now apply (chunk_step_nonempty max_len chunks c1 buf b1 p).
Qed.

(** X20: for [max_len >= 1] a blank text gives the single empty chunk, and
    any other text gives at least one chunk and no empty one. *)
Theorem chunk_text_no_empty_chunk (text : Py.str) (max_len : Z) :
  1 <= max_len ->
  (allspace text -> chunk_text text max_len = Some [[]])
  /\ (~ allspace text ->
      exists chunks,
        chunk_text text max_len = Some chunks
        /\ chunks <> [] /\ Forall (fun c => c <> []) chunks).
Proof.
  intros Hm. unfold chunk_text. split.
  - intros H. now rewrite (strip_allspace text H).
  - intros H. pose proof (proj2 (strip_nil_iff text)) as Hnil.
    destruct (Py.strip text) as [|c0 t0] eqn:Et.
    { exfalso. apply H. apply strip_nil_iff. exact Et. }
    rewrite <- Et in *. clear Hnil.
    destruct (_ <=? max_len).
    { exists [Py.strip text]. split; [reflexivity|]. split; [discriminate|].
      repeat constructor. rewrite Et. discriminate. }
    destruct (chunk_loop_spec max_len (Py.split_blank (Py.strip text)) Hm [] [])
      as (chunks & buf & Hloop & _ & _ & Hvis);
      [constructor|unfold Py.len; simpl; lia|].
    pose proof (chunk_loop_nonempty max_len _ Hm [] chunks [] buf ltac:(constructor) Hloop)
      as Hne.
    rewrite Hloop. simpl in Hvis. rewrite visible_split, visible_strip in Hvis.
    exists (match buf with [] => chunks | _ :: _ => chunks ++ [buf] end).
    split; [reflexivity|]. split.
    + intros Hempty. apply H. apply allspace_visible. rewrite <- Hvis.
      destruct buf; [now rewrite Hempty|]. now apply app_eq_nil in Hempty.
    + destruct buf; [assumption|]. apply Forall_app. split; [assumption|].
      repeat constructor. discriminate.
Qed.

Lemma split_blank_one_line (s : Py.str) :
  Forall (fun c => c <> Py.NEWLINE) s -> Py.split_blank_aux false s = [s].
Proof.
  induction 1 as [|c t Hc Ht IH]; [reflexivity|]. cbn [Py.split_blank_aux].
  destruct (N.eqb_spec c Py.NEWLINE); [contradiction|]. cbn [andb]. now rewrite IH.
Qed.

Lemma nonspace_no_newline s : nonspace s -> Forall (fun c => c <> Py.NEWLINE) s.
Proof.
  intros H. eapply Forall_impl; [exact H|]. intros c Hc ->. discriminate Hc.
Qed.

Lemma chunk_step_overlong (max_len : Z) (p : Py.str) :
  1 <= max_len -> nonspace p -> max_len < Py.len p ->
  chunk_step max_len ([], []) p
  = match hard_split (S (length p)) max_len p with
    | Some (cs, r) => Some (cs, r)
    | None => None
    end.
Proof.
  intros Hm Hns Hlong. unfold chunk_step. rewrite (strip_nonspace p Hns).
  destruct p as [|c t] eqn:Ep.
  { unfold Py.len in Hlong. simpl in Hlong. lia. }
  rewrite <- Ep in *. cbn [app]. rewrite (strip_nonspace p Hns).
  destruct (Z.leb_spec (Py.len p) max_len); [lia|reflexivity].
Qed.

(** X21: a text without any blank is cut into pieces that, put end to
    end, are the text; every piece before the last is exactly [max_len]
    long. *)
Theorem chunk_text_unbroken (text : Py.str) (max_len : Z) :
  1 <= max_len -> nonspace text ->
  exists chunks,
    chunk_text text max_len = Some chunks
    /\ concat chunks = text
    /\ forall pieces last, chunks = pieces ++ [last] ->
                           Forall (fun c => Py.len c = max_len) pieces.
Proof.
  intros Hm Hns. unfold chunk_text. rewrite (strip_nonspace text Hns).
  assert (Hone : forall (x : Py.str) pieces last,
             [x] = pieces ++ [last] -> Forall (fun c => Py.len c = max_len) pieces).
  { intros x pieces last H. destruct pieces as [|a pieces]; [constructor|].
    simpl in H. injection H as _ H. now destruct pieces. }
  destruct text as [|c0 t0] eqn:Et.
  { exists [[]]. split; [reflexivity|]. split; [reflexivity|apply Hone]. }
  rewrite <- Et in *.
  destruct (Z.leb_spec (Py.len text) max_len) as [Hfit|Hbig].
  { exists [text]. split; [reflexivity|]. split; [simpl; now rewrite app_nil_r|apply Hone]. }
  unfold Py.split_blank. rewrite (split_blank_one_line text (nonspace_no_newline text Hns)).
  cbn [chunk_loop]. rewrite (chunk_step_overlong max_len text Hm Hns Hbig).
  destruct (hard_split_spec max_len (S (length text)) Hm text)
    as (cs & r & -> & Hcat & Hcs & _); [lia|].
  exists (match r with [] => cs | _ :: _ => cs ++ [r] end).
  split; [reflexivity|]. split.
  - destruct r; [now rewrite app_nil_r in Hcat|].
    rewrite concat_app. simpl. now rewrite app_nil_r.
  - intros pieces last Hsplit. destruct r as [|r0 r'].
    + rewrite Hsplit in Hcs. apply Forall_app in Hcs. tauto.
    + apply app_inj_tail in Hsplit. destruct Hsplit as [<- _]. exact Hcs.
Qed.

Section MeasuredFacts.

Variable stringWidth : Py.str -> Q.
Variable max_width : Q.

Local Abbreviation fit := (fits stringWidth max_width).

Lemma ellipsize_loop_any (text : Py.str) (fuel : nat) :
  forall (lo hi : Z) (best : Py.str),
    0 <= lo -> hi <= Py.len text ->
    (Z.to_nat (hi - lo + 1) < fuel)%nat ->
    (best = [] \/ exists m, 0 <= m <= Py.len text /\ best = ell_cand text m
                            /\ fit best = true) ->
    exists r,
      ellipsize_loop stringWidth max_width fuel text lo hi best = Some r
      /\ (r = [] \/ exists m, 0 <= m <= Py.len text /\ r = ell_cand text m
                              /\ fit r = true).
Proof.
  induction fuel as [|fuel IH]; intros lo hi best Hlo Hhi Hfuel Hbest; [lia|].
  simpl. destruct (Z.leb_spec lo hi) as [Hle|Hgt]; [|now exists best].
  set (mid := (lo + hi) / 2).
  assert (Hmid : lo <= mid <= hi) by (unfold mid; split;
    [apply Z.div_le_lower_bound|apply Z.div_le_upper_bound]; lia).
  destruct (fit (ell_cand text mid)) eqn:Hfit.
  - apply IH; [lia|lia|lia|]. right. exists mid. split; [lia|now split].
  - apply IH; [lia|lia|lia|assumption].
Qed.

(** X22: whatever the measurement function, the search stops, and its
    result is the text itself when the text fits, else a right-stripped
    beginning of the text followed by the ellipsis; that result fits
    unless it is the bare ellipsis. *)
Theorem ellipsize_result_fits (text : Py.str) :
  exists r,
    ellipsize_line_to_width stringWidth max_width text = Some r
    /\ (fit text = true -> r = text)
    /\ (fit text = false ->
        exists m, 0 <= m <= Py.len text
                  /\ r = Py.rstrip (Py.slice_to text m) ++ [Py.ELLIPSIS]
                  /\ (fit r = true \/ r = [Py.ELLIPSIS])).
Proof.
  unfold ellipsize_line_to_width. destruct (fit text) eqn:Hfit.
  { exists text. split; [reflexivity|]. split; [reflexivity|discriminate]. }
  destruct (ellipsize_loop_any text (length text + 2) 0 (Py.len text) [])
    as (r & Hr & Hres); try (unfold Py.len; lia); [now left|].
  rewrite Hr. pose proof (len_nonneg text) as Hlen.
  destruct Hres as [->|(m & Hm & -> & Hfm)].
  - exists [Py.ELLIPSIS]. split; [reflexivity|]. split; [discriminate|].
    intros _. exists 0. split; [lia|]. split; [reflexivity|now right].
  - exists (ell_cand text m). split.
    + unfold ell_cand. now destruct (Py.rstrip (Py.slice_to text m)).
    + split; [discriminate|]. intros _. exists m. split; [assumption|].
      split; [reflexivity|now left].
Qed.

Local Abbreviation step := (wrap_step stringWidth max_width).
Local Abbreviation wrap_ok := (wrap_plain_ok stringWidth max_width).

Lemma wrap_step_plain (st : WrapState) (ch : N) :
  wrap_ok st -> is_url_break ch = false -> fit [ch] = true ->
  wrap_ok (step st ch).
Proof.
  intros (Hb & Hcur & Hlines) Hch Hfit. unfold wrap_step. rewrite Hch, Hb.
  destruct (fit (w_cur st ++ [ch])) eqn:Hcand.
  - split; [reflexivity|]. split; [now right|exact Hlines].
  - cbn [Z.ltb Z.compare]. destruct (w_cur st) as [|c cur] eqn:Ec.
    + simpl in Hcand. congruence.
    + split; [|split].
      * cbn [w_last_break_pos rescan_break]. now rewrite Hch.
      * now right.
      * cbn [w_lines]. apply Forall_app. split; [assumption|].
        constructor; [|constructor]. split; [|discriminate].
        destruct Hcur as [Hcur|Hcur]; [discriminate|assumption].
Qed.

Lemma wrap_fold_plain (url : Py.str) :
  forall st,
    wrap_ok st ->
    Forall (fun c => is_url_break c = false /\ fit [c] = true) url ->
    wrap_ok (fold_left step url st).
Proof.
  induction url as [|ch url IH]; intros st Hst Hurl; simpl; [assumption|].
  inversion Hurl as [|? ? [Hb Hf] Hrest]; subst.
  apply IH; [now apply wrap_step_plain|assumption].
Qed.

(** X23: for a URL without break characters whose characters each fit on
    a line, even after stripping, every line of the wrap fits and none is
    empty. *)
Theorem wrap_url_plain_lines_fit (url : Py.str) :
  Forall (fun c => is_url_break c = false /\ fit [c] = true) (Py.strip url) ->
  Forall (fun l => fit l = true /\ l <> []) (wrap_url_smart stringWidth max_width url).
Proof.
  intros Hurl. unfold wrap_url_smart.
  destruct (Py.strip url) as [|c0 u0] eqn:Eu; [constructor|]. rewrite <- Eu in *.
  destruct (wrap_fold_plain (Py.strip url) (mkWrap [] [] (-1))) as (_ & Hcur & Hlines);
    [|assumption|].
  { split; [reflexivity|]. split; [now left|constructor]. }
  destruct (w_cur _) as [|c cur] eqn:Ec; [assumption|].
  apply Forall_app. split; [assumption|]. constructor; [|constructor].
  split; [|discriminate]. destruct Hcur as [Hcur|Hcur]; [discriminate|assumption].
Qed.

End MeasuredFacts.

Lemma chunk_text_no_empty_chunk_witness :
  exists chunks,
    chunk_text digest_two_paragraphs 5 = Some chunks
    /\ chunks <> [] /\ Forall (fun c => c <> []) chunks.
Proof.
  apply (proj2 (chunk_text_no_empty_chunk digest_two_paragraphs 5 ltac:(lia))).
  intros H. inversion H as [|c t Hc Ht]. discriminate Hc.
Defined.

Lemma chunk_text_unbroken_witness :
  exists chunks,
    chunk_text (Py.lit "abcdefgh") 3 = Some chunks
    /\ concat chunks = Py.lit "abcdefgh"
    /\ forall pieces last, chunks = pieces ++ [last] ->
                           Forall (fun c => Py.len c = 3) pieces.
Proof.
  apply chunk_text_unbroken; [lia|]. unfold nonspace. each_char.
Defined.

Lemma ellipsize_result_fits_witness :
  ellipsize_line_to_width unit_width 5 (Py.lit "abc") = Some (Py.lit "abc").
Proof.
  destruct (ellipsize_result_fits unit_width 5 (Py.lit "abc")) as (r & Hr & Hfit & _).
  rewrite Hr. f_equal. apply Hfit. reflexivity.
Defined.

Lemma wrap_url_plain_lines_fit_witness :
  Forall (fun l => fits unit_width 5 l = true /\ l <> [])
    (wrap_url_smart unit_width 5 (Py.lit "abcdefghijkl")).
Proof.
  apply wrap_url_plain_lines_fit.
  change (Py.strip (Py.lit "abcdefghijkl")) with (Py.lit "abcdefghijkl"). each_char.
Defined.

(* ================================================================== *)
(** ** The layout cursor *)
(* ================================================================== *)

Lemma layout_wf_inv (st : Layout.State) :
  layout_wf st ->
  exists pn a b cc ls,
    st = Layout.mkState pn [a; b] cc ls /\ (cc = 0 \/ cc = 1)%nat.
Proof.
  destruct st as [pn ys cc ls]. intros [Hl Hc]. simpl in *.
  destruct ys as [|a [|b [|? ?]]]; try discriminate.
  exists pn, a, b, cc, ls. split; [reflexivity|lia].
Qed.

Ltac layout_cases st H :=
  let pn := fresh "pn" in let a := fresh "a" in let b := fresh "b" in
  let cc := fresh "cc" in let ls := fresh "ls" in let Hc := fresh "Hc" in
  destruct (layout_wf_inv st H) as (pn & a & b & cc & ls & -> & [-> | ->]).

Lemma has_room_iff (st : Layout.State) (i : nat) (need : Q) :
  Layout.has_room st i need = true <-> (Layout.bottom <= Layout.y_at st i - need)%Q.
Proof. unfold Layout.has_room. apply Qle_bool_iff. Qed.

Lemma ensure_room_has_room (need : Q) (st : Layout.State) :
  layout_wf st -> (need <= Layout.top - Layout.bottom)%Q ->
  Layout.has_room (Layout.ensure_room need st)
    (Layout.current_col (Layout.ensure_room need st)) need = true.
Proof.
  intros Hwf Hneed.
  assert (Htop : Qle_bool Layout.bottom (Layout.top - need) = true)
    by (apply Qle_bool_iff; Lqa.lra).
  layout_cases st Hwf; unfold Layout.ensure_room, Layout.has_room, Layout.y_at;
    cbn [Layout.col_y Layout.current_col Layout.page_num Layout.last_sec Layout.new_page
         nth Nat.eqb andb];
    repeat match goal with
      | |- context [if Qle_bool ?x ?y then _ else _] =>
          let E := fresh "E" in destruct (Qle_bool x y) eqn:E
      end;
    cbn [Layout.col_y Layout.current_col nth]; assumption.
Qed.

(** X24: after [ensure_room(need)], for a need that a fresh column can
    hold, the active column has room for the block; the cursor stays well
    formed, the page number grows by one at most, and it grows only when
    one of the two columns had no room. *)
Theorem ensure_room_makes_room (need : Q) (st : Layout.State) :
  layout_wf st -> (need <= Layout.top - Layout.bottom)%Q ->
  let st' := Layout.ensure_room need st in
  layout_wf st'
  /\ Layout.has_room st' (Layout.current_col st') need = true
  /\ Layout.page_num st <= Layout.page_num st' <= Layout.page_num st + 1
  /\ (Layout.page_num st' = Layout.page_num st + 1 ->
      Layout.has_room st 0 need = false \/ Layout.has_room st 1 need = false).
Proof.
  intros Hwf Hneed. cbv zeta.
  split; [|split; [now apply ensure_room_has_room|]].
  - layout_cases st Hwf; unfold Layout.ensure_room, Layout.has_room, Layout.y_at, layout_wf;
      cbn [Layout.col_y Layout.current_col Layout.page_num Layout.last_sec Layout.new_page
           nth Nat.eqb andb];
      repeat match goal with
        | |- context [if Qle_bool ?x ?y then _ else _] =>
            let E := fresh "E" in destruct (Qle_bool x y) eqn:E
        end;
      cbn [Layout.col_y Layout.current_col length]; split; try reflexivity; lia.
  - layout_cases st Hwf; unfold Layout.ensure_room, Layout.has_room, Layout.y_at;
      cbn [Layout.col_y Layout.current_col Layout.page_num Layout.last_sec Layout.new_page
           nth Nat.eqb andb];
      repeat match goal with
        | |- context [if Qle_bool ?x ?y then _ else _] =>
            let E := fresh "E" in destruct (Qle_bool x y) eqn:E
        end;
      cbn [Layout.page_num]; (split; [lia|]); intros Hp; try lia; auto.
Qed.

Lemma above_ensure_room (need : Q) (st : Layout.State) :
  above_margin st -> (need <= Layout.top - Layout.bottom)%Q ->
  above_margin (Layout.ensure_room need st).
Proof.
  intros (Hwf & H0 & H1) Hneed.
  assert (Htb : (Layout.bottom <= Layout.top)%Q) by (vm_compute; discriminate).
  revert H0 H1. layout_cases st Hwf;
    unfold Layout.ensure_room, Layout.has_room, Layout.y_at, above_margin, layout_wf;
    cbn [Layout.col_y Layout.current_col Layout.page_num Layout.last_sec Layout.new_page
         nth Nat.eqb andb];
    intros H0 H1;
    repeat match goal with
      | |- context [if Qle_bool ?x ?y then _ else _] =>
          let E := fresh "E" in destruct (Qle_bool x y) eqn:E
      end;
    cbn [Layout.col_y Layout.current_col Layout.page_num length nth];
    repeat split; try lia; try assumption.
Qed.

(** Moving the cursor of the active column down to [y]. *)
Lemma above_set_y (st : Layout.State) (y : Q) :
  above_margin st -> (Layout.bottom <= y)%Q -> above_margin (Layout.set_y st y).
Proof.
  intros (Hwf & H0 & H1) Hy. revert H0 H1. layout_cases st Hwf;
    unfold Layout.set_y, Layout.y_at, above_margin, layout_wf;
    cbn [Layout.col_y Layout.current_col Layout.page_num Layout.last_sec nth length];
    intros H0 H1; repeat split; try lia; assumption.
Qed.

Lemma above_balance (st : Layout.State) : above_margin st -> above_margin (Layout.balance st).
Proof.
  intros (Hwf & H0 & H1). unfold Layout.balance.
  destruct (negb _); [|destruct (negb _)]; unfold above_margin, layout_wf in *;
    cbn [Layout.col_y Layout.current_col]; repeat split; try tauto; try lia.
Qed.

Lemma above_with_section (st : Layout.State) (sec : option Category) :
  above_margin st ->
  above_margin (Layout.mkState (Layout.page_num st) (Layout.col_y st)
                  (Layout.current_col st) sec).
Proof. intros H. exact H. Qed.

Lemma room_then_above (st : Layout.State) (need drop : Q) :
  Layout.has_room st (Layout.current_col st) need = true -> (drop <= need)%Q ->
  (Layout.bottom <= Layout.y_at st (Layout.current_col st) - drop)%Q.
Proof. intros H Hd. apply has_room_iff in H. Lqa.lra. Qed.

Lemma need_section : ((60 # 100) * Layout.inch <= Layout.top - Layout.bottom)%Q.
Proof. vm_compute. discriminate. Qed.

Lemma need_card : ((175 # 100) * Layout.inch <= Layout.top - Layout.bottom)%Q.
Proof. vm_compute. discriminate. Qed.

Lemma above_place (st : Layout.State) (sec : Category) (c : Layout.CardLines) :
  above_margin st -> card_within_need c -> above_margin (Layout.place st (sec, c)).
Proof.
  intros Hst Hc. unfold Layout.place.
  set (st1 := if match Layout.last_sec st with
                 | Some s => Layout.category_eqb sec s
                 | None => false
                 end then st else _).
  assert (H1 : above_margin st1).
  { unfold st1. destruct (match Layout.last_sec st with Some _ => _ | None => _ end);
      [assumption|].
    apply above_with_section.
    pose proof (above_ensure_room _ st Hst need_section) as Ha.
    pose proof (ensure_room_has_room _ st (proj1 Hst) need_section) as Hroom.
    apply above_set_y; [assumption|]. unfold Layout.after_section.
    pose proof (room_then_above _ _ ((22 # 100) * Layout.inch + (16 # 100) * Layout.inch)
                  Hroom) as Hr.
    apply Hr. vm_compute. discriminate. }
  clearbody st1.
  apply above_balance.
  pose proof (above_ensure_room _ st1 H1 need_card) as Ha.
  pose proof (ensure_room_has_room _ st1 (proj1 H1) need_card) as Hroom.
  apply above_set_y; [assumption|]. unfold Layout.after_card.
  apply has_room_iff in Hroom. unfold card_within_need in Hc. Lqa.lra.
Qed.

Lemma above_fold (blocks : list (Category * Layout.CardLines)) :
  forall st,
    above_margin st -> Forall (fun blk => card_within_need (snd blk)) blocks ->
    above_margin (fold_left Layout.place blocks st).
Proof.
  induction blocks as [|[sec c] blocks IH]; intros st Hst Hall; simpl; [assumption|].
  inversion Hall as [|? ? Hc Hrest]; subst.
  apply IH; [now apply above_place|assumption].
Qed.

Lemma above_start : above_margin Layout.start.
Proof.
  unfold above_margin, layout_wf. simpl. repeat split; try lia; vm_compute; discriminate.
Qed.

(** A card with at most two link lines is within the need. *)
Lemma card_two_links_within (c : Layout.CardLines) :
  (Layout.n_link_lines c <= 2)%nat -> card_within_need c.
Proof.
  intros Hl. unfold card_within_need, Layout.card_h, Layout.of_nat, Layout.inch.
  assert (Hh : (Nat.min 2 (Layout.n_hl c) <= 2)%nat) by lia.
  assert (Hs : (Nat.min 3 (Layout.n_slines c) <= 3)%nat) by lia.
  set (h := Nat.min 2 (Layout.n_hl c)) in *. set (s := Nat.min 3 (Layout.n_slines c)) in *.
  set (l := Layout.n_link_lines c) in *.
  assert (Hq : forall n m : nat, (n <= m)%nat ->
             (0 <= inject_Z (Z.of_nat n) <= inject_Z (Z.of_nat m))%Q).
  { intros n m H. split; [change 0%Q with (inject_Z 0)|]; rewrite <- Zle_Qle; lia. }
  pose proof (Hq h 2%nat Hh) as Hh'. pose proof (Hq s 3%nat Hs) as Hs'.
  pose proof (Hq l 2%nat Hl) as Hl'.
  change (inject_Z (Z.of_nat 2)) with 2%Q in *. change (inject_Z (Z.of_nat 3)) with 3%Q in *.
  destruct (Layout.has_kicker c); destruct (Layout.has_link c); Lqa.lra.
Qed.

Section RenderFacts.

Variable classify_item : Item -> Category.
Variable measure : Item -> Layout.CardLines.
Variable TOP_N : Z.

Lemma group_from_news (news : list Article) (sa : Category * Article) :
  In sa (Layout.group classify_item news) -> In (snd sa) news.
Proof.
  unfold Layout.group. rewrite in_flat_map. intros (sec & _ & H).
  apply in_map_iff in H. destruct H as (a & <- & Ha). apply filter_In in Ha. tauto.
Qed.

Lemma slice_to_In {A} (l : list A) (k : Z) (x : A) : In x (Py.slice_to l k) -> In x l.
Proof. intros H. rewrite <- (slice_to_from l k). apply in_or_app. now left. Qed.

(** X25: when every card has at most two link lines, as with
    [MAX_URL_LINES = 2], the cursor is well formed and both column cursors
    are at or above the bottom margin when the render is over: no header
    and no card was drawn below it. *)
Theorem render_above_margin (news : list Article) :
  Forall (fun a => (Layout.n_link_lines (measure (a_item a)) <= 2)%nat) news ->
  above_margin (Layout.render classify_item measure TOP_N news).
Proof.
  intros Hall. unfold Layout.render. destruct news as [|a0 news0] eqn:En; [apply above_start|].
  rewrite <- En in *. apply above_fold; [apply above_start|].
  apply List.Forall_forall. intros blk Hblk. apply in_map_iff in Hblk.
  destruct Hblk as (sa & <- & Hsa). cbn [snd]. apply card_two_links_within.
  apply slice_to_In, group_from_news in Hsa.
  exact (proj1 (List.Forall_forall _ _) Hall _ Hsa).
Qed.

End RenderFacts.

Lemma ensure_room_makes_room_witness :
  Layout.has_room (Layout.ensure_room ((175 # 100) * Layout.inch) Layout.start)
    (Layout.current_col (Layout.ensure_room ((175 # 100) * Layout.inch) Layout.start))
    ((175 # 100) * Layout.inch) = true.
Proof.
  apply (ensure_room_makes_room ((175 # 100) * Layout.inch) Layout.start).
  - split; simpl; lia.
  - vm_compute. discriminate.
Defined.

Lemma render_above_margin_witness :
  above_margin
    (Layout.render (classify ascii_lower) (fun _ => tall_card) 10
       [mkArticle fresh_item 60; mkArticle older_item 45]).
Proof.
  apply render_above_margin. repeat constructor.
Defined.

(* ================================================================== *)
(** ** Grouping by section and the threat pulse *)
(* ================================================================== *)

Lemma category_eqb_eq (a b : Category) : Layout.category_eqb a b = true <-> a = b.
Proof. destruct a, b; simpl; split; intros H; try reflexivity; discriminate. Qed.

Lemma category_eqb_refl (a : Category) : Layout.category_eqb a a = true.
Proof. now apply category_eqb_eq. Qed.

Lemma filter_filter_same {A} (f g : A -> bool) (l : list A) :
  List.filter f (List.filter g l) = List.filter (fun x => g x && f x) l.
Proof.
  induction l as [|x l IH]; simpl; [reflexivity|].
  destruct (g x); simpl; [destruct (f x)|]; now rewrite IH.
Qed.

Lemma filter_none {A} (f : A -> bool) (l : list A) :
  (forall x, In x l -> f x = false) -> List.filter f l = [].
Proof.
  induction l as [|x l IH]; intros H; simpl; [reflexivity|].
  rewrite (H x (or_introl eq_refl)). apply IH. intros y Hy. apply H. now right.
Qed.

Lemma filter_all {A} (f : A -> bool) (l : list A) :
  (forall x, In x l -> f x = true) -> List.filter f l = l.
Proof.
  induction l as [|x l IH]; intros H; simpl; [reflexivity|].
  rewrite (H x (or_introl eq_refl)). f_equal. apply IH. intros y Hy. apply H. now right.
Qed.

Section GroupFacts.

Variable classify_item : Item -> Category.

Local Open Scope nat_scope.

Local Abbreviation in_section sec :=
  (fun a : Article => Layout.category_eqb (classify_item (a_item a)) sec).
Local Abbreviation block sec news :=
  (List.map (fun a : Article => (sec, a)) (List.filter (in_section sec) news)).

Lemma group_blocks (news : list Article) :
  Layout.group classify_item news
  = block ZERO_DAYS news ++ block RANSOMWARE news ++ block BREACHES news
    ++ block PHISHING news ++ block OTHER news.
Proof.
  unfold Layout.group, Layout.sections_order. simpl. now rewrite app_nil_r.
Qed.

Lemma block_filter (sec s : Category) (news : list Article) :
  List.filter (fun sa : Category * Article => Layout.category_eqb (fst sa) s) (block sec news)
  = if Layout.category_eqb sec s then block sec news else [].
Proof.
  destruct (Layout.category_eqb sec s) eqn:E.
  - apply filter_all. intros [c a] H. apply in_map_iff in H.
    destruct H as (a' & [= <- <-] & _). exact E.
  - apply filter_none. intros [c a] H. apply in_map_iff in H.
    destruct H as (a' & [= <- <-] & _). exact E.
Qed.

Lemma group_section (news : list Article) (s : Category) :
  List.filter (fun sa : Category * Article => Layout.category_eqb (fst sa) s)
    (Layout.group classify_item news)
  = block s news.
Proof.
  rewrite group_blocks, !List.filter_app, !block_filter.
  destruct s; simpl; rewrite ?app_nil_r; reflexivity.
Qed.

Lemma block_rank (sec : Category) (news : list Article) :
  Forall (fun sa : Category * Article => fst sa = sec) (block sec news).
Proof.
  apply List.Forall_forall. intros [c a] H. apply in_map_iff in H.
  now destruct H as (a' & [= <- <-] & _).
Qed.

Lemma sorted_app_ranks (l1 l2 : list (Category * Article)) (r : nat) :
  StronglySorted (fun x y => section_rank (fst x) <= section_rank (fst y)) l1 ->
  StronglySorted (fun x y => section_rank (fst x) <= section_rank (fst y)) l2 ->
  Forall (fun x => section_rank (fst x) <= r) l1 ->
  Forall (fun x => r <= section_rank (fst x)) l2 ->
  StronglySorted (fun x y => section_rank (fst x) <= section_rank (fst y)) (l1 ++ l2).
Proof.
  intros H1 H2 Hle Hge. induction H1 as [|x l1 Hs IH Hx]; simpl; [assumption|].
  inversion Hle as [|? ? Hxr Hrest]; subst.
  constructor; [now apply IH|].
  apply Forall_app. split; [assumption|].
  eapply Forall_impl; [exact Hge|]. simpl. intros y Hy. lia.
Qed.

Lemma block_sorted (sec : Category) (news : list Article) :
  StronglySorted (fun x y : Category * Article =>
                    section_rank (fst x) <= section_rank (fst y)) (block sec news).
Proof.
  pose proof (block_rank sec news) as H.
  induction H as [|x l Hx Hl IH]; constructor; [assumption|].
  eapply Forall_impl; [exact Hl|]. simpl. intros y Hy. rewrite Hx, Hy. lia.
Qed.

Lemma block_rank_is (sec : Category) (news : list Article) (P : nat -> Prop) :
  P (section_rank sec) ->
  Forall (fun x : Category * Article => P (section_rank (fst x))) (block sec news).
Proof.
  intros HP. eapply Forall_impl; [apply block_rank|]. simpl. intros y ->. exact HP.
Qed.

(** X26: [items] holds every article of [news] once, each under the
    section [classify] gives it; the sections come in the order of
    [sections_order], and inside a section the articles keep the order
    they have in [news]. *)
Theorem group_by_section (news : list Article) :
  let items := Layout.group classify_item news in
  Permutation (List.map snd items) news
  /\ Forall (fun sa => fst sa = classify_item (a_item (snd sa))) items
  /\ StronglySorted (fun x y => section_rank (fst x) <= section_rank (fst y)) items
  /\ forall sec,
       List.map snd (List.filter (fun sa => Layout.category_eqb (fst sa) sec) items)
       = List.filter (fun a => Layout.category_eqb (classify_item (a_item a)) sec) news.
Proof.
  cbv zeta. repeat split.
  - rewrite group_blocks, !List.map_app, !List.map_map. cbn [snd].
    rewrite !List.map_id.
    induction news as [|a news IH]; [reflexivity|]. cbn [List.filter].
    destruct (classify_item (a_item a)); cbn [Layout.category_eqb];
      rewrite <- ?app_comm_cons, <- ?Permutation_middle; apply perm_skip, IH.
  - unfold Layout.group. apply List.Forall_forall. intros [sec a] H.
    apply in_flat_map in H. destruct H as (s & _ & H). apply in_map_iff in H.
    destruct H as (a' & [= <- <-] & Ha). apply filter_In in Ha. simpl.
    symmetry. now apply category_eqb_eq.
  - rewrite group_blocks.
    apply (sorted_app_ranks _ _ 0); [apply block_sorted| |
      apply (block_rank_is ZERO_DAYS news (fun n => n <= 0)); simpl; lia|].
    2:{ rewrite !Forall_app. repeat split;
          match goal with |- Forall _ (List.map _ (List.filter (in_section ?s) _)) =>
            apply (block_rank_is s news (fun n => 0 <= n)); simpl; lia end. }
    apply (sorted_app_ranks _ _ 1); [apply block_sorted| |
      apply (block_rank_is RANSOMWARE news (fun n => n <= 1)); simpl; lia|].
    2:{ rewrite !Forall_app. repeat split;
          match goal with |- Forall _ (List.map _ (List.filter (in_section ?s) _)) =>
            apply (block_rank_is s news (fun n => 1 <= n)); simpl; lia end. }
    apply (sorted_app_ranks _ _ 2); [apply block_sorted| |
      apply (block_rank_is BREACHES news (fun n => n <= 2)); simpl; lia|].
    2:{ rewrite !Forall_app. repeat split;
          match goal with |- Forall _ (List.map _ (List.filter (in_section ?s) _)) =>
            apply (block_rank_is s news (fun n => 2 <= n)); simpl; lia end. }
    apply (sorted_app_ranks _ _ 3); [apply block_sorted|apply block_sorted|
      apply (block_rank_is PHISHING news (fun n => n <= 3)); simpl; lia|
      apply (block_rank_is OTHER news (fun n => 3 <= n)); simpl; lia].
  - intros sec. rewrite group_section, List.map_map. cbn [snd]. apply List.map_id.
Qed.

Lemma pulse_fold (items : list Article) :
  forall (init : Category -> nat) (k : Category),
    fold_left (pulse_step classify_item) items init k
    = init k + length (List.filter (fun a => Layout.category_eqb
                                               (classify_item (a_item a)) k) items).
Proof.
  induction items as [|a items IH]; intros init k; cbn [fold_left List.filter];
    [simpl; lia|].
  rewrite IH. unfold pulse_step.
  replace (Layout.category_eqb k (classify_item (a_item a)))
    with (Layout.category_eqb (classify_item (a_item a)) k)
    by (destruct k, (classify_item (a_item a)); reflexivity).
  destruct (Layout.category_eqb _ k); simpl; lia.
Qed.

(** X27: the threat pulse of the sidebar counts, for each section, the
    cards that the body of the report lists under it, and the five
    counters add up to the number of items. *)
Theorem threat_pulse_counts (items : list Article) :
  (forall sec,
      threat_pulse classify_item items sec
      = length (List.filter (fun sa => Layout.category_eqb (fst sa) sec)
                  (Layout.group classify_item items)))
  /\ list_sum (List.map (threat_pulse classify_item items) Layout.sections_order)
     = length items.
Proof.
  split.
  - intros sec. unfold threat_pulse. rewrite pulse_fold, group_section, length_map.
    reflexivity.
  - unfold threat_pulse, Layout.sections_order. cbn [List.map list_sum].
    rewrite !pulse_fold. induction items as [|a items IH]; [reflexivity|].
    cbn [List.filter length]. destruct (classify_item (a_item a));
      cbn [Layout.category_eqb length]; simpl in IH |- *; lia.
Qed.

End GroupFacts.

(* ================================================================== *)
(** ** The public URL of the report *)
(* ================================================================== *)

Lemma rstrip_slash_snoc (s : Py.str) : rstrip_slash (s ++ [SLASH]) = rstrip_slash s.
Proof.
  unfold rstrip_slash. rewrite rev_app_distr. cbn [rev app lstrip_slash].
  now rewrite N.eqb_refl.
Qed.

Lemma strip_slash_snoc (s : Py.str) : strip_slash (s ++ [SLASH]) = strip_slash s.
Proof.
  unfold strip_slash. induction s as [|c t IH]; cbn [app lstrip_slash].
  - now rewrite N.eqb_refl.
  - destruct (N.eqb c SLASH); [exact IH|].
    apply (rstrip_slash_snoc (c :: t)).
Qed.

Lemma until_slash_app (x y : Py.str) :
  slash_free x -> until_slash (x ++ SLASH :: y) = x.
Proof.
  induction 1 as [|c x Hc Hx IH]; cbn [app until_slash].
  - now rewrite N.eqb_refl.
  - destruct (N.eqb_spec c SLASH) as [E|_]; [contradiction|]. now rewrite IH.
Qed.

Lemma until_slash_free (x : Py.str) : slash_free x -> until_slash x = x.
Proof.
  induction 1 as [|c x Hc Hx IH]; cbn [until_slash]; [reflexivity|].
  destruct (N.eqb_spec c SLASH) as [E|_]; [contradiction|]. now rewrite IH.
Qed.

Lemma until_slash_is_free (x : Py.str) : slash_free (until_slash x).
Proof.
  induction x as [|c x IH]; cbn [until_slash]; [constructor|].
  destruct (N.eqb_spec c SLASH) as [E|E]; constructor; assumption.
Qed.

Lemma slash_free_rev (x : Py.str) : slash_free x -> slash_free (rev x).
Proof. unfold slash_free. rewrite !List.Forall_forall. intros H c Hc. apply H, in_rev, Hc. Qed.

Lemma basename_free (name : Py.str) : slash_free name -> basename name = name.
Proof.
  intros H. unfold basename. rewrite until_slash_free by now apply slash_free_rev.
  apply rev_involutive.
Qed.

Lemma basename_dir (dir name : Py.str) :
  slash_free name -> basename (dir ++ [SLASH] ++ name) = name.
Proof.
  intros H. unfold basename. change (dir ++ [SLASH] ++ name) with (dir ++ SLASH :: name).
  rewrite rev_app_distr. cbn [rev]. rewrite <- app_assoc. cbn [app].
  rewrite until_slash_app by now apply slash_free_rev. apply rev_involutive.
Qed.

Lemma lstrip_slash_head (s : Py.str) : head (lstrip_slash s) <> Some SLASH.
Proof.
  induction s as [|c t IH]; cbn [lstrip_slash]; [discriminate|].
  destruct (N.eqb_spec c SLASH) as [E|E]; [exact IH|]. simpl. congruence.
Qed.

Lemma rstrip_slash_last (s : Py.str) : last (rstrip_slash s) <> Some SLASH.
Proof.
  unfold rstrip_slash. pose proof (lstrip_slash_head (rev s)) as H.
  destruct (lstrip_slash (rev s)) as [|c t]; [simpl; discriminate|].
  cbn [rev]. rewrite last_snoc. simpl in H. congruence.
Qed.

(** X28: [pdf_public_url] fails exactly when [PUBLIC_BASE_URL] is unset or
    empty.  Otherwise the URL ends with a slash and the file name without
    its directories, and the part before that does not end with a slash;
    slashes at the end of the base and around the prefix, and the
    directories of the file name, make no difference. *)
Theorem pdf_public_url_joins (base prefix dir name : Py.str) :
  base <> [] -> slash_free name ->
  (forall b, pdf_public_url b prefix name = None <-> b = None \/ b = Some [])
  /\ (exists u, pdf_public_url (Some base) prefix (dir ++ [SLASH] ++ name)
                = Some (u ++ [SLASH] ++ name)
                /\ last u <> Some SLASH)
  /\ slash_free (basename (dir ++ name))
  /\ pdf_public_url (Some (base ++ [SLASH])) prefix name
     = pdf_public_url (Some base) prefix name
  /\ pdf_public_url (Some base) ([SLASH] ++ prefix ++ [SLASH]) name
     = pdf_public_url (Some base) prefix name
  /\ pdf_public_url (Some base) prefix (dir ++ [SLASH] ++ name)
     = pdf_public_url (Some base) prefix name.
Proof.
  intros Hbase Hname. repeat split.
  - unfold pdf_public_url. destruct b as [[|c b]|]; [now right| |now left].
    destruct (strip_slash prefix); discriminate.
  - intros [-> | ->]; reflexivity.
  - unfold pdf_public_url. destruct base as [|c base]; [contradiction|].
    rewrite basename_dir by assumption.
    destruct (strip_slash prefix) as [|p ps] eqn:Ep.
    + exists (rstrip_slash (c :: base)). split; [reflexivity|apply rstrip_slash_last].
    + exists (rstrip_slash (c :: base) ++ [SLASH] ++ p :: ps). split.
      * now rewrite <- !app_assoc.
      * pose proof (rstrip_slash_last (lstrip_slash prefix)) as Hl.
        fold (strip_slash prefix) in Hl. rewrite Ep in Hl. cbn [app].
        rewrite last_app_cons. exact Hl.
  - unfold basename. apply slash_free_rev, until_slash_is_free.
  - unfold pdf_public_url. destruct base as [|c base]; [contradiction|].
    cbn [app]. change (c :: base ++ [SLASH]) with ((c :: base) ++ [SLASH]).
    now rewrite rstrip_slash_snoc.
  - unfold pdf_public_url. destruct base as [|c base]; [contradiction|].
    replace (strip_slash ([SLASH] ++ prefix ++ [SLASH])) with (strip_slash prefix);
      [reflexivity|].
    rewrite app_assoc, strip_slash_snoc. unfold strip_slash. cbn [app lstrip_slash].
    now rewrite N.eqb_refl.
  - unfold pdf_public_url. destruct base as [|c base]; [contradiction|].
    now rewrite basename_dir, basename_free.
Qed.

Lemma pdf_public_url_joins_witness :
  pdf_public_url (Some (Py.lit "https://example.org/")) (Py.lit "/reports/")
    (Py.lit "out/latest.pdf")
  = pdf_public_url (Some (Py.lit "https://example.org/")) (Py.lit "/reports/")
      (Py.lit "latest.pdf").
Proof.
  apply (pdf_public_url_joins (Py.lit "https://example.org/") (Py.lit "/reports/")
           (Py.lit "out") (Py.lit "latest.pdf")); [discriminate|].
  unfold slash_free. each_char.
Defined.

